(** * Higress ingress conversion engine

    A shallow embedding of the ingress configuration store
    ([IngressConfig]) and of two of its annotation parsers (local rate
    limit, downstream TLS), followed by the properties checked against
    the prose specification.

    Conventions of the embedding:
    - Go's [int32]/[uint32] are [Z] with the wrap-around written out;
    - Go's [float32] is IEEE-754 binary32, taken from the standard
      library's [SpecFloat] at precision 24 and exponent bound 128;
    - a Go [map] is a [gmap]; a [range] over a map enumerates it in an
      order chosen by the runtime, which is an explicit argument here
      ([MapRange]);
    - pointers to structs that are not shared are modelled by value, and
      methods that mutate their receiver return the new receiver;
    - interfaces implemented outside the files at hand are type classes. *)

From Stdlib Require Import ZArith Strings.Ascii Floats.SpecFloat.
From stdpp Require Import gmap strings list fin_maps.

Open Scope Z_scope.

(* ===================================================================== *)
(** * Part I: definitions                                                 *)
(* ===================================================================== *)

(** ** Machine numbers *)

Module Int32.
Definition min_int : Z := - 2 ^ 31.
Definition max_int : Z := 2 ^ 31 - 1.
(** Two's complement reduction of an integer to 32 bits. *)
Definition wrap (z : Z) : Z := (z + 2 ^ 31) mod 2 ^ 32 - 2 ^ 31.
Definition add (a b : Z) : Z := wrap (a + b).
Definition sub (a b : Z) : Z := wrap (a - b).
Definition in_range (z : Z) : bool := (min_int <=? z) && (z <=? max_int).
End Int32.

Module Uint32.
Definition max_uint : Z := 2 ^ 32 - 1.
Definition wrap (z : Z) : Z := z mod 2 ^ 32.
Definition mul (a b : Z) : Z := wrap (a * b).
End Uint32.

(** What a conversion [int32(f)] yields when the value of [f] is not
    representable (NaN, infinities, out of range): the language leaves it
    to the implementation. *)
Class Arch := { int32_of_unrepresentable : spec_float -> Z }.

(** amd64: CVTTSS2SI yields the "integer indefinite" value. *)
Definition amd64 : Arch := {| int32_of_unrepresentable := fun _ => Int32.min_int |}.

(** arm64: FCVTZS saturates, and maps NaN to zero. *)
Definition arm64 : Arch :=
  {| int32_of_unrepresentable := fun f =>
       match f with
       | S754_infinity true | S754_finite true _ _ => Int32.min_int
       | S754_infinity false | S754_finite false _ _ => Int32.max_int
       | _ => 0
       end |}.

Module Float32.
Definition prec : Z := 24.
Definition emax : Z := 128.

(** [float32(i)] for an integer [i]: rounded to nearest, ties to even. *)
Definition of_int (z : Z) : spec_float := binary_normalize prec emax z 0 false.

Definition div (x y : spec_float) : spec_float := SFdiv prec emax x y.
Definition mul (x y : spec_float) : spec_float := SFmul prec emax x y.

(** Integral part of a finite float (rounding toward zero). *)
Definition trunc (f : spec_float) : option Z :=
  match f with
  | S754_zero _ => Some 0
  | S754_finite s m e =>
      let a := match e with
               | Z0 => Zpos m
               | Zpos _ => Z.shiftl (Zpos m) e
               | Zneg p => Z.shiftr (Zpos m) (Zpos p)
               end in
      Some (if s then - a else a)
  | S754_infinity _ | S754_nan => None
  end.

(** [int32(f)]. *)
Definition to_int32 {AR : Arch} (f : spec_float) : Z :=
  match trunc f with
  | Some z => if Int32.in_range z then z
              else Int32.wrap (int32_of_unrepresentable f)
  | None => Int32.wrap (int32_of_unrepresentable f)
  end.
End Float32.

(** ** Errors and results *)

Inductive error : Type :=
  | ErrUnsupportedOp
  | ErrOther (msg : string).

Inductive result (A : Type) : Type :=
  | Ok (a : A)
  | Err (e : error).
Arguments Ok {A} a.
Arguments Err {A} e.

(** ** Iterating over a Go map

    A [range] over a map visits every entry once, in an order that is not
    specified and may change from one run to the next. *)

Class MapRange := {
  range : forall {K} `{Countable K} {V}, gmap K V -> list (K * V);
  range_perm : forall K `{Countable K} V (m : gmap K V), range m ≡ₚ map_to_list m
}.

(** Two admissible orders: the canonical enumeration and its reverse. *)
Definition ascending : MapRange :=
  {| range := fun K _ _ V m => map_to_list m;
     range_perm := fun K _ _ V m => reflexivity (map_to_list m) |}.

Definition descending : MapRange :=
  {| range := fun K _ _ V m => reverse (map_to_list m);
     range_perm := fun K _ _ V m => reverse_Permutation (map_to_list m) |}.

(** [for k, v := range m { s = body k v s }] *)
Definition for_range {MR : MapRange} {K} `{Countable K} {V St}
    (m : gmap K V) (body : K -> V -> St -> St) (s : St) : St :=
  foldl (fun s kv => body kv.1 kv.2 s) s (range m).

(** [for k, v := range m { ... }] where the body only changes the entry it
    visits: it mutates the object [v] points to, or assigns [m[k]]. *)
Definition update_each {MR : MapRange} {K} `{Countable K} {V}
    (m : gmap K V) (f : K -> V -> V) : gmap K V :=
  for_range m (fun k v acc => <[k := f k v]> acc) m.

(** [for idx, x := range l { s = body idx x s }] *)
Fixpoint for_slice_from {A St} (i : nat) (l : list A)
    (body : nat -> A -> St -> St) (s : St) : St :=
  match l with
  | [] => s
  | x :: l' => for_slice_from (S i) l' body (body i x s)
  end.

Definition for_slice {A St} (l : list A) (body : nat -> A -> St -> St) (s : St) : St :=
  for_slice_from 0 l body s.

(** ** Resource kinds ([config.GroupVersionKind] and the [gvk] table) *)

Record GroupVersionKind := {
  Group : string;
  Version : string;
  Kind : string
}.

Global Instance GroupVersionKind_eq_dec : EqDecision GroupVersionKind.
Proof. solve_decision. Defined.

Global Instance GroupVersionKind_countable : Countable GroupVersionKind :=
  inj_countable' (fun k => (Group k, Version k, Kind k))
                 (fun t => {| Group := t.1.1; Version := t.1.2; Kind := t.2 |})
                 (fun k => match k with Build_GroupVersionKind _ _ _ => eq_refl end).

Module gvk.
Definition VirtualService : GroupVersionKind :=
  {| Group := "networking.istio.io"; Version := "v1alpha3"; Kind := "VirtualService" |}.
Definition Gateway : GroupVersionKind :=
  {| Group := "networking.istio.io"; Version := "v1alpha3"; Kind := "Gateway" |}.
Definition DestinationRule : GroupVersionKind :=
  {| Group := "networking.istio.io"; Version := "v1alpha3"; Kind := "DestinationRule" |}.
Definition EnvoyFilter : GroupVersionKind :=
  {| Group := "networking.istio.io"; Version := "v1alpha3"; Kind := "EnvoyFilter" |}.
Definition Ingress : GroupVersionKind :=
  {| Group := "networking.k8s.io"; Version := "v1"; Kind := "Ingress" |}.
End gvk.

(** The four kinds the store serves. *)
Definition supported_kind (k : GroupVersionKind) : bool :=
  bool_decide (k = gvk.Gateway) || bool_decide (k = gvk.VirtualService)
  || bool_decide (k = gvk.DestinationRule) || bool_decide (k = gvk.EnvoyFilter).

(** ** Routing messages ([networking] package), the fields the engine touches *)

Inductive StringMatch : Type :=
  | StringMatch_Exact (Exact : string)
  | StringMatch_Prefix (Prefix : string)
  | StringMatch_Regex (Regex : string).

Record HTTPMatchRequest := {
  Uri : option StringMatch;
  Headers : gmap string StringMatch
}.

Record PortSelector := { Number : Z }.

Record Destination := {
  Host : string;
  Port : option PortSelector
}.

Record HTTPRouteDestination := {
  Destination_ : option Destination;
  Weight : Z
}.

Record HTTPRedirect := {
  RedirectCode : Z;
  Redirect_Uri : string
}.

(** The policy carried by an internal-redirect marker; the engine only
    tests the marker for presence. *)
Record HTTPInternalActiveRedirect := {
  MaxInternalRedirects : Z;
  RedirectUrl : string
}.

(** [types.Duration], whole seconds. *)
Record Duration := { Seconds : Z }.

Record TokenBucket := {
  TokenBucket_MaxTokens : Z;
  TokensPefFill : Z;
  TokenBucket_FillInterval : option Duration
}.

Record LocalRateLimit := {
  TokenBucket_ : option TokenBucket;
  StatusCode : Z
}.

Inductive HTTPFilter_Filter : Type :=
  | HTTPFilter_LocalRateLimit (l : LocalRateLimit)
  | HTTPFilter_Other (payload : string).

Record HTTPFilter := {
  HTTPFilter_Name : string;
  Filter : HTTPFilter_Filter
}.

Record HTTPRoute := {
  Name : string;
  Match : list HTTPMatchRequest;
  Route : list HTTPRouteDestination;
  Redirect : option HTTPRedirect;
  InternalActiveRedirect : option HTTPInternalActiveRedirect;
  RouteHTTPFilters : list HTTPFilter
}.

Record VirtualService := {
  Hosts : list string;
  Gateways : list string;
  Http : list HTTPRoute;
  HostHTTPFilters : list HTTPFilter
}.

Inductive ServerTLSSettings_TLSProtocol : Type :=
  | TLS_AUTO | TLSV1_0 | TLSV1_1 | TLSV1_2 | TLSV1_3.

Inductive ServerTLSSettings_TLSmode : Type :=
  | PASSTHROUGH | SIMPLE | MUTUAL.

Record Server := {
  Server_Hosts : list string;
  CredentialName : string
}.

Record Gateway := { Servers : list Server }.

Record PortTrafficPolicy := {
  PortTrafficPolicy_Port : Z;
  PortTrafficPolicy_Settings : string
}.

Record TrafficPolicy := { PortLevelSettings : list PortTrafficPolicy }.

Record DestinationRule := {
  DestinationRule_Host : string;
  TrafficPolicy_ : TrafficPolicy
}.

(** The one patch shape the engine emits. *)
Inductive ApplyTo := HTTP_FILTER.
Inductive PatchContext := GATEWAY.
Inductive PatchOperation := INSERT_AFTER.

Record EnvoyConfigObjectMatch := {
  Context_ : PatchContext;
  Listener_Filter_Name : string;
  Listener_SubFilter_Name : string
}.

(** A protobuf [Any] and a [types.Struct], by what they carry. *)
Record Any := { TypeUrl : string; Any_Value : string }.
Record Struct := { Struct_Json : string }.

Record EnvoyConfigObjectPatch := {
  ApplyTo_ : ApplyTo;
  Match_ : EnvoyConfigObjectMatch;
  Patch_Operation : PatchOperation;
  Patch_Value : Struct
}.

Record EnvoyFilter := { ConfigPatches : list EnvoyConfigObjectPatch }.

(** ** Configuration objects ([config.Config]) *)

Inductive Spec : Type :=
  | Spec_Ingress (payload : string)
  | Spec_Gateway (g : Gateway)
  | Spec_VirtualService (vs : VirtualService)
  | Spec_DestinationRule (dr : DestinationRule)
  | Spec_EnvoyFilter (ef : EnvoyFilter).

Record Meta := {
  Meta_GroupVersionKind : GroupVersionKind;
  Meta_Name : string;
  Meta_Namespace : string;
  Meta_Annotations : gmap string string;
  CreationTimestamp : Z
}.

Record Config := {
  Config_Meta : Meta;
  Config_Spec : Spec
}.

(** [model.NamespacedName] and its [String] method. *)
Record NamespacedName := {
  NamespacedName_Namespace : string;
  NamespacedName_Name : string
}.

Definition NamespacedName_String (n : NamespacedName) : string :=
  NamespacedName_Namespace n +:+ "/" +:+ NamespacedName_Name n.

(** [util.ClusterNamespacedName] *)
Record ClusterNamespacedName := {
  CNN_NamespacedName : NamespacedName;
  CNN_ClusterId : string
}.

(** [model.ConfigKey] and [model.PushRequest] *)
Record ConfigKey := {
  ConfigKey_Kind : GroupVersionKind;
  ConfigKey_Name : string;
  ConfigKey_Namespace : string
}.

Global Instance ConfigKey_eq_dec : EqDecision ConfigKey.
Proof. solve_decision. Defined.

Global Instance ConfigKey_countable : Countable ConfigKey :=
  inj_countable' (fun k => (ConfigKey_Kind k, ConfigKey_Name k, ConfigKey_Namespace k))
                 (fun t => {| ConfigKey_Kind := t.1.1; ConfigKey_Name := t.1.2;
                              ConfigKey_Namespace := t.2 |})
                 (fun k => match k with Build_ConfigKey _ _ _ => eq_refl end).

Record PushRequest := {
  Full : bool;
  ConfigsUpdated : gset ConfigKey;
  Reason : list string
}.

(** ** Package [annotations]: per-object configuration decoded from annotations *)

(** [type Annotations map[string]string] *)
Abbreviation Annotations := (gmap string string) (only parsing).

(** The lookup helpers of [Annotations] live in a file that is not among the
    sources at hand; the parsers below are written against their
    signatures.  Go's [(T, error)] is [result T]; a [uint32] result is in
    range by typing. *)
Class AnnotationLookup := {
  HasMSE : Annotations -> string -> bool;
  HasASAP : Annotations -> string -> bool;
  ParseUint32ForMSE : Annotations -> string -> result Z;
  ParseStringForMSE : Annotations -> string -> result string;
  ParseStringASAP : Annotations -> string -> result string;
  ParseUint32ForMSE_range : forall a k v,
    ParseUint32ForMSE a k = Ok v -> 0 <= v <= Uint32.max_uint
}.

(** Functions of other packages used by the parsers. *)
Class ParserDeps := {
  (** [util.SplitNamespacedName] *)
  SplitNamespacedName : string -> NamespacedName;
  (** [security.IsValidCipherSuite] *)
  IsValidCipherSuite : string -> bool;
  (** [mseingress.LocalRateLimit], the name the filter is registered under *)
  mseingress_LocalRateLimit : string
}.

Record AuthConfig := {
  AuthRealm : string;
  AuthSecret : ClusterNamespacedName;
  Credentials : list string
}.

Record FallbackConfig := {
  DefaultBackend : NamespacedName;
  Fallback_Port : Z
}.

Record localRateLimitConfig := {
  TokensPerFill : Z;
  MaxTokens : Z;
  FillInterval : option Duration
}.

(** [type TLSProtocolVersion string] *)
Abbreviation TLSProtocolVersion := string (only parsing).

Record DownstreamTLSConfig := {
  TlsMinVersion : TLSProtocolVersion;
  TlsMaxVersion : TLSProtocolVersion;
  CipherSuites : list string;
  Mode : ServerTLSSettings_TLSmode;
  CASecretName : NamespacedName
}.

Record AnnotationsMeta := {
  Namespace : string;
  Ingress_Name : string;
  RawClusterId : string;
  ClusterId : string
}.

(** [annotations.Ingress]: the features decoded by the parsers embedded here
    and those the engine reads. *)
Record Ingress := {
  Ingress_Meta : AnnotationsMeta;
  Auth : option AuthConfig;
  Fallback : option FallbackConfig;
  localRateLimit : option localRateLimitConfig;
  DownstreamTLS : option DownstreamTLSConfig
}.

Definition set_localRateLimit (config : Ingress) (l : option localRateLimitConfig) : Ingress :=
  {| Ingress_Meta := Ingress_Meta config; Auth := Auth config; Fallback := Fallback config;
     localRateLimit := l; DownstreamTLS := DownstreamTLS config |}.

Definition set_DownstreamTLS (config : Ingress) (d : option DownstreamTLSConfig) : Ingress :=
  {| Ingress_Meta := Ingress_Meta config; Auth := Auth config; Fallback := Fallback config;
     localRateLimit := localRateLimit config; DownstreamTLS := d |}.

(** Handles on one cluster's secret and service stores. *)
Record SecretLister := { SecretLister_Cluster : string }.
Record ServiceLister := { ServiceLister_Cluster : string }.

Record GlobalContext := {
  WatchedSecrets : gset string;
  ClusterSecretLister : gmap string SecretLister;
  ClusterServiceList : gmap string ServiceLister
}.

(** *** Local rate limit *)

Definition limitRPM : string := "route-limit-rpm".
Definition limitRPS : string := "route-limit-rps".
Definition limitBurstMultiplier : string := "route-limit-burst-multiplier".
Definition defaultBurstMultiplier : Z := 5.
Definition defaultStatusCode : Z := 503.

Definition second : Duration := {| Seconds := 1 |}.
Definition minute : Duration := {| Seconds := 60 |}.

Definition needLocalRateLimitConfig {AL : AnnotationLookup} (annotations : Annotations) : bool :=
  HasMSE annotations limitRPM || HasMSE annotations limitRPS.

(** [localRateLimit.Parse]: the new [config] and the returned error. *)
Definition localRateLimit_Parse {AL : AnnotationLookup}
    (annotations : Annotations) (config : Ingress) (_ : GlobalContext)
    : Ingress * option error :=
  if negb (needLocalRateLimitConfig annotations) then (config, None)
  else
    let multiplier :=
      match ParseUint32ForMSE annotations limitBurstMultiplier with
      | Ok m => m
      | Err _ => defaultBurstMultiplier
      end in
    let local :=
      match ParseUint32ForMSE annotations limitRPM with
      | Ok rpm =>
          Some {| MaxTokens := Uint32.mul rpm multiplier;
                  TokensPerFill := rpm;
                  FillInterval := Some minute |}
      | Err _ =>
          match ParseUint32ForMSE annotations limitRPS with
          | Ok rps =>
              Some {| MaxTokens := Uint32.mul rps multiplier;
                      TokensPerFill := rps;
                      FillInterval := Some second |}
          | Err _ => None
          end
      end in
    (set_localRateLimit config local, None).

Definition set_RouteHTTPFilters (route : HTTPRoute) (fs : list HTTPFilter) : HTTPRoute :=
  {| Name := Name route; Match := Match route; Route := Route route;
     Redirect := Redirect route; InternalActiveRedirect := InternalActiveRedirect route;
     RouteHTTPFilters := fs |}.

Definition localRateLimit_ApplyRoute {PD : ParserDeps} (route : HTTPRoute) (config : Ingress)
    : HTTPRoute :=
  match localRateLimit config with
  | None => route
  | Some localRateLimitConfig =>
      set_RouteHTTPFilters route
        (RouteHTTPFilters route ++
         [ {| HTTPFilter_Name := mseingress_LocalRateLimit;
              Filter := HTTPFilter_LocalRateLimit
                {| TokenBucket_ := Some
                     {| TokenBucket_MaxTokens := MaxTokens localRateLimitConfig;
                        TokensPefFill := TokensPerFill localRateLimitConfig;
                        TokenBucket_FillInterval := FillInterval localRateLimitConfig |};
                   StatusCode := defaultStatusCode |} |} ])
  end.

(** *** Downstream TLS *)

Definition authTLSSecret : string := "auth-tls-secret".
Definition tlsMinVersion : string := "tls-min-protocol-version".
Definition tlsMaxVersion : string := "tls-max-protocol-version".
Definition sslCipher : string := "ssl-cipher".

Definition tlsV10 : TLSProtocolVersion := "TLSv1.0".
Definition tlsV11 : TLSProtocolVersion := "TLSv1.1".
Definition tlsV12 : TLSProtocolVersion := "TLSv1.2".
Definition tlsV13 : TLSProtocolVersion := "TLSv1.3".

Definition tlsProtocol : gmap string ServerTLSSettings_TLSProtocol :=
  <[tlsV10 := TLSV1_0]> (<[tlsV11 := TLSV1_1]> (<[tlsV12 := TLSV1_2]> (<[tlsV13 := TLSV1_3]> ∅))).

Definition isValidTLSProtocolVersion (protocol : string) : bool :=
  match tlsProtocol !! protocol with
  | Some _ => true
  | None => false
  end.

(** A missing key reads as the zero value of the element type. *)
Definition Convert (protocol : string) : ServerTLSSettings_TLSProtocol :=
  default TLS_AUTO (tlsProtocol !! protocol).

(** [strings.Split(s, sep)] for a one-byte separator. *)
Fixpoint strings_Split (s : string) (sep : Ascii.ascii) : list string :=
  match s with
  | EmptyString => [EmptyString]
  | String c s' =>
      if Ascii.eqb c sep then EmptyString :: strings_Split s' sep
      else match strings_Split s' sep with
           | h :: t => String c h :: t
           | [] => [String c EmptyString]
           end
  end.

Definition needDownstreamTLS {AL : AnnotationLookup} (annotations : Annotations) : bool :=
  HasMSE annotations tlsMinVersion || HasMSE annotations tlsMaxVersion
  || HasASAP annotations sslCipher || HasASAP annotations authTLSSecret.

Definition zero_NamespacedName : NamespacedName :=
  {| NamespacedName_Namespace := ""; NamespacedName_Name := "" |}.

(** [downstreamTLS.Parse]: the new [config] and the returned error. *)
Definition downstreamTLS_Parse {AL : AnnotationLookup} {PD : ParserDeps}
    (annotations : Annotations) (config : Ingress) (_ : GlobalContext)
    : Ingress * option error :=
  if negb (needDownstreamTLS annotations) then (config, None)
  else
    let '(mode, caSecretName) :=
      match ParseStringASAP annotations authTLSSecret with
      | Ok secretName =>
          let namespacedName := SplitNamespacedName secretName in
          if bool_decide (NamespacedName_Name namespacedName = "") then
            (SIMPLE, zero_NamespacedName)
          else
            let namespacedName :=
              if bool_decide (NamespacedName_Namespace namespacedName = "") then
                {| NamespacedName_Namespace := Namespace (Ingress_Meta config);
                   NamespacedName_Name := NamespacedName_Name namespacedName |}
              else namespacedName in
            (MUTUAL, namespacedName)
      | Err _ => (SIMPLE, zero_NamespacedName)
      end in
    let minV :=
      match ParseStringForMSE annotations tlsMinVersion with
      | Ok minVersion => if isValidTLSProtocolVersion minVersion then minVersion else ""
      | Err _ => ""
      end in
    let maxV :=
      match ParseStringForMSE annotations tlsMaxVersion with
      | Ok maxVersion => if isValidTLSProtocolVersion maxVersion then maxVersion else ""
      | Err _ => ""
      end in
    let ciphers :=
      match ParseStringASAP annotations sslCipher with
      | Ok rawTlsCipherSuite =>
          filter (fun cipher => IsValidCipherSuite cipher = true)
                 (strings_Split rawTlsCipherSuite ":"%char)
      | Err _ => []
      end in
    (set_DownstreamTLS config
       (Some {| TlsMinVersion := minV; TlsMaxVersion := maxV; CipherSuites := ciphers;
                Mode := mode; CASecretName := caSecretName |}),
     None).

(** ** Package [common]: the accumulator shared by one compilation pass *)

Record WrapperConfig := {
  Config_ : Config;
  AnnotationsConfig : Ingress
}.

Record WrapperGateway := {
  WG_Gateway : Gateway;
  WG_WrapperConfig : WrapperConfig;
  WG_ClusterId : string;
  WG_Host : string
}.

Record WrapperVirtualService := {
  WVS_VirtualService : VirtualService;
  WVS_WrapperConfig : WrapperConfig;
  AppRoot : string
}.

Record WrapperHTTPRoute := {
  WHR_HTTPRoute : HTTPRoute;
  WHR_WrapperConfig : WrapperConfig;
  WHR_ClusterId : string;
  WeightTotal : Z
}.

Record WrapperTrafficPolicy := {
  WTP_TrafficPolicy : PortTrafficPolicy;
  WTP_WrapperConfig : WrapperConfig
}.

Record ServiceKey := {
  ServiceKey_Namespace : string;
  ServiceKey_Name : string;
  ServiceKey_Port : Z
}.

Global Instance ServiceKey_eq_dec : EqDecision ServiceKey.
Proof. solve_decision. Defined.

Global Instance ServiceKey_countable : Countable ServiceKey :=
  inj_countable' (fun k => (ServiceKey_Namespace k, ServiceKey_Name k, ServiceKey_Port k))
                 (fun t => {| ServiceKey_Namespace := t.1.1; ServiceKey_Name := t.1.2;
                              ServiceKey_Port := t.2 |})
                 (fun k => match k with Build_ServiceKey _ _ _ => eq_refl end).

Record WrapperDestinationRule := {
  WDR_DestinationRule : DestinationRule;
  WDR_WrapperConfig : WrapperConfig;
  WDR_ServiceKey : ServiceKey
}.

Record Rule := {
  Realm : string;
  MatchRoute : list string;
  Rule_Credentials : list string;
  Encrypted : bool
}.

Record BasicAuthRules := { Rules : list Rule }.

(** Modelled from the spec: the route cache ([common.IngressRouteCache]) is
    not among the sources at hand; "every normalized route is recorded into
    the Route Cache's update hook", so the cache is the sequence of routes
    handed to [Update], and [Extract] reads it out. *)
Definition IngressRouteCache := list WrapperHTTPRoute.
Definition IngressRouteCache_Update (cache : IngressRouteCache) (route : WrapperHTTPRoute)
    : IngressRouteCache := cache ++ [route].
Definition NewIngressRouteCache : IngressRouteCache := [].

(** Modelled from the spec: the domain cache ([common.IngressDomainCache]),
    "a domain-to-hostname index", is filled by the per-cluster adapters;
    [Extract] reads the index out as the table the store keeps
    ([model.IngressDomainCollection]), entry by entry, in the order in
    which the runtime enumerates the index. *)
Definition IngressDomainCache := gmap string string.
Definition NewIngressDomainCache : IngressDomainCache := ∅.
Definition IngressDomainCollection := list (string * string).
Definition IngressDomainCache_Extract {MR : MapRange} (cache : IngressDomainCache)
    : IngressDomainCollection :=
  range cache.

Record ConvertOptions := {
  HostAndPath2Ingress : gmap string Config;
  IngressRouteCache_ : IngressRouteCache;
  IngressDomainCache_ : IngressDomainCache;
  CO_Gateways : gmap string WrapperGateway;
  VirtualServices : gmap string WrapperVirtualService;
  HTTPRoutes : gmap string (list WrapperHTTPRoute);
  CanaryIngresses : list WrapperConfig;
  HasDefaultBackend : bool;
  Service2TrafficPolicy : gmap ServiceKey WrapperTrafficPolicy
}.

(** The zero value of the struct. *)
Definition zero_ConvertOptions : ConvertOptions :=
  {| HostAndPath2Ingress := ∅; IngressRouteCache_ := []; IngressDomainCache_ := ∅;
     CO_Gateways := ∅; VirtualServices := ∅; HTTPRoutes := ∅; CanaryIngresses := [];
     HasDefaultBackend := false; Service2TrafficPolicy := ∅ |}.

Definition set_IngressRouteCache (o : ConvertOptions) (c : IngressRouteCache) : ConvertOptions :=
  {| HostAndPath2Ingress := HostAndPath2Ingress o; IngressRouteCache_ := c;
     IngressDomainCache_ := IngressDomainCache_ o; CO_Gateways := CO_Gateways o;
     VirtualServices := VirtualServices o; HTTPRoutes := HTTPRoutes o;
     CanaryIngresses := CanaryIngresses o; HasDefaultBackend := HasDefaultBackend o;
     Service2TrafficPolicy := Service2TrafficPolicy o |}.

Definition set_Gateways (o : ConvertOptions) (g : gmap string WrapperGateway) : ConvertOptions :=
  {| HostAndPath2Ingress := HostAndPath2Ingress o; IngressRouteCache_ := IngressRouteCache_ o;
     IngressDomainCache_ := IngressDomainCache_ o; CO_Gateways := g;
     VirtualServices := VirtualServices o; HTTPRoutes := HTTPRoutes o;
     CanaryIngresses := CanaryIngresses o; HasDefaultBackend := HasDefaultBackend o;
     Service2TrafficPolicy := Service2TrafficPolicy o |}.

Definition set_VirtualServices (o : ConvertOptions) (v : gmap string WrapperVirtualService)
    : ConvertOptions :=
  {| HostAndPath2Ingress := HostAndPath2Ingress o; IngressRouteCache_ := IngressRouteCache_ o;
     IngressDomainCache_ := IngressDomainCache_ o; CO_Gateways := CO_Gateways o;
     VirtualServices := v; HTTPRoutes := HTTPRoutes o;
     CanaryIngresses := CanaryIngresses o; HasDefaultBackend := HasDefaultBackend o;
     Service2TrafficPolicy := Service2TrafficPolicy o |}.

Definition set_HTTPRoutes (o : ConvertOptions) (r : gmap string (list WrapperHTTPRoute))
    : ConvertOptions :=
  {| HostAndPath2Ingress := HostAndPath2Ingress o; IngressRouteCache_ := IngressRouteCache_ o;
     IngressDomainCache_ := IngressDomainCache_ o; CO_Gateways := CO_Gateways o;
     VirtualServices := VirtualServices o; HTTPRoutes := r;
     CanaryIngresses := CanaryIngresses o; HasDefaultBackend := HasDefaultBackend o;
     Service2TrafficPolicy := Service2TrafficPolicy o |}.

Definition set_Service2TrafficPolicy (o : ConvertOptions)
    (p : gmap ServiceKey WrapperTrafficPolicy) : ConvertOptions :=
  {| HostAndPath2Ingress := HostAndPath2Ingress o; IngressRouteCache_ := IngressRouteCache_ o;
     IngressDomainCache_ := IngressDomainCache_ o; CO_Gateways := CO_Gateways o;
     VirtualServices := VirtualServices o; HTTPRoutes := HTTPRoutes o;
     CanaryIngresses := CanaryIngresses o; HasDefaultBackend := HasDefaultBackend o;
     Service2TrafficPolicy := p |}.

(** Helpers and constants of [common], [util], [constants] and the
    [annotations] package that are declared outside the files at hand. *)
Class Helpers := {
  GetClusterId : Annotations -> string;
  GetRawClusterId : Annotations -> string;
  (** variadic: [CreateConvertedName(items ...string)] *)
  CreateConvertedName : list string -> string;
  CleanHost : string -> string;
  SortIngressByCreationTime : list Config -> list Config;
  ClusterIdAnnotation : string;
  HostAnnotation : string;
  IstioIngressGatewayName : string;
  CreateServiceFQDN : string -> string -> string;
  CreateDestinationRuleName : string -> string -> string -> string;
  ClusterNamespacedName_String : ClusterNamespacedName -> string;
  FallbackRouteNameSuffix : string;
  FallbackInjectHeaderRouteName : string;
  FallbackInjectFallbackService : string;
  (** both are keys of one map literal, which the compiler only accepts
      when they differ *)
  fallback_headers_differ : FallbackInjectHeaderRouteName <> FallbackInjectFallbackService;
  annotation_keys_differ : ClusterIdAnnotation <> HostAnnotation
}.

(** [common.IngressController]: one cluster's source adapter.  [Handler] is
    the type of event callbacks.  The conversion methods receive the
    accumulator by pointer and return an error; here they return the
    accumulator as they leave it. *)
Class IngressController (C Handler : Type) := {
  ctl_RegisterEventHandler : GroupVersionKind -> Handler -> C -> C;
  ctl_List : C -> list Config;
  ctl_SecretLister : C -> SecretLister;
  ctl_ServiceLister : C -> ServiceLister;
  ctl_ConvertGateway : C -> ConvertOptions -> WrapperConfig -> ConvertOptions * option error;
  ctl_ConvertHTTPRoute : C -> ConvertOptions -> WrapperConfig -> ConvertOptions * option error;
  ctl_ApplyDefaultBackend : C -> ConvertOptions -> WrapperConfig -> ConvertOptions * option error;
  ctl_ApplyCanaryIngress : C -> ConvertOptions -> WrapperConfig -> ConvertOptions * option error;
  ctl_ConvertTrafficPolicy : C -> ConvertOptions -> WrapperConfig -> ConvertOptions * option error;
  ctl_HasSynced : C -> bool
}.

(** [annotations.AnnotationHandler]: the registry of parsers. *)
Class AnnotationHandler := {
  Parse : Annotations -> Ingress -> GlobalContext -> Ingress * GlobalContext * option error;
  ApplyGateway : Gateway -> Ingress -> Gateway;
  ApplyRoute : HTTPRoute -> Ingress -> HTTPRoute;
  ApplyVirtualServiceHandler : VirtualService -> Ingress -> VirtualService;
  ApplyTrafficPolicy : PortTrafficPolicy -> Ingress -> PortTrafficPolicy
}.

(** The wasm plugin configuration wrapped into the basic-auth filter. *)
Record VmConfig := {
  Runtime : string;
  Code_InlineString : string
}.

Record PluginConfig := {
  PluginConfig_Name : string;
  FailOpen : bool;
  Vm : VmConfig;
  Configuration : Any
}.

Record Wasm := { Wasm_Config : PluginConfig }.

Record HttpFilter := {
  HttpFilter_Name : string;
  TypedConfig : Any
}.

(** The encoders the filter construction goes through. *)
Class Encoders := {
  json_Marshal : BasicAuthRules -> result string;
  (** [networkingutil.MessageToAny] of a [wrappers.StringValue] *)
  MessageToAny : string -> Any;
  anypb_New : Wasm -> result Any;
  MessageToGoGoStruct : HttpFilter -> result Struct
}.

(** ** Package [config]: the ingress configuration store *)

(** [strings.HasSuffix] *)
Definition strings_HasSuffix (s suffix : string) : bool :=
  let n := String.length s in
  let k := String.length suffix in
  (k <=? n)%nat && String.eqb (String.substring (n - k) k s) suffix.

(** The store.  [C] is the type of the per-cluster adapters and [Handler]
    that of event callbacks.  [XDSUpdater] is the downstream consumer, by
    the sequence of requests its [ConfigUpdate] has received. *)
Record IngressConfig (C Handler : Type) := {
  remoteIngressControllers : gmap string C;
  ingressRouteCache : IngressRouteCache;
  ingressDomainCache : IngressDomainCollection;
  virtualServiceHandlers : list Handler;
  gatewayHandlers : list Handler;
  destinationRuleHandlers : list Handler;
  envoyFilterHandlers : list Handler;
  cachedEnvoyFilters : list Config;
  watchedSecretSet : gset string;
  XDSUpdater : list PushRequest;
  globalGatewayName : string;
  namespace : string;
  clusterId : string
}.
Arguments remoteIngressControllers {C Handler}.
Arguments ingressRouteCache {C Handler}.
Arguments ingressDomainCache {C Handler}.
Arguments virtualServiceHandlers {C Handler}.
Arguments gatewayHandlers {C Handler}.
Arguments destinationRuleHandlers {C Handler}.
Arguments envoyFilterHandlers {C Handler}.
Arguments cachedEnvoyFilters {C Handler}.
Arguments watchedSecretSet {C Handler}.
Arguments XDSUpdater {C Handler}.
Arguments globalGatewayName {C Handler}.
Arguments namespace {C Handler}.
Arguments clusterId {C Handler}.

Section Store.
Context {C Handler : Type}.

Definition with_handlers (m : IngressConfig C Handler)
    (vs gw dr ef : list Handler) : IngressConfig C Handler :=
  {| remoteIngressControllers := remoteIngressControllers m;
     ingressRouteCache := ingressRouteCache m;
     ingressDomainCache := ingressDomainCache m;
     virtualServiceHandlers := vs; gatewayHandlers := gw;
     destinationRuleHandlers := dr; envoyFilterHandlers := ef;
     cachedEnvoyFilters := cachedEnvoyFilters m;
     watchedSecretSet := watchedSecretSet m; XDSUpdater := XDSUpdater m;
     globalGatewayName := globalGatewayName m; namespace := namespace m;
     clusterId := clusterId m |}.

Definition set_remoteIngressControllers (m : IngressConfig C Handler)
    (cs : gmap string C) : IngressConfig C Handler :=
  {| remoteIngressControllers := cs;
     ingressRouteCache := ingressRouteCache m;
     ingressDomainCache := ingressDomainCache m;
     virtualServiceHandlers := virtualServiceHandlers m;
     gatewayHandlers := gatewayHandlers m;
     destinationRuleHandlers := destinationRuleHandlers m;
     envoyFilterHandlers := envoyFilterHandlers m;
     cachedEnvoyFilters := cachedEnvoyFilters m;
     watchedSecretSet := watchedSecretSet m; XDSUpdater := XDSUpdater m;
     globalGatewayName := globalGatewayName m; namespace := namespace m;
     clusterId := clusterId m |}.

Definition set_ingressRouteCache (m : IngressConfig C Handler)
    (c : IngressRouteCache) : IngressConfig C Handler :=
  {| remoteIngressControllers := remoteIngressControllers m;
     ingressRouteCache := c;
     ingressDomainCache := ingressDomainCache m;
     virtualServiceHandlers := virtualServiceHandlers m;
     gatewayHandlers := gatewayHandlers m;
     destinationRuleHandlers := destinationRuleHandlers m;
     envoyFilterHandlers := envoyFilterHandlers m;
     cachedEnvoyFilters := cachedEnvoyFilters m;
     watchedSecretSet := watchedSecretSet m; XDSUpdater := XDSUpdater m;
     globalGatewayName := globalGatewayName m; namespace := namespace m;
     clusterId := clusterId m |}.

Definition set_ingressDomainCache (m : IngressConfig C Handler)
    (c : IngressDomainCollection) : IngressConfig C Handler :=
  {| remoteIngressControllers := remoteIngressControllers m;
     ingressRouteCache := ingressRouteCache m;
     ingressDomainCache := c;
     virtualServiceHandlers := virtualServiceHandlers m;
     gatewayHandlers := gatewayHandlers m;
     destinationRuleHandlers := destinationRuleHandlers m;
     envoyFilterHandlers := envoyFilterHandlers m;
     cachedEnvoyFilters := cachedEnvoyFilters m;
     watchedSecretSet := watchedSecretSet m; XDSUpdater := XDSUpdater m;
     globalGatewayName := globalGatewayName m; namespace := namespace m;
     clusterId := clusterId m |}.

Definition set_cachedEnvoyFilters (m : IngressConfig C Handler)
    (fs : list Config) : IngressConfig C Handler :=
  {| remoteIngressControllers := remoteIngressControllers m;
     ingressRouteCache := ingressRouteCache m;
     ingressDomainCache := ingressDomainCache m;
     virtualServiceHandlers := virtualServiceHandlers m;
     gatewayHandlers := gatewayHandlers m;
     destinationRuleHandlers := destinationRuleHandlers m;
     envoyFilterHandlers := envoyFilterHandlers m;
     cachedEnvoyFilters := fs;
     watchedSecretSet := watchedSecretSet m; XDSUpdater := XDSUpdater m;
     globalGatewayName := globalGatewayName m; namespace := namespace m;
     clusterId := clusterId m |}.

Definition set_watchedSecretSet (m : IngressConfig C Handler)
    (ws : gset string) : IngressConfig C Handler :=
  {| remoteIngressControllers := remoteIngressControllers m;
     ingressRouteCache := ingressRouteCache m;
     ingressDomainCache := ingressDomainCache m;
     virtualServiceHandlers := virtualServiceHandlers m;
     gatewayHandlers := gatewayHandlers m;
     destinationRuleHandlers := destinationRuleHandlers m;
     envoyFilterHandlers := envoyFilterHandlers m;
     cachedEnvoyFilters := cachedEnvoyFilters m;
     watchedSecretSet := ws; XDSUpdater := XDSUpdater m;
     globalGatewayName := globalGatewayName m; namespace := namespace m;
     clusterId := clusterId m |}.

(** [m.XDSUpdater.ConfigUpdate(req)] *)
Definition ConfigUpdate (m : IngressConfig C Handler)
    (req : PushRequest) : IngressConfig C Handler :=
  {| remoteIngressControllers := remoteIngressControllers m;
     ingressRouteCache := ingressRouteCache m;
     ingressDomainCache := ingressDomainCache m;
     virtualServiceHandlers := virtualServiceHandlers m;
     gatewayHandlers := gatewayHandlers m;
     destinationRuleHandlers := destinationRuleHandlers m;
     envoyFilterHandlers := envoyFilterHandlers m;
     cachedEnvoyFilters := cachedEnvoyFilters m;
     watchedSecretSet := watchedSecretSet m; XDSUpdater := XDSUpdater m ++ [req];
     globalGatewayName := globalGatewayName m; namespace := namespace m;
     clusterId := clusterId m |}.

Context {IC : IngressController C Handler} {HL : Helpers} {MR : MapRange}.

Definition NewIngressConfig (XDS : list PushRequest) (namespace clusterId : string)
    : IngressConfig C Handler :=
  let clusterId := if bool_decide (clusterId = "Kubernetes") then "" else clusterId in
  {| remoteIngressControllers := ∅;
     ingressRouteCache := []; ingressDomainCache := [];
     virtualServiceHandlers := []; gatewayHandlers := [];
     destinationRuleHandlers := []; envoyFilterHandlers := [];
     cachedEnvoyFilters := [];
     watchedSecretSet := ∅; XDSUpdater := XDS;
     globalGatewayName := namespace +:+ "/" +:+ CreateConvertedName [clusterId; "global"];
     namespace := namespace; clusterId := clusterId |}.

Definition RegisterEventHandler (kind : GroupVersionKind) (f : Handler)
    (m : IngressConfig C Handler) : IngressConfig C Handler :=
  if bool_decide (kind <> gvk.VirtualService) && bool_decide (kind <> gvk.Gateway)
     && bool_decide (kind <> gvk.DestinationRule) && bool_decide (kind <> gvk.EnvoyFilter)
  then m
  else
    let m :=
      if bool_decide (kind = gvk.VirtualService) then
        with_handlers m (virtualServiceHandlers m ++ [f]) (gatewayHandlers m)
                      (destinationRuleHandlers m) (envoyFilterHandlers m)
      else if bool_decide (kind = gvk.Gateway) then
        with_handlers m (virtualServiceHandlers m) (gatewayHandlers m ++ [f])
                      (destinationRuleHandlers m) (envoyFilterHandlers m)
      else if bool_decide (kind = gvk.DestinationRule) then
        with_handlers m (virtualServiceHandlers m) (gatewayHandlers m)
                      (destinationRuleHandlers m ++ [f]) (envoyFilterHandlers m)
      else if bool_decide (kind = gvk.EnvoyFilter) then
        with_handlers m (virtualServiceHandlers m) (gatewayHandlers m)
                      (destinationRuleHandlers m) (envoyFilterHandlers m ++ [f])
      else m in
    set_remoteIngressControllers m
      (update_each (remoteIngressControllers m)
         (fun _ remoteIngressController =>
            ctl_RegisterEventHandler kind f remoteIngressController)).

Definition HasSynced (m : IngressConfig C Handler) : bool :=
  forallb (fun kv => ctl_HasSynced (Handler := Handler) kv.2)
          (range (remoteIngressControllers m)).

(** The key under which a change of the secret is reported for [kind]. *)
Definition secretConfigKey (kind : GroupVersionKind)
    (clusterNamespacedName : ClusterNamespacedName) : ConfigKey :=
  {| ConfigKey_Kind := kind;
     ConfigKey_Name := NamespacedName_Name (CNN_NamespacedName clusterNamespacedName);
     ConfigKey_Namespace :=
       NamespacedName_Namespace (CNN_NamespacedName clusterNamespacedName) |}.

Definition ReflectSecretChanges (clusterNamespacedName : ClusterNamespacedName)
    (m : IngressConfig C Handler) : IngressConfig C Handler :=
  let hit :=
    bool_decide (ClusterNamespacedName_String clusterNamespacedName ∈ watchedSecretSet m) in
  if hit then
    let push (kind : GroupVersionKind) (m : IngressConfig C Handler) :=
      ConfigUpdate m
        {| Full := true;
           ConfigsUpdated := {[ secretConfigKey kind clusterNamespacedName ]};
           Reason := ["auth-secret-change"] |} in
    push gvk.EnvoyFilter (push gvk.VirtualService m)
  else m.

(** The mutation entry points: revision and error. *)
Definition Create (m : IngressConfig C Handler) (_ : Config) : string * option error :=
  ("", Some ErrUnsupportedOp).
Definition Update (m : IngressConfig C Handler) (_ : Config) : string * option error :=
  ("", Some ErrUnsupportedOp).
Definition UpdateStatus (m : IngressConfig C Handler) (_ : Config) : string * option error :=
  ("", Some ErrUnsupportedOp).
Definition Patch (m : IngressConfig C Handler) (_ : Config) (_ : Config -> Config * string)
    : string * option error :=
  ("", Some ErrUnsupportedOp).
Definition Delete (m : IngressConfig C Handler) (_ : GroupVersionKind) (_ _ : string)
    (_ : option string) : option error :=
  Some ErrUnsupportedOp.

Definition Get (m : IngressConfig C Handler) (_ : GroupVersionKind) (_ _ : string)
    : option Config := None.
End Store.

(** *** Structural passes over the routes *)

Definition set_Weight (d : HTTPRouteDestination) (w : Z) : HTTPRouteDestination :=
  {| Destination_ := Destination_ d; Weight := w |}.

Definition set_Route (r : HTTPRoute) (ds : list HTTPRouteDestination) : HTTPRoute :=
  {| Name := Name r; Match := Match r; Route := ds; Redirect := Redirect r;
     InternalActiveRedirect := InternalActiveRedirect r;
     RouteHTTPFilters := RouteHTTPFilters r |}.

Definition set_HTTPRoute (w : WrapperHTTPRoute) (r : HTTPRoute) : WrapperHTTPRoute :=
  {| WHR_HTTPRoute := r; WHR_WrapperConfig := WHR_WrapperConfig w;
     WHR_ClusterId := WHR_ClusterId w; WeightTotal := WeightTotal w |}.

(** The destinations of a wrapped route, and their replacement. *)
Definition destinations (route : WrapperHTTPRoute) : list HTTPRouteDestination :=
  Route (WHR_HTTPRoute route).

Definition with_destinations (route : WrapperHTTPRoute) (ds : list HTTPRouteDestination)
    : WrapperHTTPRoute :=
  set_HTTPRoute route (set_Route (WHR_HTTPRoute route) ds).

(** [int32(float32(w) / float32(weightTotal) * 100)] *)
Definition percentage {AR : Arch} (w weightTotal : Z) : Z :=
  let weight := Float32.div (Float32.of_int w) (Float32.of_int weightTotal) in
  Float32.to_int32 (Float32.mul weight (Float32.of_int 100)).

(** The sum of the weights of a list of destinations, as an integer. *)
Definition weight_sum (ds : list HTTPRouteDestination) : Z :=
  foldr Z.add 0 (map Weight ds).

(** The share the specification prescribes for a destination:
    round_down(weight / total * 100), in exact arithmetic. *)
Definition spec_percentage (w weightTotal : Z) : Z := (w * 100) / weightTotal.

(** [normalizeWeightedCluster(cache, route)]: the cache and the route as
    the call leaves them; [None] when the call panics (indexing an empty
    destination list).  A nil [cache] is [None]. *)
Definition normalizeWeightedCluster {AR : Arch}
    (cache : option IngressRouteCache) (route : WrapperHTTPRoute)
    : option (option IngressRouteCache * WrapperHTTPRoute) :=
  let dests := destinations route in
  if bool_decide (length dests = 1%nat) then
    d0 ← dests !! 0%nat;
    Some (cache, with_destinations route (<[0%nat := set_Weight d0 100]> dests))
  else
    let weightTotal :=
      for_slice dests
        (fun idx routeDestination weightTotal =>
           if bool_decide (idx = 0%nat) then weightTotal
           else Int32.add weightTotal (Weight routeDestination))
        0 in
    let weightTotal :=
      if weightTotal <? WeightTotal route then WeightTotal route else weightTotal in
    let '(sum, dests) :=
      for_slice dests
        (fun idx routeDestination '(sum, dests) =>
           if bool_decide (idx = 0%nat) then (sum, dests)
           else
             let w := percentage (Weight routeDestination) weightTotal in
             (Int32.add sum w, <[idx := set_Weight routeDestination w]> dests))
        (0, dests) in
    d0 ← dests !! 0%nat;
    let route :=
      with_destinations route (<[0%nat := set_Weight d0 (Int32.sub 100 sum)]> dests) in
    Some (match cache with
          | Some c => Some (IngressRouteCache_Update c route)
          | None => None
          end, route).

(** The companion route built for [route] by the fallback splice. *)
Definition internalRedirectRoute {HL : Helpers}
    (route : HTTPRoute) (fallbackConfig : FallbackConfig) : HTTPRoute :=
  let typedNamespace := DefaultBackend fallbackConfig in
  let name := Name route +:+ FallbackRouteNameSuffix in
  {| Name := name;
     Match :=
       [ {| Uri := Some (StringMatch_Exact "/");
            Headers :=
              <[FallbackInjectHeaderRouteName := StringMatch_Exact name]>
                (<[FallbackInjectFallbackService :=
                     StringMatch_Exact (NamespacedName_String typedNamespace)]> ∅) |} ];
     Route :=
       [ {| Destination_ :=
              Some {| Host := CreateServiceFQDN (NamespacedName_Namespace typedNamespace)
                                                (NamespacedName_Name typedNamespace);
                      Port := Some {| Number := Fallback_Port fallbackConfig |} |};
            Weight := 100 |} ];
     Redirect := Redirect route;
     InternalActiveRedirect := None;
     RouteHTTPFilters := RouteHTTPFilters route |}.

(** The body of [applyInternalActiveRedirect] for one host: the value of
    [tempRoutes] after the inner loop. *)
Definition spliceFallbackRoutes {HL : Helpers} (routes : list WrapperHTTPRoute)
    : list WrapperHTTPRoute :=
  foldl
    (fun tempRoutes route =>
       let tempRoutes := tempRoutes ++ [route] in
       match InternalActiveRedirect (WHR_HTTPRoute route) with
       | Some _ =>
           match Fallback (AnnotationsConfig (WHR_WrapperConfig route)) with
           | None => tempRoutes
           | Some fallbackConfig =>
               [ {| WHR_HTTPRoute := internalRedirectRoute (WHR_HTTPRoute route) fallbackConfig;
                    WHR_WrapperConfig := WHR_WrapperConfig route;
                    WHR_ClusterId := WHR_ClusterId route;
                    WeightTotal := 0 |} ] ++ tempRoutes
           end
       | None => tempRoutes
       end)
    [] routes.

(** The companion route of [route], when the route carries the marker and
    its object declares a fallback target. *)
Definition fallbackCompanion {HL : Helpers} (route : WrapperHTTPRoute)
    : option WrapperHTTPRoute :=
  match InternalActiveRedirect (WHR_HTTPRoute route),
        Fallback (AnnotationsConfig (WHR_WrapperConfig route)) with
  | Some _, Some fallbackConfig =>
      Some {| WHR_HTTPRoute := internalRedirectRoute (WHR_HTTPRoute route) fallbackConfig;
              WHR_WrapperConfig := WHR_WrapperConfig route;
              WHR_ClusterId := WHR_ClusterId route;
              WeightTotal := 0 |}
  | _, _ => None
  end.

Definition applyInternalActiveRedirect {HL : Helpers} {MR : MapRange}
    (convertOptions : ConvertOptions) : ConvertOptions :=
  set_HTTPRoutes convertOptions
    (update_each (HTTPRoutes convertOptions) (fun host routes => spliceFallbackRoutes routes)).

Definition applyAppRoot {HL : Helpers} {MR : MapRange}
    (convertOptions : ConvertOptions) : ConvertOptions :=
  set_HTTPRoutes convertOptions
  (for_range (VirtualServices convertOptions)
    (fun host wrapVS httpRoutes =>
       if bool_decide (AppRoot wrapVS <> "") then
         let route :=
           {| WHR_HTTPRoute :=
                {| Name := CreateConvertedName [host; "app-root"];
                   Match := [ {| Uri := Some (StringMatch_Exact "/"); Headers := ∅ |} ];
                   Route := [];
                   Redirect := Some {| RedirectCode := 302; Redirect_Uri := AppRoot wrapVS |};
                   InternalActiveRedirect := None;
                   RouteHTTPFilters := [] |};
              WHR_WrapperConfig := WVS_WrapperConfig wrapVS;
              WHR_ClusterId :=
                ClusterId (Ingress_Meta (AnnotationsConfig (WVS_WrapperConfig wrapVS)));
              WeightTotal := 0 |} in
         <[host := [route] ++ default [] (httpRoutes !! host)]> httpRoutes
       else httpRoutes)
    (HTTPRoutes convertOptions)).

(** *** Filter derivation *)

Definition constructBasicAuthEnvoyFilter {HL : Helpers} {EN : Encoders}
    (rules : BasicAuthRules) (namespace : string) : result Config :=
  match json_Marshal rules with
  | Err err => Err err
  | Ok rulesStr =>
      let configuration := rulesStr in
      let wasm :=
        {| Wasm_Config :=
             {| PluginConfig_Name := "basic-auth";
                FailOpen := true;
                Vm := {| Runtime := "envoy.wasm.runtime.null";
                         Code_InlineString := "envoy.wasm.basic_auth" |};
                Configuration := MessageToAny configuration |} |} in
      match anypb_New wasm with
      | Err err => Err err
      | Ok wasmAny =>
          let typedConfig := {| HttpFilter_Name := "basic-auth"; TypedConfig := wasmAny |} in
          match MessageToGoGoStruct typedConfig with
          | Err err => Err err
          | Ok gogoTypedConfig =>
              Ok {| Config_Meta :=
                      {| Meta_GroupVersionKind := gvk.EnvoyFilter;
                         Meta_Name := CreateConvertedName [IstioIngressGatewayName; "basic-auth"];
                         Meta_Namespace := namespace;
                         Meta_Annotations := ∅;
                         CreationTimestamp := 0 |};
                    Config_Spec :=
                      Spec_EnvoyFilter
                        {| ConfigPatches :=
                             [ {| ApplyTo_ := HTTP_FILTER;
                                  Match_ :=
                                    {| Context_ := GATEWAY;
                                       Listener_Filter_Name :=
                                         "envoy.filters.network.http_connection_manager";
                                       Listener_SubFilter_Name := "envoy.filters.http.cors" |};
                                  Patch_Operation := INSERT_AFTER;
                                  Patch_Value := gogoTypedConfig |} ] |} |}
          end
      end
  end.

Definition add_MatchRoute (rule : Rule) (name : string) : Rule :=
  {| Realm := Realm rule; MatchRoute := MatchRoute rule ++ [name];
     Rule_Credentials := Rule_Credentials rule; Encrypted := Encrypted rule |}.

(** The rule table built by the first loop of [convertEnvoyFilter]. *)
Definition basicAuthMappings {HL : Helpers} {MR : MapRange}
    (convertOptions : ConvertOptions) : gmap string Rule :=
  for_range (HTTPRoutes convertOptions)
    (fun _ routes mappings =>
       foldl
         (fun mappings route =>
            if strings_HasSuffix (Name (WHR_HTTPRoute route)) "app-root" then mappings
            else
              match Auth (AnnotationsConfig (WHR_WrapperConfig route)) with
              | None => mappings
              | Some auth =>
                  let key :=
                    ClusterNamespacedName_String (AuthSecret auth) +:+ "/" +:+ AuthRealm auth in
                  match mappings !! key with
                  | None =>
                      <[key := {| Realm := AuthRealm auth;
                                  MatchRoute := [Name (WHR_HTTPRoute route)];
                                  Rule_Credentials := Credentials auth;
                                  Encrypted := true |}]> mappings
                  | Some rule =>
                      <[key := add_MatchRoute rule (Name (WHR_HTTPRoute route))]> mappings
                  end
              end)
         mappings routes)
    ∅.

(** The rule set handed to the filter construction. *)
Definition basicAuthRules {HL : Helpers} {MR : MapRange}
    (convertOptions : ConvertOptions) : BasicAuthRules :=
  {| Rules :=
       for_range (basicAuthMappings convertOptions) (fun _ rule rules => rules ++ [rule]) [] |}.

(** The value assigned to the filter cache by [convertEnvoyFilter]. *)
Definition derivedEnvoyFilters {HL : Helpers} {EN : Encoders} {MR : MapRange}
    (convertOptions : ConvertOptions) (namespace : string) : list Config :=
  let mappings := basicAuthMappings convertOptions in
  if (0 <? size mappings)%nat then
    let rules := basicAuthRules convertOptions in
    match constructBasicAuthEnvoyFilter rules namespace with
    | Err _ => []
    | Ok basicAuth => [] ++ [basicAuth]
    end
  else [].

Section Conversion.
Context {C Handler : Type}.
Context {IC : IngressController C Handler} {HL : Helpers} {AH : AnnotationHandler}.
Context {EN : Encoders} {MR : MapRange} {AR : Arch}.

Definition convertEnvoyFilter (m : IngressConfig C Handler)
    (convertOptions : ConvertOptions) : IngressConfig C Handler :=
  set_cachedEnvoyFilters m (derivedEnvoyFilters convertOptions (namespace m)).

(** The loop shared by the conversion passes: every object is handed to
    the adapter of its cluster, and objects of unknown clusters are
    skipped; an adapter's error is logged and the pass goes on. *)
Definition each_config (m : IngressConfig C Handler)
    (convert : C -> ConvertOptions -> WrapperConfig -> ConvertOptions * option error)
    (configs : list WrapperConfig) (convertOptions : ConvertOptions) : ConvertOptions :=
  foldl
    (fun convertOptions cfg =>
       let clusterId := GetClusterId (Meta_Annotations (Config_Meta (Config_ cfg))) in
       match remoteIngressControllers m !! clusterId with
       | None => convertOptions
       | Some ingressController => (convert ingressController convertOptions cfg).1
       end)
    convertOptions configs.

Definition createWrapperConfigs (m : IngressConfig C Handler) (configs : list Config)
    : list WrapperConfig * IngressConfig C Handler :=
  let '(clusterSecretListers, clusterServiceListers) :=
    for_range (remoteIngressControllers m)
      (fun clusterId controller '(secrets, services) =>
         (<[clusterId := ctl_SecretLister (Handler := Handler) controller]> secrets,
          <[clusterId := ctl_ServiceLister (Handler := Handler) controller]> services))
      (∅, ∅) in
  let globalContext :=
    {| WatchedSecrets := ∅;
       ClusterSecretLister := clusterSecretListers;
       ClusterServiceList := clusterServiceListers |} in
  let '(wrapperConfigs, globalContext) :=
    foldl
      (fun '(wrapperConfigs, globalContext) rawConfig =>
         let annotationsConfig :=
           {| Ingress_Meta :=
                {| Namespace := Meta_Namespace (Config_Meta rawConfig);
                   Ingress_Name := Meta_Name (Config_Meta rawConfig);
                   RawClusterId := GetRawClusterId (Meta_Annotations (Config_Meta rawConfig));
                   ClusterId := GetClusterId (Meta_Annotations (Config_Meta rawConfig)) |};
              Auth := None; Fallback := None; localRateLimit := None;
              DownstreamTLS := None |} in
         let '(annotationsConfig, globalContext, _) :=
           Parse (Meta_Annotations (Config_Meta rawConfig)) annotationsConfig globalContext in
         (wrapperConfigs ++
            [ {| Config_ := rawConfig; AnnotationsConfig := annotationsConfig |} ],
          globalContext))
      ([], globalContext) configs in
  (wrapperConfigs, set_watchedSecretSet m (WatchedSecrets globalContext)).

(** The gateway object emitted for one entry of the gateway table. *)
Definition gatewayConfig (m : IngressConfig C Handler) (gateway : WrapperGateway) : Config :=
  let cleanHost := CleanHost (WG_Host gateway) in
  {| Config_Meta :=
       {| Meta_GroupVersionKind := gvk.Gateway;
          Meta_Name := CreateConvertedName [IstioIngressGatewayName; cleanHost];
          Meta_Namespace := namespace m;
          Meta_Annotations :=
            <[ClusterIdAnnotation := WG_ClusterId gateway]>
              (<[HostAnnotation := WG_Host gateway]> ∅);
          CreationTimestamp := 0 |};
     Config_Spec := Spec_Gateway (WG_Gateway gateway) |}.

Definition convertGateways (m : IngressConfig C Handler) (configs : list WrapperConfig)
    : list Config * IngressConfig C Handler :=
  let convertOptions :=
    set_Gateways zero_ConvertOptions ∅ in
  let convertOptions :=
    each_config m (ctl_ConvertGateway (Handler := Handler)) configs convertOptions in
  (* apply annotation *)
  let convertOptions :=
    set_Gateways convertOptions
      (update_each (CO_Gateways convertOptions)
         (fun _ wrapperGateway =>
            {| WG_Gateway :=
                 ApplyGateway (WG_Gateway wrapperGateway)
                   (AnnotationsConfig (WG_WrapperConfig wrapperGateway));
               WG_WrapperConfig := WG_WrapperConfig wrapperGateway;
               WG_ClusterId := WG_ClusterId wrapperGateway;
               WG_Host := WG_Host wrapperGateway |})) in
  let m :=
    set_ingressDomainCache m (IngressDomainCache_Extract (IngressDomainCache_ convertOptions)) in
  let out :=
    for_range (CO_Gateways convertOptions)
      (fun _ gateway out => out ++ [gatewayConfig m gateway])
      [] in
  (out, m).

Definition applyCanaryIngresses (m : IngressConfig C Handler)
    (convertOptions : ConvertOptions) : ConvertOptions :=
  if bool_decide (length (CanaryIngresses convertOptions) = 0%nat) then convertOptions
  else
    (* the list being walked is the one the accumulator held on entry *)
    each_config m
      (fun ingressController convertOptions cfg =>
         ctl_ApplyCanaryIngress (Handler := Handler) ingressController convertOptions cfg)
      (CanaryIngresses convertOptions) convertOptions.

(** The normalization pass over one host's routes. *)
Definition normalizeRoutes (cache : IngressRouteCache) (routes : list WrapperHTTPRoute)
    : option (IngressRouteCache * list WrapperHTTPRoute) :=
  foldl
    (fun acc route =>
       '(cache, done) ← acc;
       '(cache', route') ← normalizeWeightedCluster (Some cache) route;
       Some (default cache cache', done ++ [route']))
    (Some (cache, [])) routes.

(** The virtual service emitted for one host; [None] when the host has no
    entry in the virtual-service table (the nil entry is dereferenced). *)
Definition virtualServiceConfig (m : IngressConfig C Handler)
    (convertOptions : ConvertOptions) (host : string) (routes : list WrapperHTTPRoute)
    (firstRoute : WrapperHTTPRoute) : option Config :=
  let cleanHost := CleanHost host in
  let gateways :=
    [ namespace m +:+ "/" +:+ CreateConvertedName [clusterId m; cleanHost];
      CreateConvertedName [IstioIngressGatewayName; cleanHost] ] in
  let gateways :=
    if bool_decide (host <> "*") then gateways ++ [globalGatewayName m] else gateways in
  wrapperVS ← VirtualServices convertOptions !! host;
  let vs := WVS_VirtualService wrapperVS in
  let vs :=
    {| Hosts := Hosts vs; Gateways := gateways;
       Http := Http vs ++ map WHR_HTTPRoute routes;
       HostHTTPFilters := HostHTTPFilters vs |} in
  Some {| Config_Meta :=
            {| Meta_GroupVersionKind := gvk.VirtualService;
               Meta_Name :=
                 CreateConvertedName
                   [ IstioIngressGatewayName;
                     Meta_Namespace (Config_Meta (Config_ (WHR_WrapperConfig firstRoute)));
                     Meta_Name (Config_Meta (Config_ (WHR_WrapperConfig firstRoute)));
                     cleanHost ];
               Meta_Namespace := namespace m;
               Meta_Annotations := {[ ClusterIdAnnotation := WHR_ClusterId firstRoute ]};
               CreationTimestamp := 0 |};
          Config_Spec := Spec_VirtualService vs |}.

(** The last loop of [convertVirtualService]: one virtual service per host
    with a non-empty route list. *)
Definition virtualServices (m : IngressConfig C Handler) (convertOptions : ConvertOptions)
    : option (list Config) :=
  for_range (HTTPRoutes convertOptions)
    (fun host routes acc =>
       out ← acc;
       match routes with
       | [] => Some out
       | firstRoute :: _ =>
           vs ← virtualServiceConfig m convertOptions host routes firstRoute;
           Some (out ++ [vs])
       end)
    (Some []).

(** [convertVirtualService]; [None] when the pass panics. *)
Definition convertVirtualService (m : IngressConfig C Handler) (configs : list WrapperConfig)
    : option (list Config * IngressConfig C Handler) :=
  let convertOptions := zero_ConvertOptions in
  (* convert http route *)
  let convertOptions :=
    each_config m (ctl_ConvertHTTPRoute (Handler := Handler)) configs convertOptions in
  (* Apply annotation on routes *)
  let convertOptions :=
    set_HTTPRoutes convertOptions
      (update_each (HTTPRoutes convertOptions)
         (fun _ routes =>
            map (fun route =>
                   set_HTTPRoute route
                     (ApplyRoute (WHR_HTTPRoute route)
                        (AnnotationsConfig (WHR_WrapperConfig route))))
                routes)) in
  (* Apply canary ingress *)
  let convertOptions :=
    if (length (CanaryIngresses convertOptions) <? length configs)%nat
    then applyCanaryIngresses m convertOptions
    else convertOptions in
  (* Normalize weighted cluster to make sure the sum of weight is 100. *)
  '(cache, httpRoutes) ←
    for_range (HTTPRoutes convertOptions)
      (fun host routes acc =>
         '(cache, httpRoutes) ← acc;
         '(cache, routes') ← normalizeRoutes cache routes;
         Some (cache, <[host := routes']> httpRoutes))
      (Some (IngressRouteCache_ convertOptions, HTTPRoutes convertOptions));
  let convertOptions :=
    set_HTTPRoutes (set_IngressRouteCache convertOptions cache) httpRoutes in
  (* Apply spec default backend. *)
  let convertOptions :=
    if HasDefaultBackend convertOptions
    then each_config m (ctl_ApplyDefaultBackend (Handler := Handler)) configs convertOptions
    else convertOptions in
  (* Apply annotation on virtual services *)
  let convertOptions :=
    set_VirtualServices convertOptions
      (update_each (VirtualServices convertOptions)
         (fun _ virtualService =>
            {| WVS_VirtualService :=
                 ApplyVirtualServiceHandler (WVS_VirtualService virtualService)
                   (AnnotationsConfig (WVS_WrapperConfig virtualService));
               WVS_WrapperConfig := WVS_WrapperConfig virtualService;
               AppRoot := AppRoot virtualService |})) in
  (* Apply app root for per host. *)
  let convertOptions := applyAppRoot convertOptions in
  (* Apply internal active redirect for error page. *)
  let convertOptions := applyInternalActiveRedirect convertOptions in
  let m := set_ingressRouteCache m (IngressRouteCache_ convertOptions) in
  (* Convert http route to virtual service *)
  out ← virtualServices m convertOptions;
  (* We generate some specific envoy filter here to avoid duplicated computation. *)
  let m := convertEnvoyFilter m convertOptions in
  Some (out, m).

Definition add_PortLevelSettings (dr : WrapperDestinationRule) (p : PortTrafficPolicy)
    : WrapperDestinationRule :=
  {| WDR_DestinationRule :=
       {| DestinationRule_Host := DestinationRule_Host (WDR_DestinationRule dr);
          TrafficPolicy_ :=
            {| PortLevelSettings :=
                 PortLevelSettings (TrafficPolicy_ (WDR_DestinationRule dr)) ++ [p] |} |};
     WDR_WrapperConfig := WDR_WrapperConfig dr;
     WDR_ServiceKey := WDR_ServiceKey dr |}.

Definition convertDestinationRule (m : IngressConfig C Handler) (configs : list WrapperConfig)
    : list Config :=
  let convertOptions := zero_ConvertOptions in
  (* Convert destination from service within ingress rule. *)
  let convertOptions :=
    each_config m (ctl_ConvertTrafficPolicy (Handler := Handler)) configs convertOptions in
  let convertOptions :=
    set_Service2TrafficPolicy convertOptions
      (update_each (Service2TrafficPolicy convertOptions)
         (fun _ wrapperTrafficPolicy =>
            {| WTP_TrafficPolicy :=
                 ApplyTrafficPolicy (WTP_TrafficPolicy wrapperTrafficPolicy)
                   (AnnotationsConfig (WTP_WrapperConfig wrapperTrafficPolicy));
               WTP_WrapperConfig := WTP_WrapperConfig wrapperTrafficPolicy |})) in
  (* Merge multi-port traffic policy per service into one destination rule. *)
  let destinationRules : gmap string WrapperDestinationRule :=
    for_range (Service2TrafficPolicy convertOptions)
      (fun key wrapperTrafficPolicy destinationRules =>
         let serviceName :=
           CreateServiceFQDN (ServiceKey_Namespace key) (ServiceKey_Name key) in
         let dr :=
           match destinationRules !! serviceName with
           | None =>
               {| WDR_DestinationRule :=
                    {| DestinationRule_Host := serviceName;
                       TrafficPolicy_ :=
                         {| PortLevelSettings :=
                              [WTP_TrafficPolicy wrapperTrafficPolicy] |} |};
                  WDR_WrapperConfig := WTP_WrapperConfig wrapperTrafficPolicy;
                  WDR_ServiceKey := key |}
           | Some dr => add_PortLevelSettings dr (WTP_TrafficPolicy wrapperTrafficPolicy)
           end in
         <[serviceName := dr]> destinationRules)
      ∅ in
  for_range destinationRules
    (fun _ dr out =>
       let drName :=
         CreateDestinationRuleName (clusterId m)
           (ServiceKey_Namespace (WDR_ServiceKey dr)) (ServiceKey_Name (WDR_ServiceKey dr)) in
       out ++
         [ {| Config_Meta :=
                {| Meta_GroupVersionKind := gvk.DestinationRule;
                   Meta_Name := CreateConvertedName [IstioIngressGatewayName; drName];
                   Meta_Namespace := namespace m;
                   Meta_Annotations := ∅;
                   CreationTimestamp := 0 |};
              Config_Spec := Spec_DestinationRule (WDR_DestinationRule dr) |} ])
    [].

(** [List(typ, namespace)]: the returned slice and error, and the store
    as the call leaves it; [None] when the call panics. *)
Definition List (m : IngressConfig C Handler) (typ : GroupVersionKind) (namespace : string)
    : option (list Config * option error * IngressConfig C Handler) :=
  if bool_decide (typ <> gvk.Gateway) && bool_decide (typ <> gvk.VirtualService)
     && bool_decide (typ <> gvk.DestinationRule) && bool_decide (typ <> gvk.EnvoyFilter)
  then Some ([], Some ErrUnsupportedOp, m)
  else if bool_decide (namespace <> "") then Some ([], Some ErrUnsupportedOp, m)
  else if bool_decide (typ = gvk.EnvoyFilter) then Some (cachedEnvoyFilters m, None, m)
  else
    let configs :=
      for_range (remoteIngressControllers m)
        (fun _ ingressController configs =>
           configs ++ ctl_List (Handler := Handler) ingressController)
        [] in
    let configs := SortIngressByCreationTime configs in
    let '(wrapperConfigs, m) := createWrapperConfigs m configs in
    if bool_decide (typ = gvk.Gateway) then
      let '(out, m) := convertGateways m wrapperConfigs in Some (out, None, m)
    else if bool_decide (typ = gvk.VirtualService) then
      '(out, m) ← convertVirtualService m wrapperConfigs; Some (out, None, m)
    else if bool_decide (typ = gvk.DestinationRule) then
      Some (convertDestinationRule m wrapperConfigs, None, m)
    else Some ([], None, m).
End Conversion.

(** ** Reference implementations of the interfaces

    Stand-ins for the collaborators that live outside the files at hand,
    used to run the engine on concrete inputs. *)

Module Reference.

Definition MSEAnnotationsPrefix : string := "mse.ingress.kubernetes.io".
Definition DefaultAnnotationsPrefix : string := "nginx.ingress.kubernetes.io".

(** Modelled from the spec: the lookup helpers of [Annotations] are not
    among the sources at hand.  A value is read under the key
    [prefix + "/" + key], the layout the package's tests use; a missing key
    and a "malformed annotation value" are both errors. *)
Definition mse_key (key : string) : string := MSEAnnotationsPrefix +:+ "/" +:+ key.
Definition default_key (key : string) : string := DefaultAnnotationsPrefix +:+ "/" +:+ key.

Definition is_digit (c : Ascii.ascii) : bool :=
  let n := N_of_ascii c in ((48 <=? n) && (n <=? 57))%N.

Fixpoint parse_digits (acc : N) (s : string) : option N :=
  match s with
  | EmptyString => Some acc
  | String c s' =>
      if is_digit c then parse_digits (acc * 10 + (N_of_ascii c - 48))%N s' else None
  end.

(** [strconv.ParseUint(s, 10, 32)] *)
Definition parse_uint32 (s : string) : option Z :=
  match s with
  | EmptyString => None
  | _ =>
      n ← parse_digits 0%N s;
      if (n <=? 4294967295)%N then Some (Z.of_N n) else None
  end.

Definition lookup_uint32 (a : Annotations) (k : string) : result Z :=
  match a !! mse_key k with
  | Some v =>
      match parse_uint32 v with
      | Some n => Ok n
      | None => Err (ErrOther "invalid annotation content")
      end
  | None => Err (ErrOther "missing annotations")
  end.

Definition lookup_string (a : Annotations) (k : string) : result string :=
  match a !! k with
  | Some v => Ok v
  | None => Err (ErrOther "missing annotations")
  end.

Definition annotation_lookup : AnnotationLookup.
Proof.
  refine
    {| HasMSE := fun a k => bool_decide (is_Some (a !! mse_key k));
       HasASAP := fun a k =>
         bool_decide (is_Some (a !! default_key k))
         || bool_decide (is_Some (a !! mse_key k));
       ParseUint32ForMSE := lookup_uint32;
       ParseStringForMSE := fun a k => lookup_string a (mse_key k);
       ParseStringASAP := fun a k =>
         match lookup_string a (default_key k) with
         | Ok v => Ok v
         | Err _ => lookup_string a (mse_key k)
         end |}.
  intros a k v. unfold lookup_uint32, parse_uint32.
  destruct (a !! mse_key k) as [s|]; [|discriminate].
  destruct s as [|c s]; [discriminate|].
  destruct (parse_digits 0%N (String c s)) as [n|]; simpl; [|discriminate].
  destruct (n <=? 4294967295)%N eqn:Hn; [|discriminate].
  intros [= <-]. apply N.leb_le in Hn. unfold Uint32.max_uint. lia.
Defined.

Definition deps : ParserDeps :=
  {| SplitNamespacedName := fun name =>
       match strings_Split name "/"%char with
       | [ns; n] => {| NamespacedName_Namespace := ns; NamespacedName_Name := n |}
       | n :: _ => {| NamespacedName_Namespace := ""; NamespacedName_Name := n |}
       | [] => zero_NamespacedName
       end;
     IsValidCipherSuite := fun c =>
       bool_decide (c ∈ ["ECDHE-RSA-AES128-GCM-SHA256"; "ECDHE-RSA-AES256-GCM-SHA384";
                         "AES128-GCM-SHA256"; "AES256-GCM-SHA384"]);
     mseingress_LocalRateLimit := "local-rate-limit" |}.

Fixpoint join (sep : string) (items : list string) : string :=
  match items with
  | [] => ""
  | [x] => x
  | x :: rest => x +:+ sep +:+ join sep rest
  end.

Definition helpers : Helpers.
Proof.
  refine
    {| GetClusterId := fun a => default "" (a !! "higress.io/cluster-id");
       GetRawClusterId := fun a => default "" (a !! "higress.io/raw-cluster-id");
       CreateConvertedName := join "-";
       CleanHost := fun h => h;
       SortIngressByCreationTime := fun l => l;
       ClusterIdAnnotation := "higress.io/cluster-id";
       HostAnnotation := "higress.io/host";
       IstioIngressGatewayName := "istio-ingressgateway";
       CreateServiceFQDN := fun ns n => n +:+ "." +:+ ns +:+ ".svc.cluster.local";
       CreateDestinationRuleName := fun c ns n => join "-" [c; ns; n];
       ClusterNamespacedName_String := fun c =>
         CNN_ClusterId c +:+ "/" +:+ NamespacedName_String (CNN_NamespacedName c);
       FallbackRouteNameSuffix := "-fallback";
       FallbackInjectHeaderRouteName := "x-envoy-route-name";
       FallbackInjectFallbackService := "x-envoy-fallback-service" |};
    discriminate.
Defined.

(** A registry holding the two parsers of this development. *)
Definition handler : AnnotationHandler :=
  {| Parse := fun a config g =>
       let '(config, _) := localRateLimit_Parse (AL := annotation_lookup) a config g in
       let '(config, _) := downstreamTLS_Parse (AL := annotation_lookup) (PD := deps) a config g in
       (config, g, None);
     ApplyGateway := fun g _ => g;
     ApplyRoute := fun r config => localRateLimit_ApplyRoute (PD := deps) r config;
     ApplyVirtualServiceHandler := fun vs _ => vs;
     ApplyTrafficPolicy := fun p _ => p |}.

(** An adapter that serves a fixed list of objects.  The payload of an
    object is the host it claims; the adapter contributes one gateway per
    host, and records the event handlers it is given. *)
Record Adapter := {
  objects : list Config;
  synced : bool;
  handlers : list (GroupVersionKind * nat)
}.

Definition host_of (cfg : WrapperConfig) : string :=
  match Config_Spec (Config_ cfg) with
  | Spec_Ingress payload => payload
  | _ => ""
  end.

Definition adapter_ConvertGateway (c : Adapter) (o : ConvertOptions) (cfg : WrapperConfig)
    : ConvertOptions * option error :=
  let host := host_of cfg in
  match CO_Gateways o !! host with
  | Some _ => (o, None)
  | None =>
      (set_Gateways o
         (<[host := {| WG_Gateway :=
                         {| Servers := [ {| Server_Hosts := [host];
                                            CredentialName := "" |} ] |};
                       WG_WrapperConfig := cfg;
                       WG_ClusterId := ClusterId (Ingress_Meta (AnnotationsConfig cfg));
                       WG_Host := host |}]> (CO_Gateways o)),
       None)
  end.

Definition adapter : IngressController Adapter nat :=
  {| ctl_RegisterEventHandler := fun kind f c =>
       {| objects := objects c; synced := synced c;
          handlers := handlers c ++ [(kind, f)] |};
     ctl_List := objects;
     ctl_SecretLister := fun _ => {| SecretLister_Cluster := "" |};
     ctl_ServiceLister := fun _ => {| ServiceLister_Cluster := "" |};
     ctl_ConvertGateway := adapter_ConvertGateway;
     ctl_ConvertHTTPRoute := fun _ o _ => (o, None);
     ctl_ApplyDefaultBackend := fun _ o _ => (o, None);
     ctl_ApplyCanaryIngress := fun _ o _ => (o, None);
     ctl_ConvertTrafficPolicy := fun _ o _ => (o, None);
     ctl_HasSynced := synced |}.

(** Encoders that render the rule set as text, and encoders whose JSON
    step fails. *)
Definition render_rule (r : Rule) : string :=
  "{realm:" +:+ Realm r +:+ ",routes:[" +:+ join "," (MatchRoute r) +:+ "],credentials:["
  +:+ join "," (Rule_Credentials r) +:+ "]}".

Definition encoders : Encoders :=
  {| json_Marshal := fun rules => Ok ("[" +:+ join "," (map render_rule (Rules rules)) +:+ "]");
     MessageToAny := fun s =>
       {| TypeUrl := "type.googleapis.com/google.protobuf.StringValue"; Any_Value := s |};
     anypb_New := fun w =>
       Ok {| TypeUrl := "type.googleapis.com/envoy.extensions.filters.http.wasm.v3.Wasm";
             Any_Value := Any_Value (Configuration (Wasm_Config w)) |};
     MessageToGoGoStruct := fun f => Ok {| Struct_Json := Any_Value (TypedConfig f) |} |}.

Definition failing_encoders : Encoders :=
  {| json_Marshal := fun _ => Err (ErrOther "json: unsupported value");
     MessageToAny := MessageToAny (Encoders := encoders);
     anypb_New := anypb_New (Encoders := encoders);
     MessageToGoGoStruct := MessageToGoGoStruct (Encoders := encoders) |}.

End Reference.

(** ** Concrete inputs *)

Module Sample.
Import Reference.

Definition object (name host : string) : Config :=
  {| Config_Meta :=
       {| Meta_GroupVersionKind := gvk.Ingress; Meta_Name := name;
          Meta_Namespace := "default"; Meta_Annotations := ∅; CreationTimestamp := 0 |};
     Config_Spec := Spec_Ingress host |}.

Definition annotated (auth : option AuthConfig) (fallback : option FallbackConfig) : Ingress :=
  {| Ingress_Meta :=
       {| Namespace := "default"; Ingress_Name := "web"; RawClusterId := ""; ClusterId := "" |};
     Auth := auth; Fallback := fallback; localRateLimit := None; DownstreamTLS := None |}.

Definition plain : Ingress := annotated None None.

Definition wrapped (config : Ingress) : WrapperConfig :=
  {| Config_ := object "web" "a.example.com"; AnnotationsConfig := config |}.

Definition destination (w : Z) : HTTPRouteDestination :=
  {| Destination_ := None; Weight := w |}.

(** A route with the given name, marker and declared weights. *)
Definition route (name : string) (marker : option HTTPInternalActiveRedirect)
    (config : Ingress) (weights : list Z) (total : Z) : WrapperHTTPRoute :=
  {| WHR_HTTPRoute :=
       {| Name := name; Match := []; Route := map destination weights; Redirect := None;
          InternalActiveRedirect := marker; RouteHTTPFilters := [] |};
     WHR_WrapperConfig := wrapped config;
     WHR_ClusterId := "";
     WeightTotal := total |}.

Definition marker : HTTPInternalActiveRedirect :=
  {| MaxInternalRedirects := 1; RedirectUrl := "" |}.

Definition fallback : FallbackConfig :=
  {| DefaultBackend :=
       {| NamespacedName_Namespace := "default"; NamespacedName_Name := "errors" |};
     Fallback_Port := 8080 |}.

Definition secret : ClusterNamespacedName :=
  {| CNN_NamespacedName :=
       {| NamespacedName_Namespace := "default"; NamespacedName_Name := "users" |};
     CNN_ClusterId := "c1" |}.

Definition auth : AuthConfig :=
  {| AuthRealm := "realm"; AuthSecret := secret; Credentials := ["alice:secret"] |}.

Definition one_cluster : Adapter :=
  {| objects := [object "one" "a.example.com"; object "two" "b.example.com"];
     synced := true; handlers := [] |}.

(** A fresh store, and one with a single registered cluster. *)
Definition empty_store : IngressConfig Adapter nat :=
  NewIngressConfig (HL := helpers) [] "higress-system" "Kubernetes".

Definition store : IngressConfig Adapter nat :=
  set_remoteIngressControllers empty_store {[ "" := one_cluster ]}.

Definition stale_filter : Config :=
  {| Config_Meta :=
       {| Meta_GroupVersionKind := gvk.EnvoyFilter; Meta_Name := "istio-ingressgateway-basic-auth";
          Meta_Namespace := "higress-system"; Meta_Annotations := ∅; CreationTimestamp := 0 |};
     Config_Spec := Spec_EnvoyFilter {| ConfigPatches := [] |} |}.

Definition no_context : GlobalContext :=
  {| WatchedSecrets := ∅; ClusterSecretLister := ∅; ClusterServiceList := ∅ |}.

(** The store once a pass has recorded [secret] as watched. *)
Definition watching : IngressConfig Adapter nat :=
  set_watchedSecretSet store {[ "c1/default/users" ]}.

(** The store holding a filter patch from an earlier pass. *)
Definition with_stale_filter : IngressConfig Adapter nat :=
  set_cachedEnvoyFilters store [stale_filter].

(** A pass result with one authenticated route. *)
Definition authenticated : ConvertOptions :=
  set_HTTPRoutes zero_ConvertOptions
    {[ "a.example.com" := [route "r" None (annotated (Some auth) None) [100] 100] ]}.

(** A pass result with one authenticated route on each of two hosts. *)
Definition authenticated_twice : ConvertOptions :=
  set_HTTPRoutes zero_ConvertOptions
    {[ "a.example.com" := [route "ra" None (annotated (Some auth) None) [100] 100];
       "b.example.com" := [route "rb" None (annotated (Some auth) None) [100] 100] ]}.

(** A plain route followed by a triggering one. *)
Definition plain_route : WrapperHTTPRoute := route "r0" None plain [100] 100.
Definition triggering_route : WrapperHTTPRoute :=
  route "r1" (Some marker) (annotated None (Some fallback)) [100] 100.

(** A base destination and a canary destination declared at 53 of 100. *)
Definition canary_53 : WrapperHTTPRoute := route "r" None plain [0; 53] 100.

Definition rpm_unreadable : Annotations :=
  {[ mse_key limitRPM := "abc"; mse_key limitRPS := "10" ]}.
Definition rpm_100 : Annotations := {[ mse_key limitRPM := "100" ]}.
Definition rps_huge : Annotations := {[ mse_key limitRPS := "4294967295" ]}.
Definition tls_versions : Annotations :=
  {[ mse_key tlsMinVersion := "TLSv1.4"; mse_key tlsMaxVersion := "TLSv1.3" ]}.
End Sample.

(** ** Further definitions, used by the properties of Part III *)

(** What no query or notification changes: the registered adapters and
    handlers, the downstream consumer's log and the store's identity. *)
Definition registration_unchanged {C Handler : Type} (m m' : IngressConfig C Handler) : Prop :=
  remoteIngressControllers m' = remoteIngressControllers m
  /\ virtualServiceHandlers m' = virtualServiceHandlers m
  /\ gatewayHandlers m' = gatewayHandlers m
  /\ destinationRuleHandlers m' = destinationRuleHandlers m
  /\ envoyFilterHandlers m' = envoyFilterHandlers m
  /\ XDSUpdater m' = XDSUpdater m
  /\ globalGatewayName m' = globalGatewayName m
  /\ namespace m' = namespace m
  /\ clusterId m' = clusterId m.

(** The decoded configuration an object starts from: its meta data, and
    no feature. *)
Definition initialIngress {HL : Helpers} (rawConfig : Config) : Ingress :=
  {| Ingress_Meta :=
       {| Namespace := Meta_Namespace (Config_Meta rawConfig);
          Ingress_Name := Meta_Name (Config_Meta rawConfig);
          RawClusterId := GetRawClusterId (Meta_Annotations (Config_Meta rawConfig));
          ClusterId := GetClusterId (Meta_Annotations (Config_Meta rawConfig)) |};
     Auth := None; Fallback := None; localRateLimit := None; DownstreamTLS := None |}.

(** The global context a pass starts from: no watched secret, and the
    secret and service listers of every registered adapter under its
    cluster id. *)
Definition initialContext {C Handler : Type} {IC : IngressController C Handler}
    (m : IngressConfig C Handler) : GlobalContext :=
  {| WatchedSecrets := ∅;
     ClusterSecretLister := ctl_SecretLister (Handler := Handler) <$> remoteIngressControllers m;
     ClusterServiceList := ctl_ServiceLister (Handler := Handler) <$> remoteIngressControllers m |}.

(** The objects decoded one after the other, each by one call of the
    registry on its annotations and its initial configuration, the global
    context being handed from each object to the next: the wrapped
    objects, and the context after the last of them. *)
Fixpoint parseEach {HL : Helpers} {AH : AnnotationHandler}
    (globalContext : GlobalContext) (configs : list Config)
    : list WrapperConfig * GlobalContext :=
  match configs with
  | [] => ([], globalContext)
  | rawConfig :: configs =>
      let '(annotationsConfig, globalContext, _) :=
        Parse (Meta_Annotations (Config_Meta rawConfig)) (initialIngress rawConfig)
          globalContext in
      let '(wrapperConfigs, globalContext) := parseEach globalContext configs in
      ({| Config_ := rawConfig; AnnotationsConfig := annotationsConfig |} :: wrapperConfigs,
       globalContext)
  end.

(** The gateway table as the adapters leave it, before annotations are
    applied: the state of [convertOptions.Gateways] after the first loop of
    [convertGateways]. *)
Definition gatewayTable {C Handler : Type} {IC : IngressController C Handler} {HL : Helpers}
    (m : IngressConfig C Handler) (configs : list WrapperConfig)
    : gmap string WrapperGateway :=
  CO_Gateways
    (each_config m (ctl_ConvertGateway (Handler := Handler)) configs
       (set_Gateways zero_ConvertOptions ∅)).

(** What the second loop of [convertGateways] does to one entry. *)
Definition annotatedGateway {AH : AnnotationHandler} (wrapperGateway : WrapperGateway)
    : WrapperGateway :=
  {| WG_Gateway :=
       ApplyGateway (WG_Gateway wrapperGateway)
         (AnnotationsConfig (WG_WrapperConfig wrapperGateway));
     WG_WrapperConfig := WG_WrapperConfig wrapperGateway;
     WG_ClusterId := WG_ClusterId wrapperGateway;
     WG_Host := WG_Host wrapperGateway |}.

(** Whether the cluster of a wrapped object has a registered adapter. *)
Definition has_adapter {C Handler : Type} {HL : Helpers}
    (m : IngressConfig C Handler) (cfg : WrapperConfig) : bool :=
  bool_decide
    (is_Some (remoteIngressControllers m
                !! GetClusterId (Meta_Annotations (Config_Meta (Config_ cfg))))).

(** The redirect route [applyAppRoot] synthesizes for a host. *)
Definition appRootRoute {HL : Helpers} (host : string) (wrapVS : WrapperVirtualService)
    : WrapperHTTPRoute :=
  {| WHR_HTTPRoute :=
       {| Name := CreateConvertedName [host; "app-root"];
          Match := [ {| Uri := Some (StringMatch_Exact "/"); Headers := ∅ |} ];
          Route := [];
          Redirect := Some {| RedirectCode := 302; Redirect_Uri := AppRoot wrapVS |};
          InternalActiveRedirect := None;
          RouteHTTPFilters := [] |};
     WHR_WrapperConfig := WVS_WrapperConfig wrapVS;
     WHR_ClusterId := ClusterId (Ingress_Meta (AnnotationsConfig (WVS_WrapperConfig wrapVS)));
     WeightTotal := 0 |}.

(** The route as [normalizeWeightedCluster] leaves it, the cache aside;
    [None] when the call panics. *)
Definition normalized {AR : Arch} (route : WrapperHTTPRoute) : option WrapperHTTPRoute :=
  snd <$> normalizeWeightedCluster None route.

(** Whether the computed share [p] of weight [w] over [total] is a
    non-negative integer with floor - 1 <= p <= floor, where floor is
    round_down(w / total * 100). *)
Definition near_floor {AR : Arch} (w total : Z) : bool :=
  let p := percentage w total in
  (0 <=? p) && (p * total <=? 100 * w) && (100 * w <? (p + 2) * total).

(** [near_floor] for every total from 1 to [bound] and every weight from
    0 to the total. *)
Definition near_floor_upto {AR : Arch} (bound : Z) : bool :=
  forallb (fun total => forallb (fun w => near_floor w total) (seqZ 0 (total + 1)))
          (seqZ 1 bound).

(** The largest total for which the shares are checked one by one. *)
Definition checked_total : Z := 500.

(** The key under which the routes protected by [auth] are grouped. *)
Definition authKey {HL : Helpers} (auth : AuthConfig) : string :=
  ClusterNamespacedName_String (AuthSecret auth) +:+ "/" +:+ AuthRealm auth.

(** The auth config that makes [convertEnvoyFilter] consider a route:
    none for a route whose name ends in app-root, the object's auth
    config otherwise. *)
Definition protectedBy (route : WrapperHTTPRoute) : option AuthConfig :=
  if strings_HasSuffix (Name (WHR_HTTPRoute route)) "app-root" then None
  else Auth (AnnotationsConfig (WHR_WrapperConfig route)).

(** The routes of a route table, whatever their host. *)
Definition in_table (table : gmap string (list WrapperHTTPRoute)) (route : WrapperHTTPRoute)
    : Prop :=
  exists host routes, table !! host = Some routes /\ route ∈ routes.

(** The invariant of the grouping loop, for the routes seen so far. *)
Definition grouped {HL : Helpers} (seen : list WrapperHTTPRoute) (mappings : gmap string Rule) : Prop :=
  (forall key rule, mappings !! key = Some rule ->
     Encrypted rule = true /\ MatchRoute rule <> []
     /\ (exists route auth,
           route ∈ seen /\ protectedBy route = Some auth /\ authKey auth = key
           /\ Realm rule = AuthRealm auth /\ Rule_Credentials rule = Credentials auth)
     /\ (forall name, name ∈ MatchRoute rule ->
           exists route auth,
             route ∈ seen /\ Name (WHR_HTTPRoute route) = name
             /\ protectedBy route = Some auth /\ authKey auth = key))
  /\ (forall route auth, route ∈ seen -> protectedBy route = Some auth ->
        exists rule, mappings !! authKey auth = Some rule
                     /\ Name (WHR_HTTPRoute route) ∈ MatchRoute rule).


(** The filter object built from an encoded typed config. *)
Definition basicAuthFilter {HL : Helpers} (namespace : string) (value : Struct) : Config :=
  {| Config_Meta :=
       {| Meta_GroupVersionKind := gvk.EnvoyFilter;
          Meta_Name := CreateConvertedName [IstioIngressGatewayName; "basic-auth"];
          Meta_Namespace := namespace;
          Meta_Annotations := ∅;
          CreationTimestamp := 0 |};
     Config_Spec :=
       Spec_EnvoyFilter
         {| ConfigPatches :=
              [ {| ApplyTo_ := HTTP_FILTER;
                   Match_ :=
                     {| Context_ := GATEWAY;
                        Listener_Filter_Name := "envoy.filters.network.http_connection_manager";
                        Listener_SubFilter_Name := "envoy.filters.http.cors" |};
                   Patch_Operation := INSERT_AFTER;
                   Patch_Value := value |} ] |} |}.

(** The gateways a virtual service on [host] is bound to. *)
Definition boundGateways {C Handler : Type} {HL : Helpers}
    (m : IngressConfig C Handler) (host : string) : list string :=
  [ namespace m +:+ "/" +:+ CreateConvertedName [clusterId m; CleanHost host];
    CreateConvertedName [IstioIngressGatewayName; CleanHost host] ]
  ++ (if bool_decide (host <> "*") then [globalGatewayName m] else []).

(** The host a destination rule is made for. *)
Definition serviceFQDN {HL : Helpers} (key : ServiceKey) : string :=
  CreateServiceFQDN (ServiceKey_Namespace key) (ServiceKey_Name key).

(** The traffic-policy table [convertDestinationRule] merges: what the
    clusters' controllers fill in, after the annotation pass. *)
Definition trafficPolicyTable {C Handler : Type} {IC : IngressController C Handler}
    {HL : Helpers} {AH : AnnotationHandler} {MR : MapRange}
    (m : IngressConfig C Handler) (configs : list WrapperConfig)
    : gmap ServiceKey WrapperTrafficPolicy :=
  update_each
    (Service2TrafficPolicy
       (each_config m (ctl_ConvertTrafficPolicy (Handler := Handler)) configs
          zero_ConvertOptions))
    (fun _ wrapperTrafficPolicy =>
       {| WTP_TrafficPolicy :=
            ApplyTrafficPolicy (WTP_TrafficPolicy wrapperTrafficPolicy)
              (AnnotationsConfig (WTP_WrapperConfig wrapperTrafficPolicy));
          WTP_WrapperConfig := WTP_WrapperConfig wrapperTrafficPolicy |}).

(** The port policies the table holds for the services of one host. *)
Definition policiesOf {HL : Helpers} (host : string)
    (entries : list (ServiceKey * WrapperTrafficPolicy)) : list PortTrafficPolicy :=
  WTP_TrafficPolicy <$> (filter (fun kv => serviceFQDN kv.1 = host) entries).*2.

(** The invariant of the merging loop, for the entries visited so far. *)
Definition merged {HL : Helpers} (visited : list (ServiceKey * WrapperTrafficPolicy))
    (destinationRules : gmap string WrapperDestinationRule) : Prop :=
  (forall name dr, destinationRules !! name = Some dr ->
     DestinationRule_Host (WDR_DestinationRule dr) = name
     /\ serviceFQDN (WDR_ServiceKey dr) = name
     /\ (exists wtp, (WDR_ServiceKey dr, wtp) ∈ visited)
     /\ PortLevelSettings (TrafficPolicy_ (WDR_DestinationRule dr)) = policiesOf name visited)
  /\ (forall kv, kv ∈ visited -> is_Some (destinationRules !! serviceFQDN kv.1)).

(** The host of a destination-rule object. *)
Definition ruleHost (c : Config) : option string :=
  match Config_Spec c with
  | Spec_DestinationRule dr => Some (DestinationRule_Host dr)
  | _ => None
  end.

(** [strings.Join(elems, sep)] *)
Fixpoint strings_Join (elems : list string) (sep : string) : string :=
  match elems with
  | [] => ""
  | [x] => x
  | x :: rest => x +:+ sep +:+ strings_Join rest sep
  end.

(** [strings.IndexByte(s, c) >= 0] *)
Fixpoint contains_byte (s : string) (c : Ascii.ascii) : bool :=
  match s with
  | EmptyString => false
  | String c' s' => Ascii.eqb c' c || contains_byte s' c
  end.

(** The fields of a decoded configuration that neither parser writes. *)
Definition same_base (config config' : Ingress) : Prop :=
  Ingress_Meta config' = Ingress_Meta config
  /\ Auth config' = Auth config
  /\ Fallback config' = Fallback config.

(** *** Downstream TLS on gateways *)

(** [networking.ServerTLSSettings], by the fields the gateway handler
    reads and writes. *)
Record ServerTLSSettings := {
  TLS_CredentialName : string;
  TLS_Mode : ServerTLSSettings_TLSmode;
  MinProtocolVersion : ServerTLSSettings_TLSProtocol;
  MaxProtocolVersion : ServerTLSSettings_TLSProtocol;
  TLS_CipherSuites : list string
}.

(** A gateway server as the TLS handler sees it: the protocol of its
    port and its TLS settings ([server.Tls], nil when the server has
    none). *)
Record TLSServer := {
  Port_Protocol : string;
  Tls : option ServerTLSSettings
}.

(** Functions and constants of other packages and files used by the
    gateway handler. *)
Class GatewayDeps := {
  (** [gatewaytool.IsTLSServer] *)
  IsTLSServer : TLSServer -> bool;
  (** [extraSecret], which cuts a credential name into namespace and name *)
  extraSecret : string -> NamespacedName;
  (** [kube.GatewaySdsCaSuffix] *)
  GatewaySdsCaSuffix : string
}.

Definition set_TLS_Mode (tls : ServerTLSSettings) (mode : ServerTLSSettings_TLSmode)
    : ServerTLSSettings :=
  {| TLS_CredentialName := TLS_CredentialName tls; TLS_Mode := mode;
     MinProtocolVersion := MinProtocolVersion tls;
     MaxProtocolVersion := MaxProtocolVersion tls;
     TLS_CipherSuites := TLS_CipherSuites tls |}.

Definition set_MinProtocolVersion (tls : ServerTLSSettings)
    (p : ServerTLSSettings_TLSProtocol) : ServerTLSSettings :=
  {| TLS_CredentialName := TLS_CredentialName tls; TLS_Mode := TLS_Mode tls;
     MinProtocolVersion := p;
     MaxProtocolVersion := MaxProtocolVersion tls;
     TLS_CipherSuites := TLS_CipherSuites tls |}.

Definition set_MaxProtocolVersion (tls : ServerTLSSettings)
    (p : ServerTLSSettings_TLSProtocol) : ServerTLSSettings :=
  {| TLS_CredentialName := TLS_CredentialName tls; TLS_Mode := TLS_Mode tls;
     MinProtocolVersion := MinProtocolVersion tls;
     MaxProtocolVersion := p;
     TLS_CipherSuites := TLS_CipherSuites tls |}.

Definition set_TLS_CipherSuites (tls : ServerTLSSettings) (suites : list string)
    : ServerTLSSettings :=
  {| TLS_CredentialName := TLS_CredentialName tls; TLS_Mode := TLS_Mode tls;
     MinProtocolVersion := MinProtocolVersion tls;
     MaxProtocolVersion := MaxProtocolVersion tls;
     TLS_CipherSuites := suites |}.

(** The test that guards the mode: the CA secret is in another namespace
    than the server certificate, or is named neither as the certificate
    nor as the certificate with the CA suffix. *)
Definition caSecretInvalid {GD : GatewayDeps} (caSecretName serverCert : NamespacedName)
    : bool :=
  bool_decide (NamespacedName_Namespace caSecretName <> NamespacedName_Namespace serverCert)
  || (bool_decide (NamespacedName_Name caSecretName <> NamespacedName_Name serverCert)
      && bool_decide (NamespacedName_Name caSecretName
                      <> NamespacedName_Name serverCert +:+ GatewaySdsCaSuffix)).

(** The body of the loop of [downstreamTLS.ApplyGateway] on TLS settings
    that are present. *)
Definition applyDownstreamTLS {GD : GatewayDeps} (downstreamTLSConfig : DownstreamTLSConfig)
    (tls : ServerTLSSettings) : ServerTLSSettings :=
  let tls :=
    if bool_decide (NamespacedName_Name (CASecretName downstreamTLSConfig) <> "") then
      let serverCert := extraSecret (TLS_CredentialName tls) in
      if caSecretInvalid (CASecretName downstreamTLSConfig) serverCert then tls
      else set_TLS_Mode tls (Mode downstreamTLSConfig)
    else tls in
  let tls :=
    if bool_decide (TlsMinVersion downstreamTLSConfig <> "") then
      set_MinProtocolVersion tls
        (default TLS_AUTO (tlsProtocol !! TlsMinVersion downstreamTLSConfig))
    else tls in
  let tls :=
    if bool_decide (TlsMaxVersion downstreamTLSConfig <> "") then
      set_MaxProtocolVersion tls
        (default TLS_AUTO (tlsProtocol !! TlsMaxVersion downstreamTLSConfig))
    else tls in
  if bool_decide (length (CipherSuites downstreamTLSConfig) <> 0%nat) then
    set_TLS_CipherSuites tls (CipherSuites downstreamTLSConfig)
  else tls.

(** Whether the loop body touches [server.Tls] at all. *)
Definition touchesTls (downstreamTLSConfig : DownstreamTLSConfig) : bool :=
  bool_decide (NamespacedName_Name (CASecretName downstreamTLSConfig) <> "")
  || bool_decide (TlsMinVersion downstreamTLSConfig <> "")
  || bool_decide (TlsMaxVersion downstreamTLSConfig <> "")
  || bool_decide (length (CipherSuites downstreamTLSConfig) <> 0%nat).

(** One round of the loop; [None] when nil TLS settings are
    dereferenced. *)
Definition applyServer {GD : GatewayDeps} (downstreamTLSConfig : DownstreamTLSConfig)
    (server : TLSServer) : option TLSServer :=
  if IsTLSServer server then
    match Tls server with
    | Some tls =>
        Some {| Port_Protocol := Port_Protocol server;
                Tls := Some (applyDownstreamTLS downstreamTLSConfig tls) |}
    | None => if touchesTls downstreamTLSConfig then None else Some server
    end
  else Some server.

(** [downstreamTLS.ApplyGateway], on the servers of the gateway; [None]
    when the call panics. *)
Definition downstreamTLS_ApplyGateway {GD : GatewayDeps} (servers : list TLSServer)
    (config : Ingress) : option (list TLSServer) :=
  match DownstreamTLS config with
  | None => Some servers
  | Some downstreamTLSConfig => mapM (applyServer downstreamTLSConfig) servers
  end.

(** *** Two runs of a listing *)


(** Accumulators that agree but for the order of the route cache. *)
Definition same_pass (o1 o2 : ConvertOptions) : Prop :=
  HostAndPath2Ingress o1 = HostAndPath2Ingress o2
  /\ IngressRouteCache_ o1 ≡ₚ IngressRouteCache_ o2
  /\ IngressDomainCache_ o1 = IngressDomainCache_ o2
  /\ CO_Gateways o1 = CO_Gateways o2
  /\ VirtualServices o1 = VirtualServices o2
  /\ HTTPRoutes o1 = HTTPRoutes o2
  /\ CanaryIngresses o1 = CanaryIngresses o2
  /\ HasDefaultBackend o1 = HasDefaultBackend o2
  /\ Service2TrafficPolicy o1 = Service2TrafficPolicy o2.


(** The port-level settings of a destination-rule object. *)
Definition portSettings (c : Config) : list PortTrafficPolicy :=
  match Config_Spec c with
  | Spec_DestinationRule dr => PortLevelSettings (TrafficPolicy_ dr)
  | _ => []
  end.

(** A service host determines the namespace and name of its service. *)
Definition host_names_service {HL : Helpers} : Prop :=
  forall ns name ns' name',
    CreateServiceFQDN ns name = CreateServiceFQDN ns' name' -> ns = ns' /\ name = name'.

(** Destination-rule objects that agree but for the order of their
    port-level settings and, when a host can stand for services of
    several names, for the name. *)
Definition same_rule {HL : Helpers} (c1 c2 : Config) : Prop :=
  Meta_GroupVersionKind (Config_Meta c1) = Meta_GroupVersionKind (Config_Meta c2)
  /\ Meta_Namespace (Config_Meta c1) = Meta_Namespace (Config_Meta c2)
  /\ Meta_Annotations (Config_Meta c1) = Meta_Annotations (Config_Meta c2)
  /\ CreationTimestamp (Config_Meta c1) = CreationTimestamp (Config_Meta c2)
  /\ ruleHost c1 = ruleHost c2
  /\ portSettings c1 ≡ₚ portSettings c2
  /\ (host_names_service -> Config_Meta c1 = Config_Meta c2).




(** ** Further stand-ins and concrete inputs *)

Module GatewayReference.
Import Reference.

(** Stand-ins for [gatewaytool.IsTLSServer], [extraSecret] and
    [kube.GatewaySdsCaSuffix], which are not among the sources at hand:
    a server is a TLS server when it has TLS settings and its port does
    not speak HTTP; a credential name is cut at its slash. *)
Definition gateway_deps : GatewayDeps :=
  {| IsTLSServer := fun server =>
       bool_decide (is_Some (Tls server)) && negb (String.eqb (Port_Protocol server) "HTTP");
     extraSecret := SplitNamespacedName (ParserDeps := deps);
     GatewaySdsCaSuffix := "-cacert" |}.

End GatewayReference.

Module MoreReference.
Import Reference.







End MoreReference.

Module MoreSample.
Import Reference Sample.










(** Client certificates checked against a CA secret named after the
    server certificate, a minimum version, and three cipher suites of
    which the middle one is not a valid suite. *)
Definition tls_mutual : Annotations :=
  {[ default_key authTLSSecret := "default/web-cert-cacert";
     mse_key tlsMinVersion := "TLSv1.2";
     default_key sslCipher := "AES128-GCM-SHA256:RC4-MD5:AES256-GCM-SHA384" ]}.

Definition settings (credentialName : string) : ServerTLSSettings :=
  {| TLS_CredentialName := credentialName; TLS_Mode := SIMPLE;
     MinProtocolVersion := TLS_AUTO; MaxProtocolVersion := TLS_AUTO;
     TLS_CipherSuites := [] |}.

(** An HTTPS server with the certificate the CA secret is named after, an
    HTTPS server with another certificate, and a plain HTTP server. *)
Definition servers : list TLSServer :=
  [ {| Port_Protocol := "HTTPS"; Tls := Some (settings "default/web-cert") |};
    {| Port_Protocol := "HTTPS"; Tls := Some (settings "default/other-cert") |};
    {| Port_Protocol := "HTTP"; Tls := None |} ].

End MoreSample.

(* ===================================================================== *)
(** * Part II: properties                                                 *)
(* ===================================================================== *)

(** ** Loops over maps *)

Section MapLoops.
Context {K : Type} `{Countable K} {V : Type}.

Lemma foldl_insert_lookup (f : K -> V -> V) (l : list (K * V)) (acc : gmap K V) (k : K) :
  NoDup l.*1 ->
  foldl (fun acc kv => <[kv.1 := f kv.1 kv.2]> acc) acc l !! k
  = match (list_to_map l : gmap K V) !! k with
    | Some v => Some (f k v)
    | None => acc !! k
    end.
Proof.
  revert acc. induction l as [|[k' v'] l IH]; intros acc Hnd.
  - cbn [foldl list_to_map foldr]. by rewrite lookup_empty.
  - rewrite fmap_cons in Hnd. apply NoDup_cons in Hnd as [Hk' Hnd].
    cbn [foldl]. rewrite IH by done. rewrite list_to_map_cons. cbn [fst snd] in *.
    destruct (decide (k' = k)) as [->|Hne].
    + rewrite (not_elem_of_list_to_map_1 l k) by done.
      by rewrite !lookup_insert_eq.
    + by rewrite !lookup_insert_ne by done.
Qed.

Lemma list_to_map_range {MR : MapRange} (m : gmap K V) : list_to_map (range m) = m.
Proof.
  rewrite <- (list_to_map_to_list m) at 2.
  apply list_to_map_proper; [|apply range_perm].
  rewrite range_perm. apply NoDup_fst_map_to_list.
Qed.

Lemma NoDup_fst_range {MR : MapRange} (m : gmap K V) : NoDup (range m).*1.
Proof. rewrite range_perm. apply NoDup_fst_map_to_list. Qed.

(** A loop that only rewrites the entry it visits acts entry-wise,
    whatever the order of the visit. *)
Lemma update_each_lookup {MR : MapRange} (m : gmap K V) (f : K -> V -> V) (k : K) :
  update_each m f !! k = f k <$> m !! k.
Proof.
  unfold update_each, for_range.
  rewrite (foldl_insert_lookup f) by apply NoDup_fst_range.
  rewrite list_to_map_range. by destruct (m !! k).
Qed.


Lemma range_empty {MR : MapRange} : range (∅ : gmap K V) = [].
Proof.
  apply Permutation_nil_r. rewrite range_perm. by rewrite map_to_list_empty.
Qed.

(** A loop that appends one item per entry emits them in visiting order. *)
Lemma for_range_append {MR : MapRange} {B} (g : K -> V -> B) (m : gmap K V) :
  for_range m (fun k v out => out ++ [g k v]) [] = map (fun kv => g kv.1 kv.2) (range m).
Proof.
  unfold for_range.
  assert (Hgen : forall l acc,
    foldl (fun s kv => s ++ [g kv.1 kv.2]) acc l = acc ++ map (fun kv => g kv.1 kv.2) l).
  { induction l as [|x l IH]; intros acc; simpl.
    - by rewrite app_nil_r.
    - rewrite IH. by rewrite <- app_assoc. }
  apply Hgen.
Qed.
End MapLoops.

(** ** The store: registration, liveness, queries, secret reflection *)

Lemma unsupported_kind_tests (k : GroupVersionKind) :
  supported_kind k = false ->
  bool_decide (k = gvk.Gateway) = false /\ bool_decide (k = gvk.VirtualService) = false
  /\ bool_decide (k = gvk.DestinationRule) = false /\ bool_decide (k = gvk.EnvoyFilter) = false.
Proof.
  unfold supported_kind. intros Hk.
  apply orb_false_elim in Hk as [Hk He]. apply orb_false_elim in Hk as [Hk Hd].
  apply orb_false_elim in Hk as [Hg Hv]. auto.
Qed.

Section StoreProperties.
Context {C Handler : Type}.
Context {IC : IngressController C Handler} {HL : Helpers} {AH : AnnotationHandler}.
Context {EN : Encoders} {MR : MapRange} {AR : Arch}.

Implicit Types m : IngressConfig C Handler.

(** C9: registering a handler for a kind outside the four supported ones
    leaves the whole store as it was: no handler list grows and no
    per-cluster adapter is handed the handler. *)
Theorem RegisterEventHandler_unsupported_noop m (kind : GroupVersionKind) (f : Handler) :
  supported_kind kind = false ->
  RegisterEventHandler kind f m = m.
Proof.
  intros Hk. apply unsupported_kind_tests in Hk as (Hg & Hv & Hd & He).
  unfold RegisterEventHandler. rewrite !bool_decide_not, Hg, Hv, Hd, He. reflexivity.
Qed.

(** C10: with no per-cluster adapter registered, [HasSynced] answers true. *)
Theorem HasSynced_without_adapters m :
  remoteIngressControllers m = ∅ ->
  HasSynced m = true.
Proof.
  intros Hm. unfold HasSynced. rewrite Hm, range_empty. reflexivity.
Qed.

(** C5: [List] answers the unsupported-operation error with an empty
    result for every kind outside the four supported ones and for every
    non-empty namespace, leaving the store untouched; and every mutation
    entry point answers that same error whatever it is given. *)
Theorem unsupported_operations m :
  (forall (typ : GroupVersionKind) (ns : string),
      supported_kind typ = false \/ ns <> "" ->
      List m typ ns = Some ([], Some ErrUnsupportedOp, m))
  /\ (forall cfg, Create m cfg = ("", Some ErrUnsupportedOp))
  /\ (forall cfg, Update m cfg = ("", Some ErrUnsupportedOp))
  /\ (forall cfg, UpdateStatus m cfg = ("", Some ErrUnsupportedOp))
  /\ (forall cfg patchFn, Patch m cfg patchFn = ("", Some ErrUnsupportedOp))
  /\ (forall typ name ns rev, Delete m typ name ns rev = Some ErrUnsupportedOp).
Proof.
  split; [|repeat split].
  intros typ ns [Hk|Hns]; unfold List.
  - apply unsupported_kind_tests in Hk as (Hg & Hv & Hd & He).
    rewrite !bool_decide_not, Hg, Hv, Hd, He. reflexivity.
  - rewrite (bool_decide_eq_true_2 (ns <> "")) by done.
    by destruct (_ && _).
Qed.

(** C4 (as the code has it): a change of a secret outside the watched set
    issues no push and leaves the store as it was; a change of a watched
    secret issues two pushes, the first for the VirtualService kind and the
    second for the EnvoyFilter kind, each a full push naming that one kind. *)
Theorem ReflectSecretChanges_pushes m (s : ClusterNamespacedName) :
  (ClusterNamespacedName_String s ∉ watchedSecretSet m ->
     ReflectSecretChanges s m = m)
  /\ (ClusterNamespacedName_String s ∈ watchedSecretSet m ->
        exists first second : PushRequest,
          XDSUpdater (ReflectSecretChanges s m) = XDSUpdater m ++ [first; second]
          /\ Full first = true /\ Full second = true
          /\ ConfigsUpdated first = {[ secretConfigKey gvk.VirtualService s ]}
          /\ ConfigsUpdated second = {[ secretConfigKey gvk.EnvoyFilter s ]}).
Proof.
  unfold ReflectSecretChanges. split; intros Hs.
  - by rewrite bool_decide_eq_false_2.
  - rewrite bool_decide_eq_true_2 by done. cbn.
    eexists _, _. rewrite <- app_assoc. repeat split.
Qed.
End StoreProperties.

(** ** Annotation parsers *)

Section ParserProperties.
Context {AL : AnnotationLookup} {PD : ParserDeps}.

Lemma Uint32_mul_exact (a b : Z) :
  0 <= a -> 0 <= b -> a * b <= Uint32.max_uint -> Uint32.mul a b = a * b.
Proof.
  intros Ha Hb Hab. unfold Uint32.mul, Uint32.wrap, Uint32.max_uint in *.
  apply Z.mod_small. nia.
Qed.

(** C7 (as the code has it): when a rate annotation is present, decoding
    returns no error; the burst multiplier is the annotated one when it
    decodes and 5 otherwise; when the per-minute value decodes, the
    config has tokens-per-fill = rate, max_tokens = rate * multiplier
    (reduced modulo 2^32, and exact whenever the product fits 32 bits)
    and a one-minute interval, whatever the per-second annotation
    holds; when the per-minute value does not decode and the per-second
    one does, the same holds with a one-second interval. *)
Theorem localRateLimit_Parse_decodes (a : Annotations) (config : Ingress) (g : GlobalContext) :
  needLocalRateLimitConfig a = true ->
  let multiplier :=
    match ParseUint32ForMSE a limitBurstMultiplier with Ok m => m | Err _ => 5 end in
  let decoded := localRateLimit (localRateLimit_Parse a config g).1 in
  (localRateLimit_Parse a config g).2 = None
  /\ (forall rpm, ParseUint32ForMSE a limitRPM = Ok rpm ->
        decoded = Some {| TokensPerFill := rpm;
                          MaxTokens := (rpm * multiplier) mod 2 ^ 32;
                          FillInterval := Some {| Seconds := 60 |} |}
        /\ (rpm * multiplier <= Uint32.max_uint ->
            MaxTokens <$> decoded = Some (rpm * multiplier)))
  /\ (forall e rps, ParseUint32ForMSE a limitRPM = Err e ->
        ParseUint32ForMSE a limitRPS = Ok rps ->
        decoded = Some {| TokensPerFill := rps;
                          MaxTokens := (rps * multiplier) mod 2 ^ 32;
                          FillInterval := Some {| Seconds := 1 |} |}
        /\ (rps * multiplier <= Uint32.max_uint ->
            MaxTokens <$> decoded = Some (rps * multiplier))).
Proof.
  intros Hneed multiplier decoded. subst decoded.
  unfold localRateLimit_Parse. rewrite Hneed. cbn [negb fst snd].
  assert (Hm : 0 <= multiplier).
  { subst multiplier. destruct (ParseUint32ForMSE a limitBurstMultiplier) eqn:E.
    - by apply ParseUint32ForMSE_range in E as [? _].
    - lia. }
  fold defaultBurstMultiplier in multiplier. fold multiplier.
  split; [reflexivity|]. split.
  - intros rpm Hrpm. rewrite Hrpm. cbn. split; [reflexivity|].
    intros Hfit. apply ParseUint32ForMSE_range in Hrpm as [Hr _].
    by rewrite Uint32_mul_exact.
  - intros e rps Hrpm Hrps. rewrite Hrpm, Hrps. cbn. split; [reflexivity|].
    intros Hfit. apply ParseUint32ForMSE_range in Hrps as [Hr _].
    by rewrite Uint32_mul_exact.
Qed.

Lemma isValidTLSProtocolVersion_spec (p : string) :
  isValidTLSProtocolVersion p = true <-> p ∈ ["TLSv1.0"; "TLSv1.1"; "TLSv1.2"; "TLSv1.3"].
Proof.
  unfold isValidTLSProtocolVersion, tlsProtocol, tlsV10, tlsV11, tlsV12, tlsV13.
  rewrite !lookup_insert, lookup_empty, !elem_of_cons, elem_of_nil.
  repeat case_decide; subst; split; intros Hp; try done; try tauto.
  destruct Hp as [?|[?|[?|[?|[]]]]]; congruence.
Qed.

(** C8: a TLS version value is accepted exactly when it is one of
    TLSv1.0, TLSv1.1, TLSv1.2, TLSv1.3; decoding never returns an error;
    and when a TLS annotation is present, a minimum (maximum) version
    value outside that set leaves the minimum (maximum) field of the
    decoded config unset, while a value inside it is stored. *)
Theorem downstreamTLS_Parse_versions (a : Annotations) (config : Ingress) (g : GlobalContext) :
  (forall p, isValidTLSProtocolVersion p = true
             <-> p ∈ ["TLSv1.0"; "TLSv1.1"; "TLSv1.2"; "TLSv1.3"])
  /\ (downstreamTLS_Parse a config g).2 = None
  /\ (needDownstreamTLS a = true ->
      exists tls, DownstreamTLS (downstreamTLS_Parse a config g).1 = Some tls
        /\ (forall v, ParseStringForMSE a tlsMinVersion = Ok v ->
              (isValidTLSProtocolVersion v = false -> TlsMinVersion tls = "")
              /\ (isValidTLSProtocolVersion v = true -> TlsMinVersion tls = v))
        /\ (forall v, ParseStringForMSE a tlsMaxVersion = Ok v ->
              (isValidTLSProtocolVersion v = false -> TlsMaxVersion tls = "")
              /\ (isValidTLSProtocolVersion v = true -> TlsMaxVersion tls = v))).
Proof.
  split; [apply isValidTLSProtocolVersion_spec|].
  unfold downstreamTLS_Parse. split.
  - destruct (negb _); [reflexivity|].
    by destruct (match ParseStringASAP a authTLSSecret with Ok _ => _ | Err _ => _ end).
  - intros ->. cbn [negb].
    destruct (match ParseStringASAP a authTLSSecret with Ok _ => _ | Err _ => _ end)
      as [mode ca].
    cbn [fst DownstreamTLS set_DownstreamTLS]. eexists. split; [reflexivity|].
    cbn [TlsMinVersion TlsMaxVersion].
    split; intros v ->; split; intros ->; reflexivity.
Qed.
End ParserProperties.

(** ** Fallback splice *)

Section FallbackSplice.
Context {HL : Helpers} {MR : MapRange}.

Lemma spliceFallbackRoutes_from (temp routes : list WrapperHTTPRoute) :
  foldl
    (fun tempRoutes route =>
       let tempRoutes := tempRoutes ++ [route] in
       match InternalActiveRedirect (WHR_HTTPRoute route) with
       | Some _ =>
           match Fallback (AnnotationsConfig (WHR_WrapperConfig route)) with
           | None => tempRoutes
           | Some fallbackConfig =>
               [ {| WHR_HTTPRoute :=
                      internalRedirectRoute (WHR_HTTPRoute route) fallbackConfig;
                    WHR_WrapperConfig := WHR_WrapperConfig route;
                    WHR_ClusterId := WHR_ClusterId route;
                    WeightTotal := 0 |} ] ++ tempRoutes
           end
       | None => tempRoutes
       end)
    temp routes
  = reverse (omap fallbackCompanion routes) ++ temp ++ routes.
Proof.
  revert temp. induction routes as [|route routes IH]; intros temp.
  - cbn. by rewrite app_nil_r.
  - cbn [foldl]. rewrite IH.
    change (omap fallbackCompanion (route :: routes))
      with (match fallbackCompanion route with
            | Some c => c :: omap fallbackCompanion routes
            | None => omap fallbackCompanion routes
            end).
    generalize (omap fallbackCompanion routes) as companions. intros companions.
    unfold fallbackCompanion.
    destruct (InternalActiveRedirect (WHR_HTTPRoute route)) as [marker|];
      [destruct (Fallback (AnnotationsConfig (WHR_WrapperConfig route))) as [fb|]|].
    + rewrite reverse_cons, <- !app_assoc. reflexivity.
    + by rewrite <- app_assoc.
    + by rewrite <- app_assoc.
Qed.

Lemma spliceFallbackRoutes_spec (routes : list WrapperHTTPRoute) :
  spliceFallbackRoutes routes = reverse (omap fallbackCompanion routes) ++ routes.
Proof. unfold spliceFallbackRoutes. by rewrite spliceFallbackRoutes_from. Qed.

(** C3 (as the code has it): the pass acts host by host; on one host's
    list it keeps every route, unchanged and in order, and puts in front
    of the whole list the companions of the triggering routes, the
    companion of a later route before that of an earlier one.  A route
    with the marker and a declared fallback target has a companion: the
    route renamed with the fallback suffix, its marker cleared, matching
    the exact path [/] and exactly two headers (the route-name header
    with the companion's name, the fallback-service header with the
    target's identity), with the fallback service and port as single
    destination of weight 100, the redirect and the route filters of the
    origin, the origin's object and cluster, and no weight total.  A
    route without marker or whose object declares no fallback target has
    none. *)
Theorem applyInternalActiveRedirect_splices (convertOptions : ConvertOptions) :
  (forall host,
      HTTPRoutes (applyInternalActiveRedirect convertOptions) !! host
      = spliceFallbackRoutes <$> HTTPRoutes convertOptions !! host)
  /\ (forall routes,
        spliceFallbackRoutes routes = reverse (omap fallbackCompanion routes) ++ routes)
  /\ (forall route marker target,
        InternalActiveRedirect (WHR_HTTPRoute route) = Some marker ->
        Fallback (AnnotationsConfig (WHR_WrapperConfig route)) = Some target ->
        exists companion matched,
          fallbackCompanion route = Some companion
          /\ Name (WHR_HTTPRoute companion)
             = Name (WHR_HTTPRoute route) +:+ FallbackRouteNameSuffix
          /\ InternalActiveRedirect (WHR_HTTPRoute companion) = None
          /\ Match (WHR_HTTPRoute companion) = [matched]
          /\ Uri matched = Some (StringMatch_Exact "/")
          /\ dom (Headers matched)
             = {[ FallbackInjectHeaderRouteName; FallbackInjectFallbackService ]}
          /\ Headers matched !! FallbackInjectHeaderRouteName
             = Some (StringMatch_Exact (Name (WHR_HTTPRoute companion)))
          /\ Headers matched !! FallbackInjectFallbackService
             = Some (StringMatch_Exact (NamespacedName_String (DefaultBackend target)))
          /\ Route (WHR_HTTPRoute companion)
             = [ {| Destination_ :=
                      Some {| Host :=
                                CreateServiceFQDN
                                  (NamespacedName_Namespace (DefaultBackend target))
                                  (NamespacedName_Name (DefaultBackend target));
                              Port := Some {| Number := Fallback_Port target |} |};
                    Weight := 100 |} ]
          /\ WHR_WrapperConfig companion = WHR_WrapperConfig route
          /\ WHR_ClusterId companion = WHR_ClusterId route
          /\ Redirect (WHR_HTTPRoute companion) = Redirect (WHR_HTTPRoute route)
          /\ RouteHTTPFilters (WHR_HTTPRoute companion)
             = RouteHTTPFilters (WHR_HTTPRoute route)
          /\ WeightTotal companion = 0)
  /\ (forall route,
        InternalActiveRedirect (WHR_HTTPRoute route) = None
        \/ Fallback (AnnotationsConfig (WHR_WrapperConfig route)) = None ->
        fallbackCompanion route = None).
Proof.
  split; [|split; [|split]].
  - intros host. unfold applyInternalActiveRedirect. cbn [HTTPRoutes set_HTTPRoutes].
    by rewrite update_each_lookup.
  - apply spliceFallbackRoutes_spec.
  - intros route marker target Hmarker Htarget.
    unfold fallbackCompanion. rewrite Hmarker, Htarget.
    eexists _, _. split; [reflexivity|]. unfold internalRedirectRoute.
    cbn [WHR_HTTPRoute Name InternalActiveRedirect Match Uri Headers Route
         WHR_WrapperConfig WHR_ClusterId Redirect RouteHTTPFilters WeightTotal].
    repeat split; cbn [Headers].
    + by rewrite !dom_insert_L, dom_empty_L, union_empty_r_L.
    + by rewrite lookup_insert_eq.
    + rewrite lookup_insert_ne by apply fallback_headers_differ.
      by rewrite lookup_insert_eq.
  - intros route [Hnone|Hnone]; unfold fallbackCompanion; rewrite Hnone; [done|].
    by destruct (InternalActiveRedirect (WHR_HTTPRoute route)).
Qed.
End FallbackSplice.

(** ** Filter derivation *)

Section FilterDerivation.
Context {C Handler : Type}.
Context {IC : IngressController C Handler} {HL : Helpers} {AH : AnnotationHandler}.
Context {EN : Encoders} {MR : MapRange} {AR : Arch}.

Implicit Types m : IngressConfig C Handler.

(** C2 (as the code has it): when at least one basic-auth rule was found
    and the construction of the filter patch fails, the pass stores the
    empty list in the filter cache, whatever the cache held before; a
    following [List(EnvoyFilter, "")] returns no filter patch. *)
Theorem convertEnvoyFilter_failure_empties_cache m (convertOptions : ConvertOptions)
    (e : error) :
  (0 < size (basicAuthMappings convertOptions))%nat ->
  constructBasicAuthEnvoyFilter (basicAuthRules convertOptions) (namespace m) = Err e ->
  cachedEnvoyFilters (convertEnvoyFilter m convertOptions) = []
  /\ List (convertEnvoyFilter m convertOptions) gvk.EnvoyFilter ""
     = Some ([], None, convertEnvoyFilter m convertOptions).
Proof.
  intros Hsize Hfail.
  assert (Hcache : cachedEnvoyFilters (convertEnvoyFilter m convertOptions) = []).
  { unfold convertEnvoyFilter, derivedEnvoyFilters. cbn [cachedEnvoyFilters set_cachedEnvoyFilters].
    apply Nat.ltb_lt in Hsize. rewrite Hsize, Hfail. reflexivity. }
  split; [exact Hcache|].
  unfold List. rewrite Hcache. reflexivity.
Qed.
End FilterDerivation.

(** ** Iteration order: tables enumerated in two orders *)

Section IterationOrder.
Context {C Handler : Type}.
Context {IC : IngressController C Handler} {HL : Helpers} {AH : AnnotationHandler}.

Implicit Types m : IngressConfig C Handler.


(** What one entry of the route table contributes to the virtual-service
    list: nothing for an empty route list, one object otherwise. *)
Lemma virtualServices_from m (convertOptions : ConvertOptions)
    (l : list (string * list WrapperHTTPRoute)) (acc : option (list Config)) :
  foldl
    (fun acc kv =>
       out ← acc;
       match kv.2 with
       | [] => Some out
       | firstRoute :: _ =>
           vs ← virtualServiceConfig m convertOptions kv.1 kv.2 firstRoute;
           Some (out ++ [vs])
       end)
    acc l
  = out ← acc;
    rest ← foldr
      (fun kv rest =>
         item ← match kv.2 with
                | [] => Some []
                | firstRoute :: _ =>
                    vs ← virtualServiceConfig m convertOptions kv.1 kv.2 firstRoute;
                    Some [vs]
                end;
         rest ← rest;
         Some (item ++ rest))
      (Some []) l;
    Some (out ++ rest).
Proof.
  revert acc. induction l as [|[host routes] l IH]; intros acc.
  - destruct acc as [out|]; cbn; [by rewrite app_nil_r|done].
  - cbn [foldl foldr fst snd]. rewrite IH. destruct acc as [out|]; [|done].
    cbn [mbind option_bind].
    destruct routes as [|firstRoute routes]; cbn [mbind option_bind].
    + by destruct (foldr _ _ l).
    + destruct (virtualServiceConfig m convertOptions host _ firstRoute) as [vs|];
        cbn [mbind option_bind]; [|done].
      destruct (foldr _ _ l) as [rest|]; cbn [mbind option_bind]; [|done].
      by rewrite <- app_assoc.
Qed.

End IterationOrder.

(** ** Weight normalization *)

Section Normalization.
Context {AR : Arch}.

Lemma declared_total_from (i : nat) (l : list HTTPRouteDestination) (acc : Z) :
  for_slice_from (S i) l
    (fun idx routeDestination weightTotal =>
       if bool_decide (idx = 0%nat) then weightTotal
       else Int32.add weightTotal (Weight routeDestination))
    acc
  = foldl Int32.add acc (map Weight l).
Proof.
  revert i acc. induction l as [|d l IH]; intros i acc; [reflexivity|].
  cbn [for_slice_from map foldl]. rewrite bool_decide_eq_false_2 by done. apply IH.
Qed.

Lemma declared_total (d0 : HTTPRouteDestination) (rest : list HTTPRouteDestination) :
  for_slice (d0 :: rest)
    (fun idx routeDestination weightTotal =>
       if bool_decide (idx = 0%nat) then weightTotal
       else Int32.add weightTotal (Weight routeDestination))
    0
  = foldl Int32.add 0 (map Weight rest).
Proof. unfold for_slice. cbn [for_slice_from]. by rewrite declared_total_from. Qed.

Lemma scaled_from (total : Z) (pre l : list HTTPRouteDestination) (sum : Z) :
  pre <> [] ->
  for_slice_from (length pre) l
    (fun idx routeDestination '(sum, dests) =>
       if bool_decide (idx = 0%nat) then (sum, dests)
       else
         let w := percentage (Weight routeDestination) total in
         (Int32.add sum w, <[idx := set_Weight routeDestination w]> dests))
    (sum, pre ++ l)
  = (foldl Int32.add sum (map (fun d => percentage (Weight d) total) l),
     pre ++ map (fun d => set_Weight d (percentage (Weight d) total)) l).
Proof.
  revert pre sum. induction l as [|d l IH]; intros pre sum Hpre.
  - reflexivity.
  - cbn [for_slice_from map foldl].
    rewrite bool_decide_eq_false_2 by (destruct pre; [done|cbn; lia]).
    rewrite insert_app_r_alt by lia. rewrite Nat.sub_diag. cbn [insert list_insert].
    replace (S (length pre))
      with (length (pre ++ [set_Weight d (percentage (Weight d) total)]))
      by (rewrite length_app; cbn; lia).
    rewrite (cons_middle _ pre l).
    rewrite app_assoc. rewrite IH by (by destruct pre).
    by rewrite <- app_assoc.
Qed.

Lemma scaled (total : Z) (d0 : HTTPRouteDestination) (rest : list HTTPRouteDestination) :
  for_slice (d0 :: rest)
    (fun idx routeDestination '(sum, dests) =>
       if bool_decide (idx = 0%nat) then (sum, dests)
       else
         let w := percentage (Weight routeDestination) total in
         (Int32.add sum w, <[idx := set_Weight routeDestination w]> dests))
    (0, d0 :: rest)
  = (foldl Int32.add 0 (map (fun d => percentage (Weight d) total) rest),
     d0 :: map (fun d => set_Weight d (percentage (Weight d) total)) rest).
Proof.
  unfold for_slice. cbn [for_slice_from].
  rewrite bool_decide_eq_true_2 by done.
  apply (scaled_from total [d0] rest 0). done.
Qed.

Lemma wrap_mod (z : Z) : Int32.wrap z mod 2 ^ 32 = z mod 2 ^ 32.
Proof.
  unfold Int32.wrap. rewrite Zminus_mod_idemp_l. f_equal. lia.
Qed.

Lemma wrap_congr (a b : Z) : a mod 2 ^ 32 = b mod 2 ^ 32 -> Int32.wrap a = Int32.wrap b.
Proof.
  intros Hab. unfold Int32.wrap.
  rewrite <- (Zplus_mod_idemp_l a), <- (Zplus_mod_idemp_l b), Hab. reflexivity.
Qed.

Lemma wrapping_sum_mod (ws : list Z) (acc : Z) :
  foldl Int32.add acc ws mod 2 ^ 32 = (acc + foldr Z.add 0 ws) mod 2 ^ 32.
Proof.
  revert acc. induction ws as [|w ws IH]; intros acc; cbn [foldl foldr].
  - f_equal. lia.
  - rewrite IH. unfold Int32.add.
    rewrite <- Zplus_mod_idemp_l, wrap_mod, Zplus_mod_idemp_l. f_equal. lia.
Qed.

Lemma remainder_completes (s t : Z) :
  s mod 2 ^ 32 = t mod 2 ^ 32 -> Int32.wrap (Int32.sub 100 s + t) = 100.
Proof.
  intros Hst. transitivity (Int32.wrap 100); [|reflexivity].
  apply wrap_congr. unfold Int32.sub.
  rewrite <- Zplus_mod_idemp_l, wrap_mod, Zplus_mod_idemp_l.
  rewrite Zplus_mod, Zminus_mod, Hst, <- Zminus_mod, <- Zplus_mod. f_equal. lia.
Qed.

(** A single destination gets weight 100. *)
Lemma normalizeWeightedCluster_single (cache : option IngressRouteCache)
    (route : WrapperHTTPRoute) (d : HTTPRouteDestination) :
  destinations route = [d] ->
  normalizeWeightedCluster cache route
  = Some (cache, with_destinations route [set_Weight d 100]).
Proof. intros Hd. unfold normalizeWeightedCluster. rewrite Hd. reflexivity. Qed.

(** A route without destinations makes the call panic. *)
Lemma normalizeWeightedCluster_empty (cache : option IngressRouteCache)
    (route : WrapperHTTPRoute) :
  destinations route = [] -> normalizeWeightedCluster cache route = None.
Proof. intros Hd. unfold normalizeWeightedCluster. rewrite Hd. reflexivity. Qed.

(** With several destinations, every destination but the first gets
    [percentage] of its declared weight over the total (the wrapping sum
    of the declared weights of the others, or the route's [WeightTotal]
    when that sum is smaller), the first gets 100 minus the wrapping sum
    of those, and the route is recorded in the cache; the weights then add
    up to 100 in 32-bit arithmetic. *)
Lemma normalizeWeightedCluster_many (cache : option IngressRouteCache)
    (route : WrapperHTTPRoute) (d0 d1 : HTTPRouteDestination)
    (ds : list HTTPRouteDestination) :
  destinations route = d0 :: d1 :: ds ->
  let declared := foldl Int32.add 0 (map Weight (d1 :: ds)) in
  let total := if declared <? WeightTotal route then WeightTotal route else declared in
  let others := map (fun d => set_Weight d (percentage (Weight d) total)) (d1 :: ds) in
  let first := set_Weight d0 (Int32.sub 100 (foldl Int32.add 0 (map Weight others))) in
  let normalized := with_destinations route (first :: others) in
  normalizeWeightedCluster cache route
  = Some (match cache with
          | Some c => Some (IngressRouteCache_Update c normalized)
          | None => None
          end, normalized)
  /\ Int32.wrap (weight_sum (destinations normalized)) = 100.
Proof.
  intros Hd declared total others first normalized.
  assert (Hw : map Weight others = map (fun d => percentage (Weight d) total) (d1 :: ds)).
  { subst others. rewrite map_map. reflexivity. }
  split.
  - unfold normalizeWeightedCluster. rewrite Hd.
    rewrite bool_decide_eq_false_2 by (cbn; lia).
    rewrite declared_total. fold declared. cbv zeta. fold total.
    rewrite scaled. fold others. rewrite <- Hw. reflexivity.
  - subst normalized. unfold destinations, with_destinations, weight_sum.
    cbn [WHR_HTTPRoute set_HTTPRoute Route set_Route].
    subst first. cbn [map foldr Weight set_Weight].
    apply remainder_completes. rewrite wrapping_sum_mod. f_equal.
Qed.

(** The specification's example: declared [30, 30, 30] on a total of 100
    become [40, 30, 30]. *)
Example normalizeWeightedCluster_30_30_30 :
  (fun r => map Weight (destinations r.2)) <$>
    normalizeWeightedCluster None (Sample.route "r" None Sample.plain [30; 30; 30] 100)
  = Some [40; 30; 30].
Proof. reflexivity. Qed.
End Normalization.

(** C1, at a canary declared at 53 of 100: the specification prescribes
    round_down(53/100 * 100) = 53 for the canary and 47 for the first
    destination.  In single precision 53/100 is 8891924 * 2^-24, just
    below 0.53; its product with 100, 52.9999971..., lies below the
    midpoint of the neighbouring floats 13893631 * 2^-18 and 53, so it
    rounds to the former and is truncated to 52: the code yields 52 for
    the canary and 48 for the first destination. *)
Theorem normalizeWeightedCluster_canary_53 (AR : Arch) (cache : option IngressRouteCache) :
  spec_percentage 53 100 = 53
  /\ percentage 53 100 = 52
  /\ (fun r => map Weight (destinations r.2)) <$> normalizeWeightedCluster cache Sample.canary_53
     = Some [48; 52].
Proof.
  split; [reflexivity|]. split; [reflexivity|].
  unfold normalizeWeightedCluster. destruct cache; reflexivity.
Qed.

(** ** The properties on concrete inputs *)

Module Checks.
Import Reference Sample.

Lemma RegisterEventHandler_unsupported_noop_witness :
  supported_kind gvk.Ingress = false
  /\ RegisterEventHandler (IC := adapter) (MR := ascending) gvk.Ingress 7%nat store = store.
Proof.
  split; [reflexivity|].
  apply (RegisterEventHandler_unsupported_noop (IC := adapter) (MR := ascending)).
  reflexivity.
Defined.

Lemma HasSynced_without_adapters_witness :
  remoteIngressControllers empty_store = ∅
  /\ HasSynced (IC := adapter) (MR := descending) empty_store = true.
Proof.
  split; [reflexivity|].
  apply (HasSynced_without_adapters (IC := adapter) (MR := descending)). reflexivity.
Defined.

Lemma unsupported_operations_witness :
  (supported_kind gvk.Ingress = false \/ "" <> "")
  /\ List (IC := adapter) (HL := helpers) (AH := handler) (EN := encoders)
          (MR := ascending) (AR := amd64) store gvk.Ingress ""
     = Some ([], Some ErrUnsupportedOp, store)
  /\ (supported_kind gvk.Gateway = false \/ "default" <> "")
  /\ List (IC := adapter) (HL := helpers) (AH := handler) (EN := encoders)
          (MR := ascending) (AR := amd64) store gvk.Gateway "default"
     = Some ([], Some ErrUnsupportedOp, store).
Proof.
  pose proof (unsupported_operations (IC := adapter) (HL := helpers) (AH := handler)
                (EN := encoders) (MR := ascending) (AR := amd64) store) as [HList _].
  assert (H1 : supported_kind gvk.Ingress = false \/ "" <> "") by (left; reflexivity).
  assert (H2 : supported_kind gvk.Gateway = false \/ "default" <> "")
    by (right; discriminate).
  exact (conj H1 (conj (HList _ _ H1) (conj H2 (HList _ _ H2)))).
Defined.

Lemma ReflectSecretChanges_pushes_witness :
  ((ClusterNamespacedName_String (Helpers := helpers) secret ∉ watchedSecretSet store)
   /\ ReflectSecretChanges (HL := helpers) secret store = store)
  /\ ((ClusterNamespacedName_String (Helpers := helpers) secret ∈ watchedSecretSet watching)
      /\ length (XDSUpdater (ReflectSecretChanges (HL := helpers) secret watching)) = 2%nat).
Proof.
  assert (Hmiss : ClusterNamespacedName_String (Helpers := helpers) secret ∉ watchedSecretSet store)
    by apply not_elem_of_empty.
  assert (Hhit : ClusterNamespacedName_String (Helpers := helpers) secret ∈ watchedSecretSet watching)
    by (apply elem_of_singleton; reflexivity).
  split; split; [exact Hmiss| |exact Hhit|].
  - exact (proj1 (ReflectSecretChanges_pushes (HL := helpers) store secret) Hmiss).
  - destruct (proj2 (ReflectSecretChanges_pushes (HL := helpers) watching secret) Hhit)
      as (first & second & Hlog & _).
    rewrite Hlog. reflexivity.
Defined.

(** C4, as stated, fails: for a watched secret the downstream consumer
    receives two requests, not one, and so no single request covers both
    kinds. *)
Lemma ReflectSecretChanges_issues_two_pushes :
  (ClusterNamespacedName_String (Helpers := helpers) secret ∈ watchedSecretSet watching)
  /\ length (XDSUpdater (ReflectSecretChanges (HL := helpers) secret watching)) = 2%nat
  /\ ~ (exists push : PushRequest,
          XDSUpdater (ReflectSecretChanges (HL := helpers) secret watching)
          = XDSUpdater watching ++ [push]
          /\ secretConfigKey gvk.VirtualService secret ∈ ConfigsUpdated push
          /\ secretConfigKey gvk.EnvoyFilter secret ∈ ConfigsUpdated push).
Proof.
  split; [apply elem_of_singleton; reflexivity|].
  split; [reflexivity|].
  intros (push & Hlog & _). apply (f_equal length) in Hlog. discriminate Hlog.
Qed.

Lemma convertEnvoyFilter_failure_empties_cache_witness :
  (0 < size (basicAuthMappings (HL := helpers) (MR := ascending) authenticated))%nat
  /\ constructBasicAuthEnvoyFilter (HL := helpers) (EN := failing_encoders)
       (basicAuthRules (HL := helpers) (MR := ascending) authenticated)
       (namespace with_stale_filter)
     = Err (ErrOther "json: unsupported value")
  /\ cachedEnvoyFilters
       (convertEnvoyFilter (HL := helpers) (EN := failing_encoders) (MR := ascending)
          with_stale_filter authenticated) = [].
Proof.
  assert (Hsize : (0 < size (basicAuthMappings (HL := helpers) (MR := ascending)
                               authenticated))%nat)
    by (apply Nat.ltb_lt; vm_compute; reflexivity).
  assert (Hfail : constructBasicAuthEnvoyFilter (HL := helpers) (EN := failing_encoders)
                    (basicAuthRules (HL := helpers) (MR := ascending) authenticated)
                    (namespace with_stale_filter)
                  = Err (ErrOther "json: unsupported value")) by (vm_compute; reflexivity).
  split; [exact Hsize|]. split; [exact Hfail|].
  exact (proj1 (convertEnvoyFilter_failure_empties_cache
                  (IC := adapter) (AH := handler) (AR := amd64)
                  with_stale_filter authenticated _ Hsize Hfail)).
Defined.

(** C2, as stated, fails: the store holds a filter patch from an earlier
    pass; a pass in which the construction fails leaves the cache empty,
    and [List(EnvoyFilter, "")] no longer returns the earlier patch. *)
Lemma convertEnvoyFilter_failure_drops_cached_filters :
  let after :=
    convertEnvoyFilter (HL := helpers) (EN := failing_encoders) (MR := ascending)
      with_stale_filter authenticated in
  constructBasicAuthEnvoyFilter (HL := helpers) (EN := failing_encoders)
    (basicAuthRules (HL := helpers) (MR := ascending) authenticated)
    (namespace with_stale_filter)
  = Err (ErrOther "json: unsupported value")
  /\ cachedEnvoyFilters with_stale_filter = [stale_filter]
  /\ cachedEnvoyFilters after = []
  /\ cachedEnvoyFilters after <> cachedEnvoyFilters with_stale_filter
  /\ (fun r => r.1.1) <$>
       List (IC := adapter) (HL := helpers) (AH := handler) (EN := failing_encoders)
            (MR := ascending) (AR := amd64) after gvk.EnvoyFilter ""
     = Some [].
Proof.
  cbv zeta. repeat split; try (vm_compute; reflexivity).
  vm_compute. discriminate.
Qed.

Lemma applyInternalActiveRedirect_splices_witness :
  InternalActiveRedirect (WHR_HTTPRoute triggering_route) = Some marker
  /\ Fallback (AnnotationsConfig (WHR_WrapperConfig triggering_route)) = Some fallback
  /\ (exists companion,
        fallbackCompanion (HL := helpers) triggering_route = Some companion
        /\ Name (WHR_HTTPRoute companion) = "r1-fallback")
  /\ (InternalActiveRedirect (WHR_HTTPRoute plain_route) = None
      \/ Fallback (AnnotationsConfig (WHR_WrapperConfig plain_route)) = None)
  /\ fallbackCompanion (HL := helpers) plain_route = None.
Proof.
  destruct (applyInternalActiveRedirect_splices (HL := helpers) (MR := ascending)
              zero_ConvertOptions) as (_ & _ & Hcompanion & Hnone).
  assert (Hm : InternalActiveRedirect (WHR_HTTPRoute triggering_route) = Some marker)
    by reflexivity.
  assert (Hf : Fallback (AnnotationsConfig (WHR_WrapperConfig triggering_route))
               = Some fallback) by reflexivity.
  assert (Hp : InternalActiveRedirect (WHR_HTTPRoute plain_route) = None
               \/ Fallback (AnnotationsConfig (WHR_WrapperConfig plain_route)) = None)
    by (left; reflexivity).
  split; [exact Hm|]. split; [exact Hf|]. split; [|split; [exact Hp|exact (Hnone _ Hp)]].
  destruct (Hcompanion _ _ _ Hm Hf) as (companion & matched & Hc & Hname & _).
  exists companion. split; [exact Hc|]. rewrite Hname. reflexivity.
Defined.

(** C3, as stated, fails: with a plain route ahead of the triggering one,
    the companion lands at the head of the host's list, and the plain
    route stands between it and the triggering route. *)
Lemma fallback_companion_not_adjacent :
  exists companion,
    fallbackCompanion (HL := helpers) triggering_route = Some companion
    /\ Name (WHR_HTTPRoute triggering_route) = "r1"
    /\ Name (WHR_HTTPRoute companion) = "r1-fallback"
    /\ (exists matched,
          Match (WHR_HTTPRoute companion) = [matched]
          /\ Headers matched !! FallbackInjectHeaderRouteName (Helpers := helpers)
             = Some (StringMatch_Exact "r1-fallback"))
    /\ spliceFallbackRoutes (HL := helpers) [plain_route; triggering_route]
       = [companion; plain_route; triggering_route]
    /\ ~ (exists before after,
            spliceFallbackRoutes (HL := helpers) [plain_route; triggering_route]
            = before ++ [companion; triggering_route] ++ after).
Proof.
  eexists. split; [reflexivity|]. split; [reflexivity|]. split; [reflexivity|].
  split; [eexists; split; [reflexivity|vm_compute; reflexivity]|].
  split; [reflexivity|].
  intros (before & after & Heq).
  change (spliceFallbackRoutes (HL := helpers) [plain_route; triggering_route])
    with ([ {| WHR_HTTPRoute :=
                 internalRedirectRoute (HL := helpers) (WHR_HTTPRoute triggering_route) fallback;
               WHR_WrapperConfig := WHR_WrapperConfig triggering_route;
               WHR_ClusterId := WHR_ClusterId triggering_route;
               WeightTotal := 0 |}; plain_route; triggering_route ]) in Heq.
  destruct before as [|b1 [|b2 [|b3 before]]]; cbn [app] in Heq.
  - injection Heq as _ Hplain _. discriminate Hplain.
  - injection Heq as _ Hplain _. discriminate Hplain.
  - injection Heq as _ _ Htrig _. discriminate Htrig.
  - apply (f_equal length) in Heq. cbn [length] in Heq. rewrite length_app in Heq.
    cbn [length] in Heq. lia.
Qed.

(** The rule set handed to the filter construction follows the iteration
    order: two hosts protected by the same credentials yield one rule
    whose matched routes come in either order. *)
Example basicAuthRules_follow_iteration_order :
  map MatchRoute (Rules (basicAuthRules (HL := helpers) (MR := ascending) authenticated_twice))
  = [["ra"; "rb"]]
  /\ map MatchRoute
       (Rules (basicAuthRules (HL := helpers) (MR := descending) authenticated_twice))
     = [["rb"; "ra"]].
Proof. split; vm_compute; reflexivity. Qed.

Lemma localRateLimit_Parse_decodes_witness :
  needLocalRateLimitConfig (AL := annotation_lookup) rpm_100 = true
  /\ localRateLimit (localRateLimit_Parse (AL := annotation_lookup) rpm_100 plain no_context).1
     = Some {| TokensPerFill := 100; MaxTokens := 500;
               FillInterval := Some {| Seconds := 60 |} |}.
Proof.
  assert (Hneed : needLocalRateLimitConfig (AL := annotation_lookup) rpm_100 = true)
    by reflexivity.
  split; [exact Hneed|].
  destruct (localRateLimit_Parse_decodes (AL := annotation_lookup)
              rpm_100 plain no_context Hneed) as (_ & Hrpm & _).
  exact (proj1 (Hrpm 100 eq_refl)).
Defined.

(** C7, as stated, fails: both rate annotations are present and the
    per-minute one does not decode; the per-second value is then used,
    not ignored. *)
Lemma localRateLimit_Parse_falls_back_to_rps :
  HasMSE (AnnotationLookup := annotation_lookup) rpm_unreadable limitRPM = true
  /\ HasMSE (AnnotationLookup := annotation_lookup) rpm_unreadable limitRPS = true
  /\ localRateLimit
       (localRateLimit_Parse (AL := annotation_lookup) rpm_unreadable plain no_context).1
     = Some {| TokensPerFill := 10; MaxTokens := 50;
               FillInterval := Some {| Seconds := 1 |} |}.
Proof. repeat split; vm_compute; reflexivity. Qed.

(** The product is a 32-bit one: at the largest rate and the default
    multiplier it wraps around. *)
Example localRateLimit_MaxTokens_wraps :
  MaxTokens <$>
    localRateLimit (localRateLimit_Parse (AL := annotation_lookup) rps_huge plain no_context).1
  = Some 4294967291.
Proof. vm_compute. reflexivity. Qed.

Lemma downstreamTLS_Parse_versions_witness :
  needDownstreamTLS (AL := annotation_lookup) tls_versions = true
  /\ ParseStringForMSE (AnnotationLookup := annotation_lookup) tls_versions tlsMinVersion
     = Ok "TLSv1.4"
  /\ isValidTLSProtocolVersion "TLSv1.4" = false
  /\ exists tls,
       DownstreamTLS
         (downstreamTLS_Parse (AL := annotation_lookup) (PD := deps)
            tls_versions plain no_context).1 = Some tls
       /\ TlsMinVersion tls = "" /\ TlsMaxVersion tls = "TLSv1.3".
Proof.
  assert (Hneed : needDownstreamTLS (AL := annotation_lookup) tls_versions = true)
    by reflexivity.
  assert (Hmin : ParseStringForMSE (AnnotationLookup := annotation_lookup)
                   tls_versions tlsMinVersion = Ok "TLSv1.4") by reflexivity.
  assert (Hmax : ParseStringForMSE (AnnotationLookup := annotation_lookup)
                   tls_versions tlsMaxVersion = Ok "TLSv1.3") by reflexivity.
  assert (Hbad : isValidTLSProtocolVersion "TLSv1.4" = false) by reflexivity.
  assert (Hgood : isValidTLSProtocolVersion "TLSv1.3" = true) by reflexivity.
  split; [exact Hneed|]. split; [exact Hmin|]. split; [exact Hbad|].
  destruct (downstreamTLS_Parse_versions (AL := annotation_lookup) (PD := deps)
              tls_versions plain no_context) as (_ & _ & Hdecoded).
  destruct (Hdecoded Hneed) as (tls & Htls & Hmin' & Hmax').
  exists tls. split; [exact Htls|].
  split; [exact (proj1 (Hmin' _ Hmin) Hbad)|exact (proj2 (Hmax' _ Hmax) Hgood)].
Defined.
End Checks.

(* ===================================================================== *)
(** * Part III: further properties of the engine                          *)
(* ===================================================================== *)

(** ** More on loops over maps *)

Section MoreMapLoops.
Context {K : Type} `{Countable K} {V : Type}.

Lemma elem_of_range {MR : MapRange} (m : gmap K V) (k : K) (v : V) :
  (k, v) ∈ range m <-> m !! k = Some v.
Proof. rewrite range_perm. apply elem_of_map_to_list. Qed.

Lemma length_range {MR : MapRange} (m : gmap K V) : length (range m) = size m.
Proof. rewrite range_perm. by rewrite length_map_to_list. Qed.

Lemma for_range_empty {MR : MapRange} {St} (body : K -> V -> St -> St) (s : St) :
  for_range (∅ : gmap K V) body s = s.
Proof. unfold for_range. by rewrite range_empty. Qed.

Lemma update_each_empty {MR : MapRange} (f : K -> V -> V) :
  update_each (∅ : gmap K V) f = ∅.
Proof. unfold update_each. apply for_range_empty. Qed.

(** A loop that files something of every entry under the entry's key
    builds the image of the map, whatever the order of the visit. *)
Lemma foldl_file_lookup {W} (f : V -> W) (l : list (K * V)) (acc : gmap K W) (k : K) :
  NoDup l.*1 ->
  foldl (fun acc kv => <[kv.1 := f kv.2]> acc) acc l !! k
  = match (list_to_map l : gmap K V) !! k with
    | Some v => Some (f v)
    | None => acc !! k
    end.
Proof.
  revert acc. induction l as [|[k' v'] l IH]; intros acc Hnd.
  - cbn [foldl list_to_map foldr]. by rewrite lookup_empty.
  - rewrite fmap_cons in Hnd. apply NoDup_cons in Hnd as [Hk' Hnd].
    cbn [foldl]. rewrite IH by done. rewrite list_to_map_cons. cbn [fst snd] in *.
    destruct (decide (k' = k)) as [->|Hne].
    + rewrite (not_elem_of_list_to_map_1 l k) by done.
      by rewrite !lookup_insert_eq.
    + by rewrite !lookup_insert_ne by done.
Qed.

Lemma for_range_file_pair {MR : MapRange} {W1 W2} (f : V -> W1) (g : V -> W2)
    (m : gmap K V) :
  for_range m (fun k v '(s, t) => (<[k := f v]> s, <[k := g v]> t)) (∅, ∅)
  = (f <$> m, g <$> m).
Proof.
  unfold for_range.
  assert (Hsplit : forall l s t,
    foldl (fun (st : gmap K W1 * gmap K W2) (kv : K * V) =>
             let '(s, t) := st in (<[kv.1 := f kv.2]> s, <[kv.1 := g kv.2]> t)) (s, t) l
    = (foldl (fun acc kv => <[kv.1 := f kv.2]> acc) s l,
       foldl (fun acc kv => <[kv.1 := g kv.2]> acc) t l)).
  { induction l as [|kv l IH]; intros s t; [reflexivity|]. cbn [foldl]. apply IH. }
  rewrite Hsplit. f_equal; apply map_eq; intros k;
    rewrite foldl_file_lookup by apply NoDup_fst_range;
    rewrite list_to_map_range, lookup_fmap, lookup_empty; by destruct (m !! k).
Qed.

(** A loop whose body only changes the entry it visits, possibly reading
    that entry of the map being built. *)
Lemma foldl_entrywise_lookup {W} (body : gmap K W -> K * V -> gmap K W)
    (upd : K -> V -> option W -> option W) (l : list (K * V)) (acc : gmap K W) (k : K) :
  (forall acc kv, body acc kv !! kv.1 = upd kv.1 kv.2 (acc !! kv.1)) ->
  (forall acc kv k', k' <> kv.1 -> body acc kv !! k' = acc !! k') ->
  NoDup l.*1 ->
  foldl body acc l !! k
  = match (list_to_map l : gmap K V) !! k with
    | Some v => upd k v (acc !! k)
    | None => acc !! k
    end.
Proof.
  intros Hsame Hother. revert acc. induction l as [|[k' v'] l IH]; intros acc Hnd.
  - cbn [foldl list_to_map foldr]. by rewrite lookup_empty.
  - rewrite fmap_cons in Hnd. apply NoDup_cons in Hnd as [Hk' Hnd].
    cbn [foldl]. rewrite IH by done. rewrite list_to_map_cons. cbn [fst snd] in *.
    destruct (decide (k' = k)) as [->|Hne].
    + rewrite (not_elem_of_list_to_map_1 l k) by done.
      rewrite lookup_insert_eq. apply (Hsame acc (k, v')).
    + rewrite lookup_insert_ne by done.
      rewrite (Hother acc (k', v') k) by (cbn; congruence). reflexivity.
Qed.
End MoreMapLoops.

Section MoreStore.
Context {C Handler : Type}.
Context {IC : IngressController C Handler} {HL : Helpers} {AH : AnnotationHandler}.
Context {EN : Encoders} {MR : MapRange} {AR : Arch}.
Implicit Types m : IngressConfig C Handler.

Lemma supported_kind_cases (kind : GroupVersionKind) :
  supported_kind kind = true ->
  kind = gvk.Gateway \/ kind = gvk.VirtualService
  \/ kind = gvk.DestinationRule \/ kind = gvk.EnvoyFilter.
Proof.
  unfold supported_kind. rewrite !orb_true_iff, !bool_decide_eq_true. tauto.
Qed.

(** X1: Registering a handler for a supported kind (VirtualService, Gateway,
    DestinationRule, EnvoyFilter) appends it to the handler list of that
    kind and to no other, and forwards the registration to every
    registered adapter; the three caches (routes, domains, filter
    patches), the watched-secret set, the downstream consumer and the
    store's identity are left alone. *)
Theorem RegisterEventHandler_supported m (kind : GroupVersionKind) (f : Handler) :
  supported_kind kind = true ->
  let m' := RegisterEventHandler kind f m in
  virtualServiceHandlers m'
  = virtualServiceHandlers m ++ (if bool_decide (kind = gvk.VirtualService) then [f] else [])
  /\ gatewayHandlers m'
     = gatewayHandlers m ++ (if bool_decide (kind = gvk.Gateway) then [f] else [])
  /\ destinationRuleHandlers m'
     = destinationRuleHandlers m
       ++ (if bool_decide (kind = gvk.DestinationRule) then [f] else [])
  /\ envoyFilterHandlers m'
     = envoyFilterHandlers m ++ (if bool_decide (kind = gvk.EnvoyFilter) then [f] else [])
  /\ (forall id, remoteIngressControllers m' !! id
                 = ctl_RegisterEventHandler kind f <$> remoteIngressControllers m !! id)
  /\ ingressRouteCache m' = ingressRouteCache m
  /\ ingressDomainCache m' = ingressDomainCache m
  /\ cachedEnvoyFilters m' = cachedEnvoyFilters m
  /\ watchedSecretSet m' = watchedSecretSet m
  /\ XDSUpdater m' = XDSUpdater m
  /\ globalGatewayName m' = globalGatewayName m
  /\ namespace m' = namespace m
  /\ clusterId m' = clusterId m.
Proof.
  intros Hk m'. subst m'.
  apply supported_kind_cases in Hk as [-> | [-> | [-> | ->]]];
    unfold RegisterEventHandler;
    repeat match goal with
           | |- context [bool_decide ?P] =>
               let b := eval vm_compute in (bool_decide P) in
               change (bool_decide P) with b
           end;
    cbn -[update_each]; rewrite ?app_nil_r; repeat split;
    intros id; by rewrite update_each_lookup.
Qed.

(** X2: The store reports synced exactly when every registered adapter
    does, whatever the iteration order. *)
Theorem HasSynced_iff_all_synced m :
  HasSynced m = true
  <-> forall id controller,
        remoteIngressControllers m !! id = Some controller ->
        ctl_HasSynced (Handler := Handler) controller = true.
Proof.
  unfold HasSynced. rewrite forallb_forall. split.
  - intros Hall id controller Hid.
    apply (Hall (id, controller)). apply list_elem_of_In, elem_of_range, Hid.
  - intros Hall [id controller] Hin. apply list_elem_of_In, elem_of_range in Hin.
    exact (Hall id controller Hin).
Qed.
End MoreStore.

(** ** Queries *)

Section Queries.
Context {C Handler : Type}.
Context {IC : IngressController C Handler} {HL : Helpers} {AH : AnnotationHandler}.
Context {EN : Encoders} {MR : MapRange} {AR : Arch}.
Implicit Types m : IngressConfig C Handler.

Lemma registration_unchanged_refl m : registration_unchanged m m.
Proof. repeat split. Qed.

Lemma createWrapperConfigs_store m (configs : list Config) :
  exists watched,
    (createWrapperConfigs m configs).2 = set_watchedSecretSet m watched.
Proof.
  unfold createWrapperConfigs.
  destruct (for_range _ _ _) as [secrets services].
  destruct (foldl _ _ configs) as [wrapperConfigs globalContext].
  by eexists.
Qed.

(** X3: Objects whose cluster has no registered adapter are skipped by every
    conversion pass: the pass runs as if they had not been listed. *)
Theorem each_config_skips_unregistered m
    (convert : C -> ConvertOptions -> WrapperConfig -> ConvertOptions * option error)
    (configs : list WrapperConfig) (convertOptions : ConvertOptions) :
  each_config m convert configs convertOptions
  = each_config m convert (List.filter (has_adapter m) configs) convertOptions.
Proof.
  unfold each_config. revert convertOptions.
  induction configs as [|cfg configs IH]; intros convertOptions; [reflexivity|].
  cbn [foldl List.filter]. unfold has_adapter at 1.
  destruct (remoteIngressControllers m
              !! GetClusterId (Meta_Annotations (Config_Meta (Config_ cfg))))
    as [ingressController|] eqn:Hctl.
  - rewrite bool_decide_eq_true_2 by (by eexists). cbn [foldl]. rewrite Hctl. apply IH.
  - rewrite bool_decide_eq_false_2 by (intros [? ?]; discriminate). apply IH.
Qed.

Lemma each_config_without_adapters m
    (convert : C -> ConvertOptions -> WrapperConfig -> ConvertOptions * option error)
    (configs : list WrapperConfig) (convertOptions : ConvertOptions) :
  remoteIngressControllers m = ∅ ->
  each_config m convert configs convertOptions = convertOptions.
Proof.
  intros Hm. unfold each_config. rewrite Hm. revert convertOptions.
  induction configs as [|cfg configs IH]; intros convertOptions; [reflexivity|].
  cbn [foldl]. rewrite lookup_empty. apply IH.
Qed.

Lemma createWrapperConfigs_parseEach m (configs : list Config) :
  createWrapperConfigs m configs
  = ((parseEach (initialContext m) configs).1,
     set_watchedSecretSet m (WatchedSecrets (parseEach (initialContext m) configs).2)).
Proof.
  unfold createWrapperConfigs. rewrite for_range_file_pair. fold (initialContext m).
  assert (Hgen : forall l wrapperConfigs globalContext,
    foldl
      (fun '(wrapperConfigs, globalContext) rawConfig =>
         let annotationsConfig :=
           {| Ingress_Meta :=
                {| Namespace := Meta_Namespace (Config_Meta rawConfig);
                   Ingress_Name := Meta_Name (Config_Meta rawConfig);
                   RawClusterId := GetRawClusterId (Meta_Annotations (Config_Meta rawConfig));
                   ClusterId := GetClusterId (Meta_Annotations (Config_Meta rawConfig)) |};
              Auth := None; Fallback := None; localRateLimit := None;
              DownstreamTLS := None |} in
         let '(annotationsConfig, globalContext, _) :=
           Parse (Meta_Annotations (Config_Meta rawConfig)) annotationsConfig globalContext in
         (wrapperConfigs ++
            [ {| Config_ := rawConfig; AnnotationsConfig := annotationsConfig |} ],
          globalContext))
      (wrapperConfigs, globalContext) l
    = (wrapperConfigs ++ (parseEach globalContext l).1, (parseEach globalContext l).2)).
  { induction l as [|rawConfig l IH]; intros wrapperConfigs globalContext.
    - cbn. by rewrite app_nil_r.
    - cbn [foldl parseEach]. cbv zeta. fold (initialIngress rawConfig).
      destruct (Parse _ (initialIngress rawConfig) globalContext)
        as [[annotationsConfig globalContext'] err].
      rewrite IH. destruct (parseEach globalContext' l) as [rest final].
      cbn [fst snd]. by rewrite <- app_assoc. }
  rewrite Hgen. reflexivity.
Qed.

(** X4: [createWrapperConfigs] decodes the objects one after the other, in
    the order given, each by one call of the annotation registry on the
    object's annotations and on a configuration holding its meta data
    only; the first call sees a global context without watched secret and
    with the listers of every registered adapter (whatever the iteration
    order), each later call the context its predecessor left.  Every
    object is wrapped, in order, with what its call decoded, also when the
    call returns an error; and nothing changes in the store but the
    watched-secret set, which is replaced by the set of the context the
    last call left (the empty set for an empty list). *)
Theorem createWrapperConfigs_wraps_in_order m (configs : list Config) :
  map Config_ (createWrapperConfigs m configs).1 = configs
  /\ (exists watched,
        (createWrapperConfigs m configs).2 = set_watchedSecretSet m watched)
  /\ (configs = [] -> (createWrapperConfigs m configs).2 = set_watchedSecretSet m ∅)
  /\ createWrapperConfigs m configs
     = ((parseEach (initialContext m) configs).1,
        set_watchedSecretSet m (WatchedSecrets (parseEach (initialContext m) configs).2)).
Proof.
  split; [|split; [apply createWrapperConfigs_store|split;
                   [|apply createWrapperConfigs_parseEach]]].
  - unfold createWrapperConfigs.
    destruct (for_range _ _ _) as [secrets services].
    match goal with |- context [foldl ?f _ configs] => set (step := f) end.
    assert (Hgen : forall l acc, map Config_ (foldl step acc l).1 = map Config_ acc.1 ++ l).
    { induction l as [|rawConfig l IH]; intros acc; cbn [foldl].
      - by rewrite app_nil_r.
      - rewrite IH. destruct acc as [wrapperConfigs globalContext]. subst step. cbn beta iota.
        destruct (Parse _ _ _) as [[annotationsConfig globalContext'] err].
        cbn [fst]. rewrite map_app. cbn [map Config_]. by rewrite <- app_assoc. }
    specialize (Hgen configs ([], {| WatchedSecrets := ∅; ClusterSecretLister := secrets;
                                     ClusterServiceList := services |})).
    destruct (foldl step _ configs) as [wrapperConfigs globalContext].
    exact Hgen.
  - intros ->. unfold createWrapperConfigs.
    destruct (for_range _ _ _) as [secrets services]. reflexivity.
Qed.

(** X5: The gateway conversion emits exactly one object per host of the
    gateway table: of the Gateway kind, in the store's namespace, named
    after the cleaned host, annotated with the cluster and the host, and
    carrying the gateway after annotations are applied.  It changes
    nothing in the store but the domain table. *)
Theorem convertGateways_one_per_host m (configs : list WrapperConfig) :
  let out := (convertGateways m configs).1 in
  length out = size (gatewayTable m configs)
  /\ (forall c, c ∈ out <->
        exists host wrapperGateway,
          gatewayTable m configs !! host = Some wrapperGateway
          /\ c = {| Config_Meta :=
                      {| Meta_GroupVersionKind := gvk.Gateway;
                         Meta_Name :=
                           CreateConvertedName
                             [IstioIngressGatewayName; CleanHost (WG_Host wrapperGateway)];
                         Meta_Namespace := namespace m;
                         Meta_Annotations :=
                           <[ClusterIdAnnotation := WG_ClusterId wrapperGateway]>
                             (<[HostAnnotation := WG_Host wrapperGateway]> ∅);
                         CreationTimestamp := 0 |};
                    Config_Spec :=
                      Spec_Gateway
                        (ApplyGateway (WG_Gateway wrapperGateway)
                           (AnnotationsConfig (WG_WrapperConfig wrapperGateway))) |})
  /\ (exists domains, (convertGateways m configs).2 = set_ingressDomainCache m domains).
Proof.
  intros out. subst out. unfold convertGateways. cbn [fst snd].
  rewrite for_range_append. cbn [CO_Gateways set_Gateways IngressDomainCache_].
  fold (gatewayTable m configs).
  set (table := gatewayTable m configs).
  set (applied := update_each table _).
  assert (Happlied : forall host, applied !! host = annotatedGateway <$> table !! host).
  { intros host. subst applied. by rewrite update_each_lookup. }
  split; [|split].
  - rewrite length_map, length_range.
    rewrite <- !size_dom. f_equal. apply set_eq. intros host.
    rewrite !elem_of_dom, Happlied. by rewrite fmap_is_Some.
  - intros c. rewrite list_elem_of_fmap. split.
    + intros ([host wg] & -> & Hin). apply elem_of_range in Hin.
      rewrite Happlied in Hin. apply fmap_Some in Hin as (wg0 & Hwg0 & ->).
      exists host, wg0. split; [exact Hwg0|reflexivity].
    + intros (host & wg & Hwg & ->). exists (host, annotatedGateway wg). split; [reflexivity|].
      apply elem_of_range. by rewrite Happlied, Hwg.
  - by eexists.
Qed.

(** X6: [List] never touches the registered adapters and handlers, never
    pushes downstream and never changes the store's identity; it returns
    either no error or the unsupported-operation error, and in the latter
    case an empty result and the store as it was. *)
Theorem List_leaves_registration m (typ : GroupVersionKind) (ns : string)
    (out : list Config) (err : option error) (m' : IngressConfig C Handler) :
  List m typ ns = Some (out, err, m') ->
  registration_unchanged m m'
  /\ (err = None \/ (err = Some ErrUnsupportedOp /\ out = [] /\ m' = m)).
Proof.
  unfold List. intros Hlist.
  destruct (_ && _); [injection Hlist as <- <- <-; split; [apply registration_unchanged_refl|auto]|].
  destruct (bool_decide (ns <> ""));
    [injection Hlist as <- <- <-; split; [apply registration_unchanged_refl|auto]|].
  destruct (bool_decide (typ = gvk.EnvoyFilter));
    [injection Hlist as <- <- <-; split; [apply registration_unchanged_refl|auto]|].
  destruct (createWrapperConfigs_store m
              (SortIngressByCreationTime
                 (for_range (remoteIngressControllers m)
                    (fun _ ingressController configs =>
                       configs ++ ctl_List (Handler := Handler) ingressController) [])))
    as [watched Hstore].
  destruct (createWrapperConfigs m _) as [wrapperConfigs m1]. cbn [snd] in Hstore. subst m1.
  destruct (bool_decide (typ = gvk.Gateway)).
  { unfold convertGateways in Hlist. injection Hlist as <- <- <-.
    split; [repeat split|auto]. }
  destruct (bool_decide (typ = gvk.VirtualService)).
  { unfold convertVirtualService in Hlist.
    destruct (for_range _ _ (Some _)) as [[cache httpRoutes]|]; [|discriminate].
    cbn [mbind option_bind] in Hlist.
    destruct (virtualServices _ _) as [vss|]; [|discriminate].
    cbn [mbind option_bind] in Hlist. injection Hlist as <- <- <-.
    split; [repeat split|auto]. }
  destruct (bool_decide (typ = gvk.DestinationRule));
    injection Hlist as <- <- <-; (split; [repeat split|auto]).
Qed.
End Queries.

(** ** Structural passes *)

Section StructuralPasses.
Context {C Handler : Type}.
Context {IC : IngressController C Handler} {HL : Helpers} {AH : AnnotationHandler}.
Context {EN : Encoders} {MR : MapRange} {AR : Arch}.
Implicit Types m : IngressConfig C Handler.

Ltac decide_kinds :=
  repeat match goal with
         | |- context [bool_decide ?P] =>
             let b := eval vm_compute in (bool_decide P) in
             change (bool_decide P) with b
         end.

(** X7: On a store without adapters, and with a sort that maps the empty list
    to itself, every listing is empty and without error; the pass still
    resets what it owns: the watched-secret set, and with it the domain
    table (gateways) or the route table and the filter cache (virtual
    services). *)
Theorem List_without_adapters m :
  remoteIngressControllers m = ∅ ->
  SortIngressByCreationTime [] = [] ->
  List m gvk.Gateway ""
  = Some ([], None, set_ingressDomainCache (set_watchedSecretSet m ∅) [])
  /\ List m gvk.VirtualService ""
     = Some ([], None,
             set_cachedEnvoyFilters (set_ingressRouteCache (set_watchedSecretSet m ∅) []) [])
  /\ List m gvk.DestinationRule "" = Some ([], None, set_watchedSecretSet m ∅).
Proof.
  intros Hm Hsort.
  assert (Hwrap : createWrapperConfigs m [] = ([], set_watchedSecretSet m ∅)).
  { unfold createWrapperConfigs. rewrite Hm, for_range_empty. reflexivity. }
  unfold List. decide_kinds. cbn [andb].
  rewrite Hm at 1 2 3. rewrite !for_range_empty, Hsort, Hwrap.
  unfold convertGateways, convertVirtualService, convertDestinationRule, applyAppRoot,
    applyInternalActiveRedirect, virtualServices, convertEnvoyFilter, derivedEnvoyFilters,
    basicAuthMappings, basicAuthRules, each_config, IngressDomainCache_Extract.
  repeat (cbn -[update_each for_range size range];
          rewrite ?update_each_empty, ?for_range_empty, ?map_size_empty).
  repeat split. do 3 f_equal. apply (range_empty (K := string) (V := string)).
Qed.

Lemma applyAppRoot_lookup (convertOptions : ConvertOptions) (host : string) :
  HTTPRoutes (applyAppRoot convertOptions) !! host
  = match VirtualServices convertOptions !! host with
    | Some wrapVS =>
        if bool_decide (AppRoot wrapVS <> "")
        then Some (appRootRoute host wrapVS :: default [] (HTTPRoutes convertOptions !! host))
        else HTTPRoutes convertOptions !! host
    | None => HTTPRoutes convertOptions !! host
    end.
Proof.
  unfold applyAppRoot, for_range. cbn [HTTPRoutes set_HTTPRoutes].
  rewrite (foldl_entrywise_lookup _
             (fun h wrapVS o =>
                if bool_decide (AppRoot wrapVS <> "")
                then Some (appRootRoute h wrapVS :: default [] o) else o)).
  - rewrite list_to_map_range. reflexivity.
  - intros acc [h wrapVS]. cbn [fst snd].
    destruct (bool_decide (AppRoot wrapVS <> "")); [|reflexivity].
    by rewrite lookup_insert_eq.
  - intros acc [h wrapVS] k' Hne. cbn [fst snd] in *.
    destruct (bool_decide (AppRoot wrapVS <> "")); [|reflexivity].
    by rewrite lookup_insert_ne.
  - apply NoDup_fst_range.
Qed.

(** X8: [applyAppRoot] acts host by host, whatever the iteration order: a host
    whose virtual service declares an app root gets the redirect route (exact
    path [/], code 302 to the app root, no destination) in front of its
    routes, the route list being created when the host had none; every
    other host keeps its routes; nothing else of the accumulator changes. *)
Theorem applyAppRoot_prepends_redirect (convertOptions : ConvertOptions) (host : string) :
  HTTPRoutes (applyAppRoot convertOptions) !! host
  = match VirtualServices convertOptions !! host with
    | Some wrapVS =>
        if bool_decide (AppRoot wrapVS <> "")
        then Some (appRootRoute host wrapVS :: default [] (HTTPRoutes convertOptions !! host))
        else HTTPRoutes convertOptions !! host
    | None => HTTPRoutes convertOptions !! host
    end
  /\ VirtualServices (applyAppRoot convertOptions) = VirtualServices convertOptions
  /\ IngressRouteCache_ (applyAppRoot convertOptions) = IngressRouteCache_ convertOptions.
Proof.
  split; [apply applyAppRoot_lookup|split; reflexivity].
Qed.


Lemma omap_all_None {A B} (f : A -> option B) (l : list A) :
  (forall x, x ∈ l -> f x = None) -> omap f l = [].
Proof.
  induction l as [|x l IH]; intros Hall; [reflexivity|].
  cbn [omap list_omap]. rewrite (Hall x) by apply list_elem_of_here.
  apply IH. intros y Hy. apply Hall. by apply list_elem_of_further.
Qed.

(** X9: The fallback splice adds one route per triggering route and nothing
    else; when no route of the table is a triggering one (marker and
    declared fallback target), the pass leaves the accumulator as it is. *)
Theorem applyInternalActiveRedirect_without_trigger (convertOptions : ConvertOptions) :
  (forall routes,
      length (spliceFallbackRoutes routes)
      = (length routes + length (omap fallbackCompanion routes))%nat)
  /\ ((forall host routes route,
          HTTPRoutes convertOptions !! host = Some routes ->
          route ∈ routes -> fallbackCompanion route = None) ->
      applyInternalActiveRedirect convertOptions = convertOptions).
Proof.
  split.
  - intros routes. rewrite spliceFallbackRoutes_spec, length_app, length_reverse. lia.
  - intros Hnone.
    assert (Hroutes : update_each (HTTPRoutes convertOptions)
                        (fun _ routes => spliceFallbackRoutes routes)
                      = HTTPRoutes convertOptions).
    { apply map_eq. intros host. rewrite update_each_lookup.
      destruct (HTTPRoutes convertOptions !! host) as [routes|] eqn:Hhost; [|reflexivity].
      cbn [fmap option_fmap option_map]. f_equal.
      rewrite spliceFallbackRoutes_spec, omap_all_None; [reflexivity|].
      intros route Hroute. exact (Hnone host routes route Hhost Hroute). }
    unfold applyInternalActiveRedirect. rewrite Hroutes. by destruct convertOptions.
Qed.
End StructuralPasses.

(** ** Weight normalization, continued *)

Section NormalizationExact.
Context {AR : Arch}.

Lemma near_floor_checked : near_floor_upto checked_total = true.
Proof. vm_cast_no_check (eq_refl true). Qed.

Lemma near_floor_upto_spec (bound w total : Z) :
  near_floor_upto bound = true ->
  0 <= w <= total -> 1 <= total <= bound -> near_floor w total = true.
Proof.
  unfold near_floor_upto. intros Hall Hw Ht.
  assert (Hin : In total (seqZ 1 bound))
    by (apply list_elem_of_In, elem_of_seqZ; lia).
  pose proof (proj1 (forallb_forall _ _) Hall total Hin) as Hrow. cbv beta in Hrow.
  apply (proj1 (forallb_forall _ _) Hrow w).
  apply list_elem_of_In, elem_of_seqZ. lia.
Qed.

Lemma near_floor_in_range (w total : Z) :
  0 <= w <= total -> 1 <= total <= checked_total -> near_floor w total = true.
Proof. exact (near_floor_upto_spec checked_total w total near_floor_checked). Qed.

Lemma percentage_range (w total : Z) :
  0 <= w <= total -> 1 <= total <= checked_total -> 0 <= percentage w total <= 100.
Proof.
  intros Hw Ht. pose proof (near_floor_in_range w total Hw Ht) as Hnf.
  unfold near_floor in Hnf. cbv zeta in Hnf.
  apply andb_true_iff in Hnf as [Hnf _]. apply andb_true_iff in Hnf as [H0 Hlow].
  apply Z.leb_le in H0, Hlow. split; [exact H0|].
  assert (Hle : percentage w total * total <= 100 * total) by nia.
  apply (Z.mul_le_mono_pos_r _ _ total); lia.
Qed.

(** X10: The share the code computes for a weight, in single precision, is
    the exact percentage rounded down or one less, and lies between 0
    and 100: for every total from 1 to [checked_total] and every weight
    from 0 to the total.  (The code divides and multiplies in float32;
    the quotient is rounded before it is scaled, which can lose one.) *)
Theorem percentage_near_floor (w total : Z) :
  0 <= w <= total -> 1 <= total <= checked_total ->
  spec_percentage w total - 1 <= percentage w total <= spec_percentage w total
  /\ 0 <= percentage w total <= 100.
Proof.
  intros Hw Ht. pose proof (near_floor_in_range w total Hw Ht) as Hnf.
  unfold near_floor in Hnf. cbv zeta in Hnf.
  apply andb_true_iff in Hnf as [Hnf Hup]. apply andb_true_iff in Hnf as [H0 Hlow].
  apply Z.leb_le in H0, Hlow. apply Z.ltb_lt in Hup.
  unfold spec_percentage.
  assert (Hle : percentage w total <= w * 100 / total)
    by (apply Z.div_le_lower_bound; lia).
  assert (Hlt : w * 100 / total < percentage w total + 2)
    by (apply Z.div_lt_upper_bound; lia).
  assert (Hq : w * 100 / total <= 100)
    by (apply Z.div_le_upper_bound; lia).
  lia.
Qed.

Lemma wrap_small (z : Z) : Int32.min_int <= z <= Int32.max_int -> Int32.wrap z = z.
Proof.
  unfold Int32.min_int, Int32.max_int, Int32.wrap. intros Hz.
  rewrite Z.mod_small by lia. lia.
Qed.

Lemma wrapping_sum_exact (ws : list Z) (acc : Z) :
  0 <= acc -> Forall (fun w => 0 <= w) ws -> acc + foldr Z.add 0 ws <= Int32.max_int ->
  foldl Int32.add acc ws = acc + foldr Z.add 0 ws.
Proof.
  revert acc. induction ws as [|w ws IH]; intros acc Hacc Hws Hsum; cbn [foldl foldr] in *.
  - lia.
  - apply Forall_cons in Hws as [Hw Hws].
    assert (Hrest : 0 <= foldr Z.add 0 ws).
    { clear -Hws. induction Hws; cbn [foldr]; lia. }
    unfold Int32.add at 2. rewrite wrap_small by (unfold Int32.min_int, Int32.max_int in *; lia).
    rewrite IH by (try done; lia). lia.
Qed.

Lemma scaled_total_bound (total : Z) (ds : list HTTPRouteDestination) :
  1 <= total <= checked_total ->
  Forall (fun d => 0 <= Weight d) ds -> weight_sum ds <= total ->
  Forall (fun w => 0 <= w <= 100) (map (fun d => percentage (Weight d) total) ds)
  /\ foldr Z.add 0 (map (fun d => percentage (Weight d) total) ds) * total
     <= 100 * weight_sum ds.
Proof.
  intros Ht. unfold weight_sum. induction ds as [|d ds IH]; intros Hds Hsum; cbn [map foldr] in *.
  - split; [constructor|lia].
  - apply Forall_cons in Hds as [Hd Hds].
    assert (Hrest : 0 <= foldr Z.add 0 (map Weight ds)).
    { clear -Hds. induction Hds; cbn [map foldr]; lia. }
    destruct (IH Hds) as [Hall Hprod]; [lia|].
    pose proof (near_floor_in_range (Weight d) total ltac:(lia) Ht) as Hnf.
    pose proof (percentage_range (Weight d) total ltac:(lia) Ht) as Hrange.
    unfold near_floor in Hnf. cbv zeta in Hnf.
    apply andb_true_iff in Hnf as [Hnf _]. apply andb_true_iff in Hnf as [_ Hlow].
    apply Z.leb_le in Hlow.
    split; [by constructor|]. lia.
Qed.

(** X11: With two or more destinations, non-negative declared weights and a
    total (the larger of the declared sum of the destinations after the
    first and the route's weight total) between 1 and [checked_total],
    normalization succeeds, keeps the number of destinations, and leaves
    every weight between 0 and 100 with the weights adding up to exactly
    100, no 32-bit wrap-around involved. *)
Theorem normalizeWeightedCluster_exact (cache : option IngressRouteCache)
    (route : WrapperHTTPRoute) (d0 d1 : HTTPRouteDestination)
    (ds : list HTTPRouteDestination) :
  destinations route = d0 :: d1 :: ds ->
  Forall (fun d => 0 <= Weight d) (d1 :: ds) ->
  1 <= Z.max (weight_sum (d1 :: ds)) (WeightTotal route) <= checked_total ->
  exists cache' route',
    normalizeWeightedCluster cache route = Some (cache', route')
    /\ length (destinations route') = length (destinations route)
    /\ Forall (fun d => 0 <= Weight d <= 100) (destinations route')
    /\ weight_sum (destinations route') = 100.
Proof.
  intros Hd Hnonneg Htotal.
  destruct (normalizeWeightedCluster_many cache route d0 d1 ds Hd) as [Hrun _].
  cbv zeta in Hrun. eexists _, _. split; [exact Hrun|].
  assert (Hsum0 : 0 <= weight_sum (d1 :: ds)).
  { unfold weight_sum. clear -Hnonneg. induction Hnonneg; cbn [map foldr]; lia. }
  assert (Hdeclared : foldl Int32.add 0 (map Weight (d1 :: ds)) = weight_sum (d1 :: ds)).
  { rewrite wrapping_sum_exact; unfold weight_sum in *; [lia|lia| |].
    - by apply Forall_fmap.
    - unfold Int32.max_int, checked_total in *. lia. }
  rewrite Hdeclared.
  set (total := if weight_sum (d1 :: ds) <? WeightTotal route
                then WeightTotal route else weight_sum (d1 :: ds)).
  assert (Htot : total = Z.max (weight_sum (d1 :: ds)) (WeightTotal route)).
  { subst total. destruct (Z.ltb_spec (weight_sum (d1 :: ds)) (WeightTotal route)); lia. }
  clearbody total.
  assert (Ht : 1 <= total <= checked_total) by lia.
  destruct (scaled_total_bound total (d1 :: ds) Ht Hnonneg
              ltac:(rewrite Htot; apply Z.le_max_l)) as [Hall Hprod].
  rewrite map_map. cbn [Weight set_Weight].
  set (ps := map (fun d => percentage (Weight d) total) (d1 :: ds)) in *.
  assert (Hps0 : 0 <= foldr Z.add 0 ps).
  { clear -Hall. induction Hall; cbn [foldr]; lia. }
  assert (Hps : foldr Z.add 0 ps <= 100).
  { assert (Hw : weight_sum (d1 :: ds) <= total) by (rewrite Htot; apply Z.le_max_l).
    apply (Z.mul_le_mono_pos_r _ _ total); lia. }
  assert (Hwrap : foldl Int32.add 0 ps = foldr Z.add 0 ps).
  { rewrite wrapping_sum_exact; [lia|lia| |unfold Int32.max_int; lia].
    eapply Forall_impl; [exact Hall|]. cbn. lia. }
  rewrite Hwrap. unfold Int32.sub.
  rewrite wrap_small by (unfold Int32.min_int, Int32.max_int; lia).
  unfold destinations, with_destinations. cbn [WHR_HTTPRoute set_HTTPRoute Route set_Route].
  fold (destinations route). rewrite Hd.
  split; [cbn [length]; by rewrite length_map|].
  split.
  - constructor; [cbn [Weight set_Weight]; lia|]. apply Forall_fmap.
    subst ps. apply Forall_fmap in Hall. eapply Forall_impl; [exact Hall|]. done.
  - unfold weight_sum. rewrite map_cons. cbn [foldr Weight set_Weight].
    rewrite map_map. cbn [Weight set_Weight]. fold ps. lia.
Qed.

(** The cache only observes: the route a call leaves does not depend on
    it, and the route is handed to the cache unless it has exactly one
    destination (the call returns before the update). *)
Lemma normalizeWeightedCluster_cache (cache : option IngressRouteCache)
    (route : WrapperHTTPRoute) :
  normalizeWeightedCluster cache route
  = route' ← normalized route;
    Some (match cache with
          | Some c =>
              Some (if bool_decide (length (destinations route) = 1%nat) then c
                    else IngressRouteCache_Update c route')
          | None => None
          end, route').
Proof.
  unfold normalized.
  destruct (destinations route) as [|d0 [|d1 ds]] eqn:Hd.
  - by rewrite !normalizeWeightedCluster_empty.
  - rewrite !(normalizeWeightedCluster_single _ route d0) by done.
    cbn. by destruct cache.
  - destruct (normalizeWeightedCluster_many cache route d0 d1 ds Hd) as [-> _].
    destruct (normalizeWeightedCluster_many None route d0 d1 ds Hd) as [-> _].
    cbn. by destruct cache.
Qed.

Lemma normalizeWeightedCluster_None (cache : option IngressRouteCache)
    (route : WrapperHTTPRoute) :
  normalizeWeightedCluster cache route = None <-> destinations route = [].
Proof.
  destruct (destinations route) as [|d0 [|d1 ds]] eqn:Hd.
  - by rewrite normalizeWeightedCluster_empty.
  - rewrite (normalizeWeightedCluster_single _ route d0) by done. split; intros [=].
  - destruct (normalizeWeightedCluster_many cache route d0 d1 ds Hd) as [Hrun _].
    cbv zeta in Hrun. rewrite Hrun. split; intros [=].
Qed.

Lemma normalizeWeightedCluster_length (cache cache' : option IngressRouteCache)
    (route route' : WrapperHTTPRoute) :
  normalizeWeightedCluster cache route = Some (cache', route') ->
  length (destinations route') = length (destinations route).
Proof.
  destruct (destinations route) as [|d0 [|d1 ds]] eqn:Hd.
  - by rewrite normalizeWeightedCluster_empty.
  - rewrite (normalizeWeightedCluster_single _ route d0) by done. by intros [= _ <-].
  - destruct (normalizeWeightedCluster_many cache route d0 d1 ds Hd) as [Hrun _].
    cbv zeta in Hrun. rewrite Hrun. intros [= _ <-].
    unfold destinations, with_destinations. cbn [WHR_HTTPRoute set_HTTPRoute Route set_Route].
    cbn [length]. by rewrite length_map.
Qed.

(** X12: Normalization panics exactly on a route without destinations;
    otherwise it changes nothing but the weights: the route keeps its
    destinations, in order, and every other field, and the new weights add
    up to 100 in 32-bit arithmetic. *)
Theorem normalizeWeightedCluster_only_weights (cache : option IngressRouteCache)
    (route : WrapperHTTPRoute) :
  (normalizeWeightedCluster cache route = None <-> destinations route = [])
  /\ (forall cache' route',
        normalizeWeightedCluster cache route = Some (cache', route') ->
        map Destination_ (destinations route') = map Destination_ (destinations route)
        /\ route' = with_destinations route (destinations route')
        /\ Int32.wrap (weight_sum (destinations route')) = 100).
Proof.
  destruct (destinations route) as [|d0 [|d1 ds]] eqn:Hd.
  - rewrite normalizeWeightedCluster_empty by done. split; [done|]. intros ? ? [=].
  - rewrite (normalizeWeightedCluster_single _ route d0) by done.
    split; [split; intros [=]|]. intros cache' route' [= <- <-].
    repeat split.
  - destruct (normalizeWeightedCluster_many cache route d0 d1 ds Hd) as [Hrun Hsum].
    cbv zeta in Hrun, Hsum. rewrite Hrun.
    split; [split; intros [=]|]. intros cache' route' [= <- <-].
    split; [|split; [reflexivity|exact Hsum]].
    unfold destinations at 1, with_destinations.
    cbn [WHR_HTTPRoute set_HTTPRoute Route set_Route map Destination_ set_Weight].
    do 2 f_equal. rewrite map_map. reflexivity.
Qed.

Lemma normalized_length (route route' : WrapperHTTPRoute) :
  normalized route = Some route' ->
  length (destinations route') = length (destinations route).
Proof.
  unfold normalized. intros Hn.
  destruct (normalizeWeightedCluster None route) as [[cache' r]|] eqn:Hrun; [|discriminate].
  injection Hn as ->.
  exact (normalizeWeightedCluster_length _ _ _ _ Hrun).
Qed.

Lemma normalizeRoutes_eq (cache : IngressRouteCache) (routes : list WrapperHTTPRoute) :
  normalizeRoutes cache routes
  = (fun routes' =>
       (cache ++ List.filter
                   (fun r => negb (bool_decide (length (destinations r) = 1%nat))) routes',
        routes')) <$> mapM normalized routes.
Proof.
  unfold normalizeRoutes.
  assert (Hgen : forall rs c done,
    foldl (fun acc route =>
             '(cache, done) ← acc;
             '(cache', route') ← normalizeWeightedCluster (Some cache) route;
             Some (default cache cache', done ++ [route']))
          (Some (c, done)) rs
    = (fun routes' =>
         (c ++ List.filter
                 (fun r => negb (bool_decide (length (destinations r) = 1%nat))) routes',
          done ++ routes')) <$> mapM normalized rs).
  { induction rs as [|route rs IH]; intros c done.
    - cbn. by rewrite !app_nil_r.
    - cbn [foldl mapM]. cbn [mbind option_bind].
      rewrite normalizeWeightedCluster_cache.
      destruct (normalized route) as [route'|] eqn:Hn; cbn [mbind option_bind].
      + rewrite IH. destruct (mapM normalized rs) as [rs'|]; cbn; [|done].
        rewrite (normalized_length _ _ Hn).
        unfold IngressRouteCache_Update.
        destruct (bool_decide (length (destinations route) = 1%nat)); cbn;
          by rewrite <- ?app_assoc.
      + clear. induction rs as [|r rs IH]; [done|]. exact IH. }
  rewrite Hgen. by destruct (mapM normalized routes).
Qed.

(** X13: The normalization of one host's routes panics exactly when one of
    them has no destination; otherwise it normalizes every route, in
    order, and hands to the cache, in order, the routes that do not have
    exactly one destination. *)
Theorem normalizeRoutes_spec (cache : IngressRouteCache) (routes : list WrapperHTTPRoute) :
  normalizeRoutes cache routes
  = (fun routes' =>
       (cache ++ List.filter
                   (fun r => negb (bool_decide (length (destinations r) = 1%nat))) routes',
        routes')) <$> mapM normalized routes
  /\ (normalizeRoutes cache routes = None
      <-> exists route, route ∈ routes /\ destinations route = []).
Proof.
  pose proof (normalizeRoutes_eq cache routes) as Heq.
  split; [exact Heq|].
  rewrite Heq, fmap_None. split.
  - intros Hnone. apply eq_None_not_Some in Hnone. rewrite mapM_is_Some in Hnone.
    apply not_Forall_Exists in Hnone; [|intros r; apply _].
    apply Exists_exists in Hnone as (route & Hin & Hfail). exists route. split; [done|].
    unfold compose, normalized in Hfail.
    destruct (normalizeWeightedCluster None route) as [p|] eqn:Hrun;
      [exfalso; apply Hfail; by eexists|].
    by apply (normalizeWeightedCluster_None None route).
  - intros (route & Hin & Hempty). apply eq_None_not_Some. rewrite mapM_is_Some.
    intros Hall. rewrite Forall_forall in Hall. destruct (Hall route Hin) as [r' Hr'].
    unfold normalized in Hr'. by rewrite normalizeWeightedCluster_empty in Hr'.
Qed.
End NormalizationExact.

(** ** Filter derivation, continued *)

Section BasicAuthRules.
Context {HL : Helpers}.

(** The inner step of the first loop of [convertEnvoyFilter]. *)
Lemma basicAuthMappings_flat {MR : MapRange} (convertOptions : ConvertOptions) :
  basicAuthMappings convertOptions
  = foldl
      (fun mappings route =>
         match protectedBy route with
         | None => mappings
         | Some auth =>
             match mappings !! authKey auth with
             | None =>
                 <[authKey auth := {| Realm := AuthRealm auth;
                                      MatchRoute := [Name (WHR_HTTPRoute route)];
                                      Rule_Credentials := Credentials auth;
                                      Encrypted := true |}]> mappings
             | Some rule =>
                 <[authKey auth := add_MatchRoute rule (Name (WHR_HTTPRoute route))]> mappings
             end
         end)
      ∅ (concat (range (HTTPRoutes convertOptions)).*2).
Proof.
  unfold basicAuthMappings, for_range.
  generalize (∅ : gmap string Rule) as acc.
  induction (range (HTTPRoutes convertOptions)) as [|[host routes] l IH]; intros acc.
  - reflexivity.
  - cbn [foldl fmap list_fmap concat fst snd]. rewrite foldl_app, IH. f_equal.
    clear. revert acc. induction routes as [|route routes IH]; intros acc; [reflexivity|].
    cbn [foldl]. rewrite IH. f_equal. unfold protectedBy, authKey.
    by destruct (strings_HasSuffix _ _).
Qed.

Lemma elem_of_concat_range {MR : MapRange} (table : gmap string (list WrapperHTTPRoute))
    (route : WrapperHTTPRoute) :
  route ∈ concat (range table).*2 <-> in_table table route.
Proof.
  unfold in_table. rewrite list_elem_of_In, in_concat. split.
  - intros (routes & Hin & Hroute). apply list_elem_of_In in Hin, Hroute.
    apply list_elem_of_fmap in Hin as ([host rs] & -> & Hin).
    apply elem_of_range in Hin. eauto.
  - intros (host & routes & Hhost & Hroute). exists routes.
    split; [|by apply list_elem_of_In].
    apply list_elem_of_In, list_elem_of_fmap. exists (host, routes).
    split; [done|]. by apply elem_of_range.
Qed.

Lemma grouped_step (seen : list WrapperHTTPRoute) (mappings : gmap string Rule)
    (route : WrapperHTTPRoute) :
  grouped seen mappings ->
  grouped (seen ++ [route])
    (match protectedBy route with
     | None => mappings
     | Some auth =>
         match mappings !! authKey auth with
         | None =>
             <[authKey auth := {| Realm := AuthRealm auth;
                                  MatchRoute := [Name (WHR_HTTPRoute route)];
                                  Rule_Credentials := Credentials auth;
                                  Encrypted := true |}]> mappings
         | Some rule =>
             <[authKey auth := add_MatchRoute rule (Name (WHR_HTTPRoute route))]> mappings
         end
     end).
Proof.
  intros [Hsound Hcomplete].
  assert (Hweaken : forall r, r ∈ seen -> r ∈ seen ++ [route])
    by (intros r Hr; apply elem_of_app; by left).
  assert (Hlast : route ∈ seen ++ [route])
    by (apply elem_of_app; right; apply list_elem_of_here).
  destruct (protectedBy route) as [auth|] eqn:Hprot.
  - destruct (mappings !! authKey auth) as [rule|] eqn:Hkey; split.
    + intros key rule' Hlook. destruct (decide (authKey auth = key)) as [<-|Hne].
      * rewrite lookup_insert_eq in Hlook. injection Hlook as <-.
        destruct (Hsound _ _ Hkey) as (Henc & Hne & (r0 & a0 & Hr0 & Hp0 & Hk0 & Hre & Hcr) & Hnames).
        split; [exact Henc|]. split; [cbn; by destruct (MatchRoute rule)|].
        split; [exists r0, a0; auto 10|].
        intros name Hname. cbn in Hname. apply elem_of_app in Hname as [Hname|Hname].
        -- destruct (Hnames name Hname) as (r & a & Hr & Hn & Hp & Hk). exists r, a. auto.
        -- apply list_elem_of_singleton in Hname as ->. exists route, auth. auto.
      * rewrite lookup_insert_ne in Hlook by done.
        destruct (Hsound _ _ Hlook) as (Henc & Hnonempty & (r0 & a0 & Hr0 & Hrest) & Hnames).
        split; [exact Henc|]. split; [exact Hnonempty|]. split; [exists r0, a0; auto|].
        intros name Hname. destruct (Hnames name Hname) as (r & a & Hr & Hrest').
        exists r, a. auto.
    + intros r a Hr Hp. apply elem_of_app in Hr as [Hr|Hr].
      * destruct (Hcomplete r a Hr Hp) as (rule' & Hlook & Hin).
        destruct (decide (authKey auth = authKey a)) as [Heq|Hne].
        -- rewrite <- Heq in *. rewrite Hkey in Hlook. injection Hlook as <-.
           eexists. rewrite lookup_insert_eq. split; [reflexivity|].
           cbn. apply elem_of_app. by left.
        -- exists rule'. by rewrite lookup_insert_ne.
      * apply list_elem_of_singleton in Hr as ->. rewrite Hprot in Hp. injection Hp as <-.
        eexists. rewrite lookup_insert_eq. split; [reflexivity|].
        cbn. apply elem_of_app. right. apply list_elem_of_here.
    + intros key rule' Hlook. destruct (decide (authKey auth = key)) as [<-|Hne].
      * rewrite lookup_insert_eq in Hlook. injection Hlook as <-. cbn.
        split; [done|]. split; [done|]. split; [exists route, auth; auto 10|].
        intros name Hname. apply list_elem_of_singleton in Hname as ->.
        exists route, auth. auto.
      * rewrite lookup_insert_ne in Hlook by done.
        destruct (Hsound _ _ Hlook) as (Henc & Hnonempty & (r0 & a0 & Hr0 & Hrest) & Hnames).
        split; [exact Henc|]. split; [exact Hnonempty|]. split; [exists r0, a0; auto|].
        intros name Hname. destruct (Hnames name Hname) as (r & a & Hr & Hrest').
        exists r, a. auto.
    + intros r a Hr Hp. apply elem_of_app in Hr as [Hr|Hr].
      * destruct (Hcomplete r a Hr Hp) as (rule' & Hlook & Hin).
        destruct (decide (authKey auth = authKey a)) as [Heq|Hne].
        -- rewrite <- Heq in Hlook. rewrite Hkey in Hlook. discriminate.
        -- exists rule'. by rewrite lookup_insert_ne.
      * apply list_elem_of_singleton in Hr as ->. rewrite Hprot in Hp. injection Hp as <-.
        eexists. rewrite lookup_insert_eq. split; [reflexivity|]. cbn. apply list_elem_of_here.
  - split.
    + intros key rule Hlook.
      destruct (Hsound _ _ Hlook) as (Henc & Hnonempty & (r0 & a0 & Hr0 & Hrest) & Hnames).
      split; [exact Henc|]. split; [exact Hnonempty|]. split; [exists r0, a0; auto|].
      intros name Hname. destruct (Hnames name Hname) as (r & a & Hr & Hrest').
      exists r, a. auto.
    + intros r a Hr Hp. apply elem_of_app in Hr as [Hr|Hr]; [by apply Hcomplete|].
      apply list_elem_of_singleton in Hr as ->. congruence.
Qed.

Lemma grouped_foldl (routes seen : list WrapperHTTPRoute) (mappings : gmap string Rule) :
  grouped seen mappings ->
  grouped (seen ++ routes)
    (foldl
       (fun mappings route =>
          match protectedBy route with
          | None => mappings
          | Some auth =>
              match mappings !! authKey auth with
              | None =>
                  <[authKey auth := {| Realm := AuthRealm auth;
                                       MatchRoute := [Name (WHR_HTTPRoute route)];
                                       Rule_Credentials := Credentials auth;
                                       Encrypted := true |}]> mappings
              | Some rule =>
                  <[authKey auth := add_MatchRoute rule (Name (WHR_HTTPRoute route))]> mappings
              end
          end)
       mappings routes).
Proof.
  revert seen mappings. induction routes as [|route routes IH]; intros seen mappings Hg.
  - by rewrite app_nil_r.
  - cbn [foldl]. rewrite (cons_middle route seen routes), app_assoc.
    apply IH. by apply grouped_step.
Qed.

Lemma basicAuthMappings_grouped {MR : MapRange} (convertOptions : ConvertOptions) :
  grouped (concat (range (HTTPRoutes convertOptions)).*2) (basicAuthMappings convertOptions).
Proof.
  rewrite basicAuthMappings_flat. apply (grouped_foldl _ [] ∅). split.
  - intros key rule Hlook. by rewrite lookup_empty in Hlook.
  - intros route auth Hin. by apply elem_of_nil in Hin.
Qed.

(** X14: The basic-auth rule table groups the protected routes by auth secret
    and realm, whatever the iteration order: every rule is marked
    encrypted, carries the realm and credentials of a protected route
    grouped under its key, and lists only names of protected routes of the
    route table with that key (never a route whose name ends in
    app-root, never a route without auth config); and every protected
    route of the table is listed by the rule of its key. *)
Theorem basicAuthMappings_groups_protected_routes {MR : MapRange}
    (convertOptions : ConvertOptions) :
  let table := HTTPRoutes convertOptions in
  let mappings := basicAuthMappings convertOptions in
  (forall key rule, mappings !! key = Some rule ->
     Encrypted rule = true /\ MatchRoute rule <> []
     /\ (exists route auth,
           in_table table route /\ protectedBy route = Some auth /\ authKey auth = key
           /\ Realm rule = AuthRealm auth /\ Rule_Credentials rule = Credentials auth)
     /\ (forall name, name ∈ MatchRoute rule ->
           exists route auth,
             in_table table route /\ Name (WHR_HTTPRoute route) = name
             /\ protectedBy route = Some auth /\ authKey auth = key))
  /\ (forall route auth, in_table table route -> protectedBy route = Some auth ->
        exists rule, mappings !! authKey auth = Some rule
                     /\ Name (WHR_HTTPRoute route) ∈ MatchRoute rule)
  /\ Rules (basicAuthRules convertOptions) ≡ₚ (map_to_list mappings).*2.
Proof.
  intros table mappings.
  destruct (basicAuthMappings_grouped convertOptions) as [Hsound Hcomplete].
  split; [|split].
  - intros key rule Hlook.
    destruct (Hsound key rule Hlook) as (Henc & Hne & (r0 & a0 & Hr0 & Hrest) & Hnames).
    split; [exact Henc|]. split; [exact Hne|]. split.
    + exists r0, a0. split; [by apply elem_of_concat_range|exact Hrest].
    + intros name Hname. destruct (Hnames name Hname) as (r & a & Hr & Hrest').
      exists r, a. split; [by apply elem_of_concat_range|exact Hrest'].
  - intros route auth Hin Hp. apply (Hcomplete route auth); [|done].
    by apply elem_of_concat_range.
  - unfold basicAuthRules. cbn [Rules]. rewrite for_range_append.
    fold mappings. rewrite range_perm. reflexivity.
Qed.
End BasicAuthRules.

Section FilterShape.
Context {HL : Helpers} {EN : Encoders} {MR : MapRange}.

Lemma constructBasicAuthEnvoyFilter_Ok (rules : BasicAuthRules) (ns : string) (c : Config) :
  constructBasicAuthEnvoyFilter rules ns = Ok c ->
  exists value, c = basicAuthFilter ns value.
Proof.
  unfold constructBasicAuthEnvoyFilter.
  destruct (json_Marshal rules) as [rulesStr|]; [|discriminate].
  destruct (anypb_New _) as [wasmAny|]; [|discriminate].
  destruct (MessageToGoGoStruct _) as [value|]; [|discriminate].
  intros [= <-]. by exists value.
Qed.

(** X15: A pass derives at most one filter patch: the basic-auth patch, named
    after the ingress gateway, in the namespace given, inserted after the
    CORS filter of the gateway's HTTP connection manager.  It derives none
    when the route table has no protected route, whatever the encoders
    do; and it derives exactly the constructed patch when the table has a
    protected route and the construction succeeds. *)
Theorem derivedEnvoyFilters_shape (convertOptions : ConvertOptions) (ns : string) :
  let out := derivedEnvoyFilters convertOptions ns in
  (length out <= 1)%nat
  /\ (forall c, c ∈ out -> exists value, c = basicAuthFilter ns value)
  /\ ((forall route, in_table (HTTPRoutes convertOptions) route -> protectedBy route = None) ->
      out = [])
  /\ (forall route auth c,
        in_table (HTTPRoutes convertOptions) route -> protectedBy route = Some auth ->
        constructBasicAuthEnvoyFilter (basicAuthRules convertOptions) ns = Ok c ->
        out = [c]).
Proof.
  intros out. subst out. unfold derivedEnvoyFilters.
  destruct (basicAuthMappings_grouped convertOptions) as [Hsound Hcomplete].
  split; [|split; [|split]].
  - destruct (0 <? size _)%nat; [|cbn; lia].
    destruct (constructBasicAuthEnvoyFilter _ _); cbn; lia.
  - intros c Hc. destruct (0 <? size _)%nat; [|by apply elem_of_nil in Hc].
    destruct (constructBasicAuthEnvoyFilter _ _) as [c'|] eqn:Hrun;
      [|by apply elem_of_nil in Hc].
    apply list_elem_of_singleton in Hc as ->.
    by apply (constructBasicAuthEnvoyFilter_Ok _ _ _ Hrun).
  - intros Hnone.
    assert (Hempty : basicAuthMappings convertOptions = ∅).
    { apply map_empty. intros key.
      destruct (basicAuthMappings convertOptions !! key) as [rule|] eqn:Hkey; [|done].
      destruct (Hsound key rule Hkey) as (_ & _ & (route & auth & Hin & Hp & _) & _).
      apply elem_of_concat_range in Hin. rewrite (Hnone route Hin) in Hp. discriminate. }
    rewrite Hempty, map_size_empty. reflexivity.
  - intros route auth c Hin Hp Hrun.
    apply elem_of_concat_range in Hin.
    destruct (Hcomplete route auth Hin Hp) as (rule & Hkey & _).
    assert (Hsize : (0 <? size (basicAuthMappings convertOptions))%nat = true).
    { apply Nat.ltb_lt. destruct (size _) eqn:Hs; [|lia].
      apply map_size_empty_inv in Hs. rewrite Hs, lookup_empty in Hkey. discriminate. }
    rewrite Hsize, Hrun. reflexivity.
Qed.
End FilterShape.

(** ** Virtual-service assembly *)

Section Assembly.
Context {C Handler : Type}.
Context {IC : IngressController C Handler} {HL : Helpers} {AH : AnnotationHandler}.
Context {EN : Encoders} {MR : MapRange} {AR : Arch}.
Implicit Types m : IngressConfig C Handler.

Lemma collect_mapM {A B} (g : A -> option (list B)) (l : list A) :
  foldr (fun x rest => item ← g x; rest ← rest; Some (item ++ rest)) (Some []) l
  = @concat B <$> mapM g l.
Proof.
  induction l as [|x l IH]; [reflexivity|].
  cbn [foldr mapM]. rewrite IH. destruct (g x) as [item|]; [|reflexivity].
  cbn. by destruct (mapM g l).
Qed.

(** X16: The virtual-service assembly panics exactly when a host with routes
    has no entry in the virtual-service table.  Otherwise it emits, for
    every host with a non-empty route list and for no other, one object of
    the VirtualService kind in the store's namespace: named after the
    object of the host's first route and the cleaned host, annotated with
    that route's cluster, bound to the host's own gateway, the ingress
    gateway and (unless the host is the wildcard) the global gateway, and
    carrying the entry's routes followed by the host's routes in order. *)
Theorem virtualServices_one_per_routed_host m (convertOptions : ConvertOptions) :
  (virtualServices m convertOptions = None
   <-> exists host firstRoute rest,
         HTTPRoutes convertOptions !! host = Some (firstRoute :: rest)
         /\ VirtualServices convertOptions !! host = None)
  /\ (forall out, virtualServices m convertOptions = Some out ->
        forall c, c ∈ out <->
          exists host firstRoute rest wrapperVS,
            HTTPRoutes convertOptions !! host = Some (firstRoute :: rest)
            /\ VirtualServices convertOptions !! host = Some wrapperVS
            /\ c = {| Config_Meta :=
                        {| Meta_GroupVersionKind := gvk.VirtualService;
                           Meta_Name :=
                             CreateConvertedName
                               [ IstioIngressGatewayName;
                                 Meta_Namespace
                                   (Config_Meta (Config_ (WHR_WrapperConfig firstRoute)));
                                 Meta_Name
                                   (Config_Meta (Config_ (WHR_WrapperConfig firstRoute)));
                                 CleanHost host ];
                           Meta_Namespace := namespace m;
                           Meta_Annotations :=
                             {[ ClusterIdAnnotation := WHR_ClusterId firstRoute ]};
                           CreationTimestamp := 0 |};
                      Config_Spec :=
                        Spec_VirtualService
                          {| Hosts := Hosts (WVS_VirtualService wrapperVS);
                             Gateways := boundGateways m host;
                             Http := Http (WVS_VirtualService wrapperVS)
                                     ++ map WHR_HTTPRoute (firstRoute :: rest);
                             HostHTTPFilters :=
                               HostHTTPFilters (WVS_VirtualService wrapperVS) |} |}).
Proof.
  set (g := fun kv : string * list WrapperHTTPRoute =>
              match kv.2 with
              | [] => Some []
              | firstRoute :: _ =>
                  vs ← virtualServiceConfig m convertOptions kv.1 kv.2 firstRoute; Some [vs]
              end).
  assert (Heq : virtualServices m convertOptions
                = @concat Config <$> mapM g (range (HTTPRoutes convertOptions))).
  { unfold virtualServices, for_range. rewrite virtualServices_from.
    cbn [mbind option_bind]. rewrite (collect_mapM g).
    destruct (mapM g _); reflexivity. }
  assert (Hg : forall host routes item,
             g (host, routes) = Some item ->
             forall c, c ∈ item <->
               exists firstRoute rest wrapperVS,
                 routes = firstRoute :: rest
                 /\ VirtualServices convertOptions !! host = Some wrapperVS
                 /\ virtualServiceConfig m convertOptions host routes firstRoute = Some c).
  { intros host routes item Hitem c. subst g. cbn [fst snd] in Hitem.
    destruct routes as [|firstRoute rest].
    - injection Hitem as <-. split; [intros Hc; by apply elem_of_nil in Hc|].
      intros (? & ? & ? & [=] & _).
    - destruct (virtualServiceConfig m convertOptions host _ firstRoute) as [vs|] eqn:Hvs;
        [|discriminate].
      injection Hitem as <-. rewrite list_elem_of_singleton. split.
      + intros ->. unfold virtualServiceConfig in Hvs.
        destruct (VirtualServices convertOptions !! host) as [wrapperVS|] eqn:Hw;
          [|discriminate].
        exists firstRoute, rest, wrapperVS. repeat split.
        unfold virtualServiceConfig. by rewrite Hw.
      + intros (f & r & w & [= <- <-] & _ & Hc). congruence. }
  rewrite Heq. split.
  - rewrite fmap_None, eq_None_not_Some, mapM_is_Some. split.
    + intros Hnot. apply not_Forall_Exists in Hnot; [|intros x; apply _].
      apply Exists_exists in Hnot as ([host routes] & Hin & Hfail).
      apply elem_of_range in Hin. unfold compose in Hfail. subst g. cbn [fst snd] in Hfail.
      destruct routes as [|firstRoute rest]; [exfalso; apply Hfail; by eexists|].
      exists host, firstRoute, rest. split; [done|].
      unfold virtualServiceConfig in Hfail.
      destruct (VirtualServices convertOptions !! host); [|done].
      exfalso. apply Hfail. by eexists.
    + intros (host & firstRoute & rest & Hhost & Hvs) Hall.
      rewrite Forall_forall in Hall.
      destruct (Hall (host, firstRoute :: rest)) as [item Hitem]; [by apply elem_of_range|].
      subst g. cbn [fst snd] in Hitem. unfold virtualServiceConfig in Hitem.
      rewrite Hvs in Hitem. discriminate.
  - intros out Hout c. apply fmap_Some in Hout as (items & Hitems & ->).
    apply mapM_Some in Hitems.
    rewrite list_elem_of_In, in_concat. split.
    + intros (item & Hitem & Hc). apply list_elem_of_In in Hitem, Hc.
      apply list_elem_of_lookup in Hitem as [i Hi].
      destruct (Forall2_lookup_r _ _ _ _ _ Hitems Hi) as ([host routes] & Hkv & Hgkv).
      apply list_elem_of_lookup_2, elem_of_range in Hkv.
      destruct (proj1 (Hg host routes item Hgkv c) Hc)
        as (firstRoute & rest & wrapperVS & Hroutes & Hw & Hcfg).
      subst routes.
      exists host, firstRoute, rest, wrapperVS. split; [done|]. split; [done|].
      unfold virtualServiceConfig in Hcfg. rewrite Hw in Hcfg.
      cbn [mbind option_bind] in Hcfg. cbv zeta in Hcfg.
      injection Hcfg as Hcfg. rewrite <- Hcfg. unfold boundGateways.
      by destruct (bool_decide (host <> "*")).
    + intros (host & firstRoute & rest & wrapperVS & Hhost & Hw & ->).
      apply elem_of_range, list_elem_of_lookup in Hhost as [i Hi].
      destruct (Forall2_lookup_l _ _ _ _ _ Hitems Hi) as (item & Hitem & Hgkv).
      exists item. split; [apply list_elem_of_In; by eapply list_elem_of_lookup_2|].
      apply list_elem_of_In. apply (Hg host _ item Hgkv).
      exists firstRoute, rest, wrapperVS. split; [done|]. split; [done|].
      unfold virtualServiceConfig, boundGateways. rewrite Hw.
      by destruct (bool_decide (host <> "*")).
Qed.
End Assembly.

(** ** Destination rules *)

Section DestinationRules.
Context {C Handler : Type}.
Context {IC : IngressController C Handler} {HL : Helpers} {AH : AnnotationHandler}.
Context {MR : MapRange}.
Implicit Types m : IngressConfig C Handler.

Lemma policiesOf_snoc (host : string) (visited : list (ServiceKey * WrapperTrafficPolicy))
    (kv : ServiceKey * WrapperTrafficPolicy) :
  policiesOf host (visited ++ [kv])
  = policiesOf host visited
    ++ (if decide (serviceFQDN kv.1 = host) then [WTP_TrafficPolicy kv.2] else []).
Proof.
  unfold policiesOf. rewrite filter_app, !fmap_app. f_equal.
  destruct (decide (serviceFQDN kv.1 = host)) as [Heq|Hne].
  - by rewrite filter_cons_True.
  - by rewrite filter_cons_False.
Qed.

Lemma policiesOf_unvisited (host : string)
    (visited : list (ServiceKey * WrapperTrafficPolicy)) :
  (forall kv, kv ∈ visited -> serviceFQDN kv.1 <> host) -> policiesOf host visited = [].
Proof.
  intros Hnone. unfold policiesOf.
  induction visited as [|kv visited IH]; [reflexivity|].
  rewrite filter_cons_False by (apply Hnone; left).
  apply IH. intros kv' Hin. apply Hnone. by right.
Qed.

Lemma merged_step (visited : list (ServiceKey * WrapperTrafficPolicy))
    (destinationRules : gmap string WrapperDestinationRule)
    (kv : ServiceKey * WrapperTrafficPolicy) :
  merged visited destinationRules ->
  merged (visited ++ [kv])
    (<[serviceFQDN kv.1 :=
         match destinationRules !! serviceFQDN kv.1 with
         | None =>
             {| WDR_DestinationRule :=
                  {| DestinationRule_Host := serviceFQDN kv.1;
                     TrafficPolicy_ :=
                       {| PortLevelSettings := [WTP_TrafficPolicy kv.2] |} |};
                WDR_WrapperConfig := WTP_WrapperConfig kv.2;
                WDR_ServiceKey := kv.1 |}
         | Some dr => add_PortLevelSettings dr (WTP_TrafficPolicy kv.2)
         end]> destinationRules).
Proof.
  intros [Hrules Hvisited]. split.
  - intros name dr. destruct (decide (serviceFQDN kv.1 = name)) as [Heq|Hne].
    + subst name. rewrite lookup_insert_eq. intros [= <-].
      rewrite policiesOf_snoc, decide_True by done.
      destruct (destinationRules !! serviceFQDN kv.1) as [old|] eqn:Hold.
      * destruct (Hrules _ _ Hold) as (Hhost & Hkey & (wtp & Hin) & Hports).
        cbn. repeat split; [done|done| |by rewrite Hports].
        exists wtp. apply elem_of_app. by left.
      * cbn. repeat split.
        -- exists kv.2. apply elem_of_app. right. destruct kv. by left.
        -- rewrite policiesOf_unvisited; [done|].
           intros kv' Hin Heq. destruct (Hvisited kv' Hin) as [dr Hdr].
           rewrite Heq, Hold in Hdr. discriminate.
    + rewrite lookup_insert_ne by done. intros Hdr.
      destruct (Hrules _ _ Hdr) as (Hhost & Hkey & (wtp & Hin) & Hports).
      repeat split; [done|done| |].
      * exists wtp. apply elem_of_app. by left.
      * rewrite policiesOf_snoc, decide_False, app_nil_r by done. done.
  - intros kv' Hin. destruct (decide (serviceFQDN kv.1 = serviceFQDN kv'.1)) as [Heq|Hne].
    + rewrite <- Heq, lookup_insert_eq. by eexists.
    + rewrite lookup_insert_ne by done. apply Hvisited.
      apply elem_of_app in Hin as [Hin|Hin]; [done|].
      apply list_elem_of_singleton in Hin. by subst kv'.
Qed.

Lemma merged_foldl (entries visited : list (ServiceKey * WrapperTrafficPolicy))
    (destinationRules : gmap string WrapperDestinationRule) :
  merged visited destinationRules ->
  merged (visited ++ entries)
    (foldl
       (fun destinationRules kv =>
          <[serviceFQDN kv.1 :=
              match destinationRules !! serviceFQDN kv.1 with
              | None =>
                  {| WDR_DestinationRule :=
                       {| DestinationRule_Host := serviceFQDN kv.1;
                          TrafficPolicy_ :=
                            {| PortLevelSettings := [WTP_TrafficPolicy kv.2] |} |};
                     WDR_WrapperConfig := WTP_WrapperConfig kv.2;
                     WDR_ServiceKey := kv.1 |}
              | Some dr => add_PortLevelSettings dr (WTP_TrafficPolicy kv.2)
              end]> destinationRules)
       destinationRules entries).
Proof.
  revert visited destinationRules.
  induction entries as [|kv entries IH]; intros visited destinationRules Hm.
  - by rewrite app_nil_r.
  - cbn [foldl]. rewrite (cons_middle kv visited entries), app_assoc.
    apply IH. by apply merged_step.
Qed.

(** X17: Destination rules are merged per service host, whatever the iteration
    order.  Every emitted object is of the DestinationRule kind, in the
    store's namespace, named after the cluster and one service key of the
    traffic-policy table; its host is that service's FQDN; and its
    port-level settings are, up to order, exactly the policies the table
    holds for the service keys of that host, none lost and none
    duplicated.  Every service key of the table has a rule for its host,
    and no two emitted rules share a host. *)
Theorem convertDestinationRule_merges_per_host m (configs : list WrapperConfig) :
  let table := trafficPolicyTable m configs in
  let out := convertDestinationRule m configs in
  (forall c, c ∈ out ->
     exists key wtp dr,
       table !! key = Some wtp
       /\ c = {| Config_Meta :=
                   {| Meta_GroupVersionKind := gvk.DestinationRule;
                      Meta_Name :=
                        CreateConvertedName
                          [ IstioIngressGatewayName;
                            CreateDestinationRuleName (clusterId m)
                              (ServiceKey_Namespace key) (ServiceKey_Name key) ];
                      Meta_Namespace := namespace m;
                      Meta_Annotations := ∅;
                      CreationTimestamp := 0 |};
                 Config_Spec := Spec_DestinationRule dr |}
       /\ DestinationRule_Host dr = serviceFQDN key
       /\ PortLevelSettings (TrafficPolicy_ dr)
          ≡ₚ policiesOf (serviceFQDN key) (map_to_list table))
  /\ (forall key wtp, table !! key = Some wtp ->
        exists c, c ∈ out /\ ruleHost c = Some (serviceFQDN key))
  /\ NoDup (ruleHost <$> out).
Proof.
  intros table out.
  set (object := fun dr : WrapperDestinationRule =>
         {| Config_Meta :=
              {| Meta_GroupVersionKind := gvk.DestinationRule;
                 Meta_Name :=
                   CreateConvertedName
                     [ IstioIngressGatewayName;
                       CreateDestinationRuleName (clusterId m)
                         (ServiceKey_Namespace (WDR_ServiceKey dr))
                         (ServiceKey_Name (WDR_ServiceKey dr)) ];
                 Meta_Namespace := namespace m;
                 Meta_Annotations := ∅;
                 CreationTimestamp := 0 |};
            Config_Spec := Spec_DestinationRule (WDR_DestinationRule dr) |}).
  assert (Hout : exists destinationRules,
             merged (range table) destinationRules
             /\ out = map (fun kv => object kv.2) (range destinationRules)).
  { eexists. split; [|subst out; unfold convertDestinationRule; cbv zeta;
                      rewrite for_range_append; reflexivity].
    cbn [Service2TrafficPolicy set_Service2TrafficPolicy]. fold (trafficPolicyTable m configs).
    fold table. unfold for_range. apply (merged_foldl _ [] ∅). split.
    - intros name dr Hdr. by rewrite lookup_empty in Hdr.
    - intros kv Hin. by apply elem_of_nil in Hin. }
  destruct Hout as (destinationRules & [Hrules Hvisited] & Hout). clearbody out. subst out.
  split; [|split].
  - intros c Hc. apply list_elem_of_fmap in Hc as ([name dr] & -> & Hin).
    apply elem_of_range in Hin.
    destruct (Hrules _ _ Hin) as (Hhost & Hkey & (wtp & Hwtp) & Hports).
    apply elem_of_range in Hwtp.
    exists (WDR_ServiceKey dr), wtp, (WDR_DestinationRule dr).
    split; [done|]. split; [reflexivity|]. split; [by rewrite Hkey|].
    cbn [snd]. rewrite Hports, Hkey. unfold policiesOf. by rewrite range_perm.
  - intros key wtp Hkey. apply elem_of_range in Hkey.
    destruct (Hvisited _ Hkey) as [dr Hdr]. cbn [fst] in Hdr.
    exists (object dr). split.
    + apply list_elem_of_fmap. exists (serviceFQDN key, dr). split; [reflexivity|].
      by apply elem_of_range.
    + unfold ruleHost, object. cbn. f_equal. by destruct (Hrules _ _ Hdr) as (Hhost & _).
  - assert (Hhosts : ruleHost <$> map (fun kv => object kv.2) (range destinationRules)
                     = Some <$> (range destinationRules).*1).
    { assert (Hall : forall kv, kv ∈ range destinationRules ->
                       DestinationRule_Host (WDR_DestinationRule kv.2) = kv.1).
      { intros [name dr] Hin. apply elem_of_range in Hin.
        by destruct (Hrules _ _ Hin) as (Hhost & _). }
      revert Hall. generalize (range destinationRules).
      induction l as [|kv l IH]; intros Hall; [reflexivity|].
      rewrite map_cons, !fmap_cons, IH by (intros kv' Hin; apply Hall; by right).
      f_equal. unfold ruleHost, object. cbn [Config_Spec]. f_equal. apply Hall. by left. }
    rewrite Hhosts. apply (NoDup_fmap_2 _). apply NoDup_fst_range.
Qed.
End DestinationRules.

(** ** The annotation parsers, continued *)

Section MoreParsers.
Context {AL : AnnotationLookup} {PD : ParserDeps}.

Lemma Uint32_mul_range (a b : Z) : 0 <= Uint32.mul a b <= Uint32.max_uint.
Proof.
  unfold Uint32.mul, Uint32.wrap, Uint32.max_uint.
  pose proof (Z.mod_pos_bound (a * b) (2 ^ 32)). lia.
Qed.

(** X18: Applying a decoded rate limit to a route only appends to the route's
    filter list, and appends at most one filter: registered under the
    local-rate-limit name, rejecting with status 503, with a token bucket
    whose two counts are 32-bit values and whose interval is one minute
    or one second.  When a rate annotation is present and neither rate
    decodes, nothing is appended, also when the configuration held a rate
    limit before decoding; when no rate annotation is present, decoding
    leaves the configuration as it is. *)
Theorem localRateLimit_appends_one_filter
    (a : Annotations) (config : Ingress) (g : GlobalContext) (route : HTTPRoute) :
  let config' := (localRateLimit_Parse a config g).1 in
  let route' := localRateLimit_ApplyRoute route config' in
  (exists added,
     route' = set_RouteHTTPFilters route (RouteHTTPFilters route ++ added)
     /\ (length added <= 1)%nat
     /\ (needLocalRateLimitConfig a = true ->
         forall f, f ∈ added ->
           HTTPFilter_Name f = mseingress_LocalRateLimit
           /\ exists bucket,
                Filter f = HTTPFilter_LocalRateLimit
                             {| TokenBucket_ := Some bucket; StatusCode := 503 |}
                /\ 0 <= TokenBucket_MaxTokens bucket <= Uint32.max_uint
                /\ 0 <= TokensPefFill bucket <= Uint32.max_uint
                /\ (TokenBucket_FillInterval bucket = Some {| Seconds := 60 |}
                    \/ TokenBucket_FillInterval bucket = Some {| Seconds := 1 |}))
     /\ (needLocalRateLimitConfig a = true ->
         (forall v, ParseUint32ForMSE a limitRPM <> Ok v) ->
         (forall v, ParseUint32ForMSE a limitRPS <> Ok v) ->
         added = []))
  /\ (needLocalRateLimitConfig a = false -> config' = config).
Proof.
  intros config' route'. subst route' config'. split.
  - unfold localRateLimit_Parse.
    destruct (needLocalRateLimitConfig a) eqn:Hneed; cbn [negb fst].
    + cbn [localRateLimit_ApplyRoute]. unfold localRateLimit_ApplyRoute.
      cbn [localRateLimit set_localRateLimit].
      destruct (ParseUint32ForMSE a limitRPM) as [rpm|e] eqn:Hrpm;
        [|destruct (ParseUint32ForMSE a limitRPS) as [rps|e'] eqn:Hrps].
      * eexists. split; [reflexivity|]. split; [cbn; lia|]. split.
        -- intros _ f Hf. apply list_elem_of_singleton in Hf as ->.
           split; [reflexivity|]. eexists. split; [reflexivity|].
           cbn [TokenBucket_MaxTokens TokensPefFill TokenBucket_FillInterval
                MaxTokens TokensPerFill FillInterval].
           split; [apply Uint32_mul_range|]. split; [|by left].
           by apply ParseUint32ForMSE_range in Hrpm.
        -- intros _ Hno _. by destruct (Hno rpm).
      * eexists. split; [reflexivity|]. split; [cbn; lia|]. split.
        -- intros _ f Hf. apply list_elem_of_singleton in Hf as ->.
           split; [reflexivity|]. eexists. split; [reflexivity|].
           cbn [TokenBucket_MaxTokens TokensPefFill TokenBucket_FillInterval
                MaxTokens TokensPerFill FillInterval].
           split; [apply Uint32_mul_range|]. split; [|by right].
           by apply ParseUint32ForMSE_range in Hrps.
        -- intros _ _ Hno. by destruct (Hno rps).
      * exists []. rewrite app_nil_r. split; [by destruct route|].
        split; [cbn; lia|]. split; [|done].
        intros _ f Hf. by apply elem_of_nil in Hf.
    + unfold localRateLimit_ApplyRoute. destruct (localRateLimit config) as [l|].
      * eexists. split; [reflexivity|]. split; [cbn; lia|]. split; discriminate.
      * exists []. rewrite app_nil_r. split; [by destruct route|].
        split; [cbn; lia|]. split; discriminate.
  - intros Hneed. unfold localRateLimit_Parse. by rewrite Hneed.
Qed.

(** X19: Client authentication of the downstream TLS configuration: when a
    TLS annotation is present, the decoded mode is MUTUAL exactly when a
    CA secret name is recorded, and SIMPLE with no CA secret otherwise;
    a recorded CA secret is the annotated one, which has a name, placed
    in the object's namespace when the annotation names none. *)
Theorem downstreamTLS_Parse_client_auth (a : Annotations) (config : Ingress) (g : GlobalContext) :
  needDownstreamTLS a = true ->
  exists tls,
    DownstreamTLS (downstreamTLS_Parse a config g).1 = Some tls
    /\ (Mode tls = MUTUAL <-> NamespacedName_Name (CASecretName tls) <> "")
    /\ (Mode tls <> MUTUAL -> Mode tls = SIMPLE /\ CASecretName tls = zero_NamespacedName)
    /\ (Mode tls = MUTUAL ->
        exists secretName,
          ParseStringASAP a authTLSSecret = Ok secretName
          /\ NamespacedName_Name (CASecretName tls)
             = NamespacedName_Name (SplitNamespacedName secretName)
          /\ NamespacedName_Namespace (CASecretName tls)
             = (if bool_decide (NamespacedName_Namespace (SplitNamespacedName secretName) = "")
                then Namespace (Ingress_Meta config)
                else NamespacedName_Namespace (SplitNamespacedName secretName))).
Proof.
  intros Hneed. unfold downstreamTLS_Parse. rewrite Hneed. cbn [negb].
  destruct (ParseStringASAP a authTLSSecret) as [secretName|e] eqn:Hsecret.
  - destruct (bool_decide (NamespacedName_Name (SplitNamespacedName secretName) = ""))
      eqn:Hname.
    + cbn [fst DownstreamTLS set_DownstreamTLS]. eexists. split; [reflexivity|].
      cbn [Mode CASecretName]. split; [split; [discriminate|by cbn]|].
      split; [done|discriminate].
    + apply bool_decide_eq_false in Hname.
      cbn [fst DownstreamTLS set_DownstreamTLS]. eexists. split; [reflexivity|].
      cbn [Mode CASecretName]. split; [|split; [done|]].
      * split; [|done]. intros _.
        by destruct (bool_decide (NamespacedName_Namespace _ = "")).
      * intros _. exists secretName. split; [done|].
        by destruct (bool_decide (NamespacedName_Namespace _ = "")).
  - cbn [fst DownstreamTLS set_DownstreamTLS]. eexists. split; [reflexivity|].
    cbn [Mode CASecretName]. split; [split; [discriminate|by cbn]|].
    split; [done|discriminate].
Qed.

Lemma strings_Split_nonempty (s : string) (sep : Ascii.ascii) : strings_Split s sep <> [].
Proof.
  destruct s as [|c s]; [done|]. cbn [strings_Split].
  destruct (Ascii.eqb c sep); [done|]. by destruct (strings_Split s sep).
Qed.

Lemma strings_Join_cons (x : string) (rest : list string) (sep : string) :
  rest <> [] -> strings_Join (x :: rest) sep = x +:+ sep +:+ strings_Join rest sep.
Proof. by destruct rest. Qed.

Lemma strings_Join_Split (s : string) (sep : Ascii.ascii) :
  strings_Join (strings_Split s sep) (String sep "") = s.
Proof.
  induction s as [|c s IH]; [reflexivity|]. cbn [strings_Split].
  destruct (Ascii.eqb c sep) eqn:Hc.
  - apply Ascii.eqb_eq in Hc as ->.
    rewrite strings_Join_cons by apply strings_Split_nonempty. by rewrite IH.
  - pose proof (strings_Split_nonempty s sep) as Hne.
    destruct (strings_Split s sep) as [|h t]; [done|].
    rewrite <- IH. destruct t as [|h' t]; reflexivity.
Qed.

Lemma strings_Split_pieces (s : string) (sep : Ascii.ascii) :
  Forall (fun piece => contains_byte piece sep = false) (strings_Split s sep).
Proof.
  induction s as [|c s IH]; [by repeat constructor|]. cbn [strings_Split].
  destruct (Ascii.eqb c sep) eqn:Hc.
  - by constructor.
  - pose proof (strings_Split_nonempty s sep) as Hne.
    destruct (strings_Split s sep) as [|h t]; [done|].
    inversion IH as [|? ? Hh Ht]; subst. constructor; [|done].
    cbn [contains_byte]. by rewrite Hc, Hh.
Qed.

(** X20: Cipher suites of the downstream TLS configuration: when a TLS
    annotation is present and the cipher annotation decodes, the value is
    cut at every colon (the pieces hold no colon and, joined by colons,
    give the value back) and the configuration keeps the valid pieces, in
    order; when the cipher annotation does not decode, the
    configuration has no cipher suites. *)
Theorem downstreamTLS_Parse_ciphers (a : Annotations) (config : Ingress) (g : GlobalContext) :
  needDownstreamTLS a = true ->
  exists tls,
    DownstreamTLS (downstreamTLS_Parse a config g).1 = Some tls
    /\ (forall raw, ParseStringASAP a sslCipher = Ok raw ->
          exists pieces,
            strings_Join pieces ":" = raw
            /\ Forall (fun piece => contains_byte piece ":" = false) pieces
            /\ CipherSuites tls = filter (fun cipher => IsValidCipherSuite cipher = true) pieces
            /\ CipherSuites tls `sublist_of` pieces
            /\ Forall (fun cipher => IsValidCipherSuite cipher = true) (CipherSuites tls))
    /\ ((forall raw, ParseStringASAP a sslCipher <> Ok raw) -> CipherSuites tls = []).
Proof.
  intros Hneed. unfold downstreamTLS_Parse. rewrite Hneed. cbn [negb].
  destruct (match ParseStringASAP a authTLSSecret with Ok _ => _ | Err _ => _ end)
    as [mode ca].
  cbn [fst DownstreamTLS set_DownstreamTLS]. eexists. split; [reflexivity|].
  cbn [CipherSuites]. split.
  - intros raw ->. exists (strings_Split raw ":").
    split; [apply strings_Join_Split|]. split; [apply strings_Split_pieces|].
    split; [reflexivity|]. split; [apply sublist_filter|].
    apply Forall_forall. intros cipher Hin. by apply list_elem_of_filter in Hin as [? _].
  - intros Hno. destruct (ParseStringASAP a sslCipher) as [raw|e]; [|reflexivity].
    by destruct (Hno raw).
Qed.

Lemma Convert_valid (p : string) :
  isValidTLSProtocolVersion p = true <-> Convert p <> TLS_AUTO.
Proof.
  unfold isValidTLSProtocolVersion, Convert, tlsProtocol, tlsV10, tlsV11, tlsV12, tlsV13.
  rewrite !lookup_insert, lookup_empty.
  repeat case_decide; cbn; split; intros Hp; done.
Qed.

(** X21: The protocol table: the four version names map to their four
    protocols, every other name to AUTO; and a version that decoding
    stores in the TLS configuration is never mapped to AUTO: whenever the
    minimum (maximum) field is set, its protocol is one of the four. *)
Theorem Convert_stored_versions (a : Annotations) (config : Ingress) (g : GlobalContext) :
  Convert "TLSv1.0" = TLSV1_0 /\ Convert "TLSv1.1" = TLSV1_1
  /\ Convert "TLSv1.2" = TLSV1_2 /\ Convert "TLSv1.3" = TLSV1_3
  /\ (forall p, p ∉ ["TLSv1.0"; "TLSv1.1"; "TLSv1.2"; "TLSv1.3"] <-> Convert p = TLS_AUTO)
  /\ (needDownstreamTLS a = true ->
      exists tls,
        DownstreamTLS (downstreamTLS_Parse a config g).1 = Some tls
        /\ (TlsMinVersion tls <> "" -> Convert (TlsMinVersion tls) <> TLS_AUTO)
        /\ (TlsMaxVersion tls <> "" -> Convert (TlsMaxVersion tls) <> TLS_AUTO)).
Proof.
  split; [reflexivity|]. split; [reflexivity|]. split; [reflexivity|].
  split; [reflexivity|]. split.
  - intros p. rewrite <- isValidTLSProtocolVersion_spec.
    pose proof (Convert_valid p) as Hv.
    destruct (isValidTLSProtocolVersion p); split; intros Hp.
    + by destruct Hp.
    + destruct (proj1 Hv eq_refl Hp).
    + destruct (Convert p); [done|..]; by destruct (proj2 Hv).
    + done.
  - intros Hneed. unfold downstreamTLS_Parse. rewrite Hneed. cbn [negb].
    destruct (match ParseStringASAP a authTLSSecret with Ok _ => _ | Err _ => _ end)
      as [mode ca].
    cbn [fst DownstreamTLS set_DownstreamTLS]. eexists. split; [reflexivity|].
    cbn [TlsMinVersion TlsMaxVersion]. split.
    + destruct (ParseStringForMSE a tlsMinVersion) as [v|e]; [|done].
      destruct (isValidTLSProtocolVersion v) eqn:Hv; [|done].
      intros _. by apply Convert_valid.
    + destruct (ParseStringForMSE a tlsMaxVersion) as [v|e]; [|done].
      destruct (isValidTLSProtocolVersion v) eqn:Hv; [|done].
      intros _. by apply Convert_valid.
Qed.

Lemma localRateLimit_Parse_base (a : Annotations) (config : Ingress) (g : GlobalContext) :
  same_base config (localRateLimit_Parse a config g).1
  /\ DownstreamTLS (localRateLimit_Parse a config g).1 = DownstreamTLS config.
Proof. unfold localRateLimit_Parse, same_base. by destruct (negb _). Qed.

Lemma downstreamTLS_Parse_base (a : Annotations) (config : Ingress) (g : GlobalContext) :
  same_base config (downstreamTLS_Parse a config g).1
  /\ localRateLimit (downstreamTLS_Parse a config g).1 = localRateLimit config.
Proof.
  unfold downstreamTLS_Parse, same_base. destruct (negb _); [done|].
  by destruct (match ParseStringASAP a authTLSSecret with Ok _ => _ | Err _ => _ end).
Qed.

(** X22: Each parser writes its own field only: the object's meta data, auth
    and fallback configuration are kept by both, the rate-limit parser
    keeps the TLS configuration and the TLS parser the rate limit; so the
    two parsers can run in either order with the same result. *)
Theorem parsers_commute (a : Annotations) (config : Ingress) (g : GlobalContext) :
  let rate := (localRateLimit_Parse a config g).1 in
  let tls := (downstreamTLS_Parse a config g).1 in
  same_base config rate /\ DownstreamTLS rate = DownstreamTLS config
  /\ same_base config tls /\ localRateLimit tls = localRateLimit config
  /\ (downstreamTLS_Parse a rate g).1 = (localRateLimit_Parse a tls g).1.
Proof.
  intros rate tls. subst rate tls.
  split; [apply localRateLimit_Parse_base|]. split; [apply localRateLimit_Parse_base|].
  split; [apply downstreamTLS_Parse_base|]. split; [apply downstreamTLS_Parse_base|].
  unfold downstreamTLS_Parse, localRateLimit_Parse.
  destruct (needDownstreamTLS a), (needLocalRateLimitConfig a); cbn [negb fst]; try reflexivity.
  all: cbn [Ingress_Meta set_localRateLimit].
  all: by destruct (match ParseStringASAP a authTLSSecret with Ok _ => _ | Err _ => _ end).
Qed.
End MoreParsers.

(** ** Downstream TLS on gateways *)

Section GatewayTLS.
Context {AL : AnnotationLookup} {PD : ParserDeps} {GD : GatewayDeps}.

Lemma applyDownstreamTLS_fields (cfg : DownstreamTLSConfig) (tls : ServerTLSSettings) :
  let tls' := applyDownstreamTLS cfg tls in
  TLS_CredentialName tls' = TLS_CredentialName tls
  /\ TLS_Mode tls'
     = (if bool_decide (NamespacedName_Name (CASecretName cfg) <> "")
           && negb (caSecretInvalid (CASecretName cfg) (extraSecret (TLS_CredentialName tls)))
        then Mode cfg else TLS_Mode tls)
  /\ MinProtocolVersion tls'
     = (if bool_decide (TlsMinVersion cfg <> "") then Convert (TlsMinVersion cfg)
        else MinProtocolVersion tls)
  /\ MaxProtocolVersion tls'
     = (if bool_decide (TlsMaxVersion cfg <> "") then Convert (TlsMaxVersion cfg)
        else MaxProtocolVersion tls)
  /\ TLS_CipherSuites tls'
     = (if bool_decide (length (CipherSuites cfg) <> 0%nat) then CipherSuites cfg
        else TLS_CipherSuites tls).
Proof.
  unfold applyDownstreamTLS, Convert. cbv zeta.
  destruct (bool_decide (NamespacedName_Name (CASecretName cfg) <> ""));
    [destruct (caSecretInvalid _ _)|];
    destruct (bool_decide (TlsMinVersion cfg <> ""));
    destruct (bool_decide (TlsMaxVersion cfg <> ""));
    destruct (bool_decide (length (CipherSuites cfg) <> 0%nat));
    repeat split.
Qed.

Lemma caSecretInvalid_false (ca cert : NamespacedName) :
  caSecretInvalid ca cert = false
  <-> NamespacedName_Namespace ca = NamespacedName_Namespace cert
      /\ (NamespacedName_Name ca = NamespacedName_Name cert
          \/ NamespacedName_Name ca = NamespacedName_Name cert +:+ GatewaySdsCaSuffix).
Proof.
  unfold caSecretInvalid.
  rewrite orb_false_iff, andb_false_iff, !bool_decide_eq_false.
  split.
  - intros [Hns Hname]. split; [by apply dec_stable|].
    destruct Hname as [Hname|Hname]; [left|right]; by apply dec_stable.
  - intros [Hns Hname]. split; [by intros []|].
    destruct Hname as [Hname|Hname]; [left|right]; by intros [].
Qed.

(** X23: The gateway handler guards every field it writes.  On a gateway
    whose TLS servers all have TLS settings it does not panic and keeps
    the number and order of the servers; a server that is not a TLS
    server is left as it is; and on a TLS server the credential name is
    kept, the mode changes only when the configuration names a CA secret
    that lies in the namespace of the server certificate and is named as
    the certificate or as the certificate with the CA suffix, a protocol
    bound changes only when the configuration sets that bound, and the
    cipher suites change only to a non-empty configured list.  Without a
    TLS configuration the gateway is left as it is. *)
Theorem downstreamTLS_ApplyGateway_guards (servers : list TLSServer) (config : Ingress) :
  Forall (fun server => IsTLSServer server = true -> is_Some (Tls server)) servers ->
  exists servers',
    downstreamTLS_ApplyGateway servers config = Some servers'
    /\ length servers' = length servers
    /\ (DownstreamTLS config = None -> servers' = servers)
    /\ (forall i server server',
          servers !! i = Some server -> servers' !! i = Some server' ->
          Port_Protocol server' = Port_Protocol server
          /\ (IsTLSServer server = false -> server' = server)
          /\ (IsTLSServer server = true ->
              forall cfg, DownstreamTLS config = Some cfg ->
              exists tls tls',
                Tls server = Some tls /\ Tls server' = Some tls'
                /\ TLS_CredentialName tls' = TLS_CredentialName tls
                /\ (TLS_Mode tls' <> TLS_Mode tls ->
                    TLS_Mode tls' = Mode cfg
                    /\ NamespacedName_Name (CASecretName cfg) <> ""
                    /\ NamespacedName_Namespace (CASecretName cfg)
                       = NamespacedName_Namespace (extraSecret (TLS_CredentialName tls))
                    /\ (NamespacedName_Name (CASecretName cfg)
                        = NamespacedName_Name (extraSecret (TLS_CredentialName tls))
                        \/ NamespacedName_Name (CASecretName cfg)
                           = NamespacedName_Name (extraSecret (TLS_CredentialName tls))
                             +:+ GatewaySdsCaSuffix))
                /\ (MinProtocolVersion tls' <> MinProtocolVersion tls ->
                    TlsMinVersion cfg <> ""
                    /\ MinProtocolVersion tls' = Convert (TlsMinVersion cfg))
                /\ (MaxProtocolVersion tls' <> MaxProtocolVersion tls ->
                    TlsMaxVersion cfg <> ""
                    /\ MaxProtocolVersion tls' = Convert (TlsMaxVersion cfg))
                /\ (TLS_CipherSuites tls' <> TLS_CipherSuites tls ->
                    CipherSuites cfg <> []
                    /\ TLS_CipherSuites tls' = CipherSuites cfg))).
Proof.
  intros Hall. unfold downstreamTLS_ApplyGateway.
  destruct (DownstreamTLS config) as [cfg|] eqn:Hcfg.
  - assert (Hrun : is_Some (mapM (applyServer cfg) servers)).
    { apply mapM_is_Some. eapply Forall_impl; [exact Hall|].
      intros server Htls. cbn beta in Htls. unfold compose, applyServer.
      destruct (IsTLSServer server); [|by eexists].
      destruct (Htls eq_refl) as [tls ->]. by eexists. }
    destruct Hrun as [servers' Hrun]. exists servers'. split; [done|].
    apply mapM_Some in Hrun. split; [symmetry; by eapply Forall2_length|].
    split; [discriminate|].
    intros i server server' Hi Hi'.
    destruct (Forall2_lookup_l _ _ _ _ _ Hrun Hi) as (server'' & Hi'' & Hstep).
    rewrite Hi' in Hi''. injection Hi'' as <-.
    unfold applyServer in Hstep.
    destruct (IsTLSServer server) eqn:Htls.
    + rewrite Forall_forall in Hall.
      destruct (Hall server (list_elem_of_lookup_2 _ _ _ Hi) Htls) as [tls Hsome].
      rewrite Hsome in Hstep. injection Hstep as <-.
      split; [reflexivity|]. split; [discriminate|].
      intros _ cfg' [= <-]. exists tls, (applyDownstreamTLS cfg tls).
      split; [done|]. split; [reflexivity|].
      destruct (applyDownstreamTLS_fields cfg tls) as (Hcred & Hmode & Hmin & Hmax & Hsuites).
      split; [exact Hcred|]. rewrite Hmode, Hmin, Hmax, Hsuites.
      split; [|split; [|split]].
      * destruct (bool_decide (NamespacedName_Name (CASecretName cfg) <> "")) eqn:Hname;
          [|done].
        destruct (caSecretInvalid _ _) eqn:Hvalid; [done|].
        intros _. apply bool_decide_eq_true in Hname.
        apply caSecretInvalid_false in Hvalid as [Hns Hn]. done.
      * destruct (bool_decide (TlsMinVersion cfg <> "")) eqn:Hset; [|done].
        apply bool_decide_eq_true in Hset. done.
      * destruct (bool_decide (TlsMaxVersion cfg <> "")) eqn:Hset; [|done].
        apply bool_decide_eq_true in Hset. done.
      * destruct (bool_decide (length (CipherSuites cfg) <> 0%nat)) eqn:Hset; [|done].
        apply bool_decide_eq_true in Hset. intros _. split; [|done].
        intros Hnil. by rewrite Hnil in Hset.
    + injection Hstep as <-. split; [reflexivity|]. split; [done|discriminate].
  - exists servers. split; [done|]. split; [done|]. split; [done|].
    intros i server server' Hi Hi'. rewrite Hi in Hi'. injection Hi' as <-.
    split; [reflexivity|]. split; [done|]. intros _ cfg [=].
Qed.

(** X24: Decoding followed by the gateway handler: with a TLS annotation
    present, the handler changes the mode of a server's TLS settings to
    MUTUAL only, a protocol bound to one of the four TLS versions only
    (never to AUTO), and the cipher suites to valid suites only. *)
Theorem downstreamTLS_Parse_ApplyGateway
    (a : Annotations) (config : Ingress) (g : GlobalContext) (servers : list TLSServer) :
  needDownstreamTLS a = true ->
  Forall (fun server => IsTLSServer server = true -> is_Some (Tls server)) servers ->
  exists servers',
    downstreamTLS_ApplyGateway servers (downstreamTLS_Parse a config g).1 = Some servers'
    /\ Forall2
         (fun server server' =>
            match Tls server, Tls server' with
            | Some tls, Some tls' =>
                (TLS_Mode tls' = TLS_Mode tls \/ TLS_Mode tls' = MUTUAL)
                /\ (MinProtocolVersion tls' = MinProtocolVersion tls
                    \/ MinProtocolVersion tls' <> TLS_AUTO)
                /\ (MaxProtocolVersion tls' = MaxProtocolVersion tls
                    \/ MaxProtocolVersion tls' <> TLS_AUTO)
                /\ (TLS_CipherSuites tls' = TLS_CipherSuites tls
                    \/ Forall (fun cipher => IsValidCipherSuite cipher = true)
                              (TLS_CipherSuites tls'))
            | None, None => True
            | _, _ => False
            end)
         servers servers'.
Proof.
  intros Hneed Hall. unfold downstreamTLS_ApplyGateway, downstreamTLS_Parse.
  rewrite Hneed. cbn [negb].
  set (client :=
         match ParseStringASAP a authTLSSecret with Ok _ => _ | Err _ => _ end).
  assert (Hclient : client.1 = MUTUAL \/ NamespacedName_Name client.2 = "").
  { subst client. destruct (ParseStringASAP a authTLSSecret) as [secretName|e]; [|by right].
    destruct (bool_decide (NamespacedName_Name (SplitNamespacedName secretName) = ""));
      [by right|by left]. }
  destruct client as [mode ca]. cbn [fst snd] in Hclient.
  cbn [fst DownstreamTLS set_DownstreamTLS].
  set (cfg := {| TlsMinVersion := _ |}).
  assert (Hmin : TlsMinVersion cfg <> "" -> Convert (TlsMinVersion cfg) <> TLS_AUTO).
  { subst cfg. cbn [TlsMinVersion].
    destruct (ParseStringForMSE a tlsMinVersion) as [v|e]; [|done].
    destruct (isValidTLSProtocolVersion v) eqn:Hv; [|done]. intros _. by apply Convert_valid. }
  assert (Hmax : TlsMaxVersion cfg <> "" -> Convert (TlsMaxVersion cfg) <> TLS_AUTO).
  { subst cfg. cbn [TlsMaxVersion].
    destruct (ParseStringForMSE a tlsMaxVersion) as [v|e]; [|done].
    destruct (isValidTLSProtocolVersion v) eqn:Hv; [|done]. intros _. by apply Convert_valid. }
  assert (Hsuites : Forall (fun cipher => IsValidCipherSuite cipher = true) (CipherSuites cfg)).
  { subst cfg. cbn [CipherSuites].
    destruct (ParseStringASAP a sslCipher) as [raw|e]; [|constructor].
    apply Forall_forall. intros cipher Hin. by apply list_elem_of_filter in Hin as [? _]. }
  assert (Hmode : Mode cfg = MUTUAL \/ NamespacedName_Name (CASecretName cfg) = "")
    by exact Hclient.
  clearbody cfg. clear Hclient.
  assert (Hrun : is_Some (mapM (applyServer cfg) servers)).
  { apply mapM_is_Some. eapply Forall_impl; [exact Hall|].
    intros server Htls. cbn beta in Htls. unfold compose, applyServer.
    destruct (IsTLSServer server); [|by eexists].
    destruct (Htls eq_refl) as [tls ->]. by eexists. }
  destruct Hrun as [servers' Hrun]. exists servers'. split; [done|].
  apply mapM_Some in Hrun. rewrite Forall_forall in Hall.
  apply Forall2_same_length_lookup. split; [by eapply Forall2_length|].
  intros i server server' Hi Hi'.
  destruct (Forall2_lookup_l _ _ _ _ _ Hrun Hi) as (server'' & Hi'' & Hstep).
  rewrite Hi' in Hi''. injection Hi'' as <-.
  pose proof (list_elem_of_lookup_2 _ _ _ Hi) as Hin. unfold applyServer in Hstep.
  destruct (IsTLSServer server) eqn:Htls.
  - destruct (Hall server Hin Htls) as [tls Hsome]. rewrite Hsome in Hstep |- *.
    injection Hstep as <-. cbn [Tls].
    destruct (applyDownstreamTLS_fields cfg tls) as (_ & Hm & Hlo & Hhi & Hcs).
    rewrite Hm, Hlo, Hhi, Hcs. split; [|split; [|split]].
    + destruct (bool_decide (NamespacedName_Name (CASecretName cfg) <> "")) eqn:Hname;
        [|by left].
      apply bool_decide_eq_true in Hname. destruct (negb _); [|by left].
      right. by destruct Hmode.
    + destruct (bool_decide (TlsMinVersion cfg <> "")) eqn:Hset; [|by left].
      apply bool_decide_eq_true in Hset. right. by apply Hmin.
    + destruct (bool_decide (TlsMaxVersion cfg <> "")) eqn:Hset; [|by left].
      apply bool_decide_eq_true in Hset. right. by apply Hmax.
    + destruct (bool_decide (length (CipherSuites cfg) <> 0%nat)); [by right|by left].
  - injection Hstep as <-. destruct (Tls server); [|done].
    repeat split; by left.
Qed.
End GatewayTLS.

(** ** A fresh store *)

Section FreshStore.
Context {C Handler : Type}.
Context {IC : IngressController C Handler} {HL : Helpers} {AH : AnnotationHandler}.
Context {EN : Encoders} {MR : MapRange} {AR : Arch}.

(** X25: A store as [NewIngressConfig] makes it: the default cluster id
    "Kubernetes" is stored as the empty id, any other id as given; the
    store reports synced; it lists no filter patch, without error and
    without changing; a secret notification changes nothing, so that
    nothing is pushed downstream. *)
Theorem NewIngressConfig_fresh (XDS : list PushRequest) (ns cluster : string) :
  let m : IngressConfig C Handler := NewIngressConfig XDS ns cluster in
  clusterId m = (if bool_decide (cluster = "Kubernetes") then "" else cluster)
  /\ (NewIngressConfig XDS ns "Kubernetes" : IngressConfig C Handler)
     = NewIngressConfig XDS ns ""
  /\ HasSynced m = true
  /\ List m gvk.EnvoyFilter "" = Some ([], None, m)
  /\ (forall secret, ReflectSecretChanges secret m = m)
  /\ XDSUpdater m = XDS.
Proof.
  intros m. subst m. split; [reflexivity|]. split; [reflexivity|].
  split; [unfold HasSynced, NewIngressConfig; cbn [remoteIngressControllers];
          by rewrite range_empty|].
  split; [reflexivity|]. split; [|reflexivity].
  intros secret. unfold ReflectSecretChanges, NewIngressConfig. cbn [watchedSecretSet].
  rewrite bool_decide_eq_false_2; [reflexivity|apply not_elem_of_empty].
Qed.
End FreshStore.

(** ** Two runs of a listing *)

Section ListingOrder.
Context {C Handler : Type}.
Context {IC : IngressController C Handler} {HL : Helpers} {AH : AnnotationHandler}.
Context {EN : Encoders} {AR : Arch}.
Implicit Types m : IngressConfig C Handler.

Lemma same_pass_refl (o : ConvertOptions) : same_pass o o.
Proof. by repeat split. Qed.




(** *** Source objects and wrapping *)


(** *** Gateways *)


(** *** Destination rules *)







(** *** Virtual services *)









(** *** The listing *)

Lemma same_rule_refl (c : Config) : same_rule c c.
Proof. by repeat split. Qed.





End ListingOrder.

(** ** The properties above, at concrete inputs *)

Module MoreChecks.
Import Reference Sample GatewayReference MoreReference MoreSample.



Lemma RegisterEventHandler_supported_witness :
  supported_kind gvk.VirtualService = true
  /\ virtualServiceHandlers
       (RegisterEventHandler (IC := adapter) (MR := ascending) gvk.VirtualService 7%nat store)
     = [7%nat]
  /\ gatewayHandlers
       (RegisterEventHandler (IC := adapter) (MR := ascending) gvk.VirtualService 7%nat store)
     = [].
Proof.
  assert (Hk : supported_kind gvk.VirtualService = true) by reflexivity.
  pose proof (RegisterEventHandler_supported (IC := adapter) (MR := ascending)
                store gvk.VirtualService 7%nat Hk) as Hreg.
  cbv zeta in Hreg. destruct Hreg as (Hvs & Hgw & _).
  split; [exact Hk|]. split; [rewrite Hvs|rewrite Hgw]; reflexivity.
Defined.

Lemma List_leaves_registration_witness :
  match List (IC := adapter) (HL := helpers) (AH := handler) (EN := encoders)
             (MR := ascending) (AR := amd64) store gvk.Gateway "" with
  | Some (out, err, m') => length out = 2%nat /\ registration_unchanged store m'
  | None => False
  end.
Proof.
  destruct (List (IC := adapter) (HL := helpers) (AH := handler) (EN := encoders)
                 (MR := ascending) (AR := amd64) store gvk.Gateway "")
    as [[[out err] m']|] eqn:Hlist.
  - split.
    + vm_compute in Hlist. injection Hlist as <- _ _. reflexivity.
    + exact (proj1 (List_leaves_registration (IC := adapter) (HL := helpers) (AH := handler)
                      (EN := encoders) (MR := ascending) (AR := amd64)
                      store gvk.Gateway "" out err m' Hlist)).
  - vm_compute in Hlist. discriminate Hlist.
Defined.

Lemma List_without_adapters_witness :
  remoteIngressControllers empty_store = ∅
  /\ SortIngressByCreationTime (Helpers := helpers) [] = []
  /\ List (IC := adapter) (HL := helpers) (AH := handler) (EN := encoders)
          (MR := descending) (AR := arm64) empty_store gvk.DestinationRule ""
     = Some ([], None, set_watchedSecretSet empty_store ∅).
Proof.
  assert (Hm : remoteIngressControllers empty_store = ∅) by reflexivity.
  assert (Hsort : SortIngressByCreationTime (Helpers := helpers) [] = []) by reflexivity.
  split; [exact Hm|]. split; [exact Hsort|].
  exact (proj2 (proj2 (List_without_adapters (IC := adapter) (HL := helpers) (AH := handler)
                         (EN := encoders) (MR := descending) (AR := arm64)
                         empty_store Hm Hsort))).
Defined.

Lemma percentage_near_floor_witness :
  0 <= 53 <= 100 /\ 1 <= 100 <= checked_total
  /\ spec_percentage 53 100 - 1 <= percentage (AR := amd64) 53 100 <= spec_percentage 53 100.
Proof.
  assert (Hw : 0 <= 53 <= 100) by lia.
  assert (Ht : 1 <= 100 <= checked_total) by (unfold checked_total; lia).
  split; [exact Hw|]. split; [exact Ht|].
  exact (proj1 (percentage_near_floor (AR := amd64) 53 100 Hw Ht)).
Defined.

Lemma normalizeWeightedCluster_exact_witness :
  destinations canary_53 = [destination 0; destination 53]
  /\ Forall (fun d => 0 <= Weight d) [destination 53]
  /\ 1 <= Z.max (weight_sum [destination 53]) (WeightTotal canary_53) <= checked_total
  /\ exists cache' route',
       normalizeWeightedCluster (AR := amd64) None canary_53 = Some (cache', route')
       /\ weight_sum (destinations route') = 100.
Proof.
  assert (Hd : destinations canary_53 = [destination 0; destination 53]) by reflexivity.
  assert (Hnonneg : Forall (fun d => 0 <= Weight d) [destination 53])
    by (repeat constructor; discriminate).
  assert (Ht : 1 <= Z.max (weight_sum [destination 53]) (WeightTotal canary_53)
               <= checked_total) by (vm_compute; split; discriminate).
  split; [exact Hd|]. split; [exact Hnonneg|]. split; [exact Ht|].
  destruct (normalizeWeightedCluster_exact (AR := amd64) None canary_53 _ _ _ Hd Hnonneg Ht)
    as (cache' & route' & Hrun & _ & _ & Hsum).
  exists cache', route'. split; [exact Hrun|exact Hsum].
Defined.

Lemma downstreamTLS_Parse_client_auth_witness :
  needDownstreamTLS (AL := annotation_lookup) tls_mutual = true
  /\ exists tls,
       DownstreamTLS
         (downstreamTLS_Parse (AL := annotation_lookup) (PD := deps) tls_mutual plain
            no_context).1 = Some tls
       /\ (Mode tls = MUTUAL <-> NamespacedName_Name (CASecretName tls) <> "").
Proof.
  assert (Hneed : needDownstreamTLS (AL := annotation_lookup) tls_mutual = true)
    by (vm_compute; reflexivity).
  split; [exact Hneed|].
  destruct (downstreamTLS_Parse_client_auth (AL := annotation_lookup) (PD := deps)
              tls_mutual plain no_context Hneed) as (tls & Htls & Hiff & _).
  exists tls. split; [exact Htls|exact Hiff].
Defined.

Lemma downstreamTLS_Parse_ciphers_witness :
  needDownstreamTLS (AL := annotation_lookup) tls_mutual = true
  /\ ParseStringASAP (AnnotationLookup := annotation_lookup) tls_mutual sslCipher
     = Ok "AES128-GCM-SHA256:RC4-MD5:AES256-GCM-SHA384"
  /\ exists tls,
       DownstreamTLS
         (downstreamTLS_Parse (AL := annotation_lookup) (PD := deps) tls_mutual plain
            no_context).1 = Some tls
       /\ Forall (fun cipher => IsValidCipherSuite (ParserDeps := deps) cipher = true)
                 (CipherSuites tls).
Proof.
  assert (Hneed : needDownstreamTLS (AL := annotation_lookup) tls_mutual = true)
    by (vm_compute; reflexivity).
  assert (Hraw : ParseStringASAP (AnnotationLookup := annotation_lookup) tls_mutual sslCipher
                 = Ok "AES128-GCM-SHA256:RC4-MD5:AES256-GCM-SHA384")
    by (vm_compute; reflexivity).
  split; [exact Hneed|]. split; [exact Hraw|].
  destruct (downstreamTLS_Parse_ciphers (AL := annotation_lookup) (PD := deps)
              tls_mutual plain no_context Hneed) as (tls & Htls & Hsuites & _).
  exists tls. split; [exact Htls|].
  destruct (Hsuites _ Hraw) as (pieces & _ & _ & _ & _ & Hvalid). exact Hvalid.
Defined.

Lemma downstreamTLS_ApplyGateway_guards_witness :
  Forall (fun server => IsTLSServer (GatewayDeps := gateway_deps) server = true
                        -> is_Some (Tls server)) servers
  /\ exists servers',
       downstreamTLS_ApplyGateway (GD := gateway_deps) servers
         (downstreamTLS_Parse (AL := annotation_lookup) (PD := deps) tls_mutual plain
            no_context).1 = Some servers'
       /\ length servers' = length servers.
Proof.
  assert (Hall : Forall (fun server => IsTLSServer (GatewayDeps := gateway_deps) server = true
                                       -> is_Some (Tls server)) servers).
  { unfold servers. repeat apply List.Forall_cons; [| | |apply List.Forall_nil].
    - intros _. cbn [Tls]. by eexists.
    - intros _. cbn [Tls]. by eexists.
    - intros Htls. vm_compute in Htls. discriminate Htls. }
  split; [exact Hall|].
  destruct (downstreamTLS_ApplyGateway_guards (GD := gateway_deps) servers
              (downstreamTLS_Parse (AL := annotation_lookup) (PD := deps) tls_mutual plain
                 no_context).1 Hall) as (servers' & Hrun & Hlen & _).
  exists servers'. split; [exact Hrun|exact Hlen].
Defined.

Lemma downstreamTLS_Parse_ApplyGateway_witness :
  needDownstreamTLS (AL := annotation_lookup) tls_mutual = true
  /\ Forall (fun server => IsTLSServer (GatewayDeps := gateway_deps) server = true
                           -> is_Some (Tls server)) servers
  /\ exists servers',
       downstreamTLS_ApplyGateway (GD := gateway_deps) servers
         (downstreamTLS_Parse (AL := annotation_lookup) (PD := deps) tls_mutual plain
            no_context).1 = Some servers'
       /\ length servers = length servers'.
Proof.
  assert (Hneed : needDownstreamTLS (AL := annotation_lookup) tls_mutual = true)
    by (vm_compute; reflexivity).
  assert (Hall : Forall (fun server => IsTLSServer (GatewayDeps := gateway_deps) server = true
                                       -> is_Some (Tls server)) servers).
  { unfold servers. repeat apply List.Forall_cons; [| | |apply List.Forall_nil].
    - intros _. cbn [Tls]. by eexists.
    - intros _. cbn [Tls]. by eexists.
    - intros Htls. vm_compute in Htls. discriminate Htls. }
  split; [exact Hneed|]. split; [exact Hall|].
  destruct (downstreamTLS_Parse_ApplyGateway (AL := annotation_lookup) (PD := deps)
              (GD := gateway_deps) tls_mutual plain no_context servers Hneed Hall)
    as (servers' & Hrun & Hrel).
  exists servers'. split; [exact Hrun|]. exact (Forall2_length _ _ _ Hrel).
Defined.

(** The gateway handler at work: with the CA secret named after the
    certificate of the first server, the first server turns to mutual TLS
    with the configured minimum version and the two valid cipher suites;
    the second server, whose certificate the CA secret does not match,
    keeps its mode; the HTTP server is untouched. *)
Example downstreamTLS_ApplyGateway_sample :
  downstreamTLS_ApplyGateway (GD := gateway_deps) servers
    (downstreamTLS_Parse (AL := annotation_lookup) (PD := deps) tls_mutual plain no_context).1
  = Some
      [ {| Port_Protocol := "HTTPS";
           Tls := Some {| TLS_CredentialName := "default/web-cert"; TLS_Mode := MUTUAL;
                          MinProtocolVersion := TLSV1_2; MaxProtocolVersion := TLS_AUTO;
                          TLS_CipherSuites :=
                            ["AES128-GCM-SHA256"; "AES256-GCM-SHA384"] |} |};
        {| Port_Protocol := "HTTPS";
           Tls := Some {| TLS_CredentialName := "default/other-cert"; TLS_Mode := SIMPLE;
                          MinProtocolVersion := TLSV1_2; MaxProtocolVersion := TLS_AUTO;
                          TLS_CipherSuites :=
                            ["AES128-GCM-SHA256"; "AES256-GCM-SHA384"] |} |};
        {| Port_Protocol := "HTTP"; Tls := None |} ].
Proof. vm_compute. reflexivity. Qed.

End MoreChecks.
